(** * rekog-labeler: a shallow embedding of [app.py]

    The program is a linear pipeline of calls against two remote services
    (an object store and an image-labelling service) and the local file
    system.  The embedding follows the source function by function:

    - the Python library functions the program calls on strings and paths
      ([str.lower], [os.path.splitext], [os.path.join], [os.path.relpath],
      [str.replace], [str.join], [round]) are written out in [Module Py];
    - the remote clients are records of oracles, one per API call, whose
      answer is either a value or a raised exception;
    - effects are threaded through a small state-and-exception monad [M]:
      the world holds the output file system (directories and documents)
      and the chronological trace of remote calls, prints and sleeps;
    - [sys.exit(1)] is the outcome [Exit 1], an uncaught exception the
      outcome [Raise e].

    Modelling conventions.  Confidences are the exact rational values of the
    service's numbers, and [round(x, 2)] is the decimal [n/100] nearest to
    [x] (ties to the even [n]), which is the decimal Python prints for the
    rounded float.  A CSV document is the list of its rows, a row the list of
    its cells as a CSV reader gives them back; a JSON document is the value
    that was dumped, an HTML document its text.  Paths are POSIX paths, as
    the program's default folder is, and a remote client answers a given
    request the same way throughout a run.

    The output file system.  [os.makedirs] and [open] resolve a path part by
    part, as the system does: a file or a directory is found at the place
    its path leads to ([out], [out/] and [./out] lead to one place), a
    directory must exist where a path goes through one, and a path that
    cannot be created, written or read raises the error the system reports
    ([FileNotFoundError], [FileExistsError], [NotADirectoryError],
    [IsADirectoryError], and [ValueError] for a path with a NUL character).
    There are no symbolic links, and the place of the working directory
    under the root is not known: a path from the root and a path from the
    working directory never lead to the same place.  What depends on the
    host rather than on the paths and the files (permissions, free space,
    the longest name allowed) is outside the model: a write to an open file
    succeeds. *)

From Stdlib Require Import ZArith QArith Ascii String List Lia.
From stdpp Require Import base option list strings gmap sets.

Local Open Scope Z_scope.

(** ** Python library functions used by the program *)

Module Py.

(** [str.lower], on the ASCII letters (no other character lowers to one of
    the letters of ".jpg", ".jpeg" or ".png"). *)
Definition lower_ascii (c : ascii) : ascii :=
  let n := nat_of_ascii c in
  if ((65 <=? n)%nat && (n <=? 90)%nat)%bool then ascii_of_nat (n + 32) else c.

Fixpoint lower (s : string) : string :=
  match s with
  | EmptyString => EmptyString
  | String c s' => String (lower_ascii c) (lower s')
  end.

(** [s.replace(a, b)] for one-character [a] and [b]. *)
Fixpoint replace (a b : ascii) (s : string) : string :=
  match s with
  | EmptyString => EmptyString
  | String c s' => String (if Ascii.eqb c a then b else c) (replace a b s')
  end.

(** [s.rfind(c)]: the index of the last [c], or -1. *)
Fixpoint rfind_from (c : ascii) (s : string) (i last : Z) : Z :=
  match s with
  | EmptyString => last
  | String a s' => rfind_from c s' (i + 1) (if Ascii.eqb a c then i else last)
  end.

Definition rfind (c : ascii) (s : string) : Z := rfind_from c s 0 (-1).

(** Slices [s[:k]], [s[k:]] and [s[i:j]] for indices that are not negative. *)
Definition slice_to (k : Z) (s : string) : string :=
  String.substring 0 (Z.to_nat k) s.

Definition slice_from (k : Z) (s : string) : string :=
  String.substring (Z.to_nat k) (String.length s - Z.to_nat k) s.

Definition slice (i j : Z) (s : string) : string :=
  String.substring (Z.to_nat i) (Z.to_nat j - Z.to_nat i) s.

Definition startswith (c : ascii) (s : string) : bool :=
  match s with
  | String a _ => Ascii.eqb a c
  | EmptyString => false
  end.

Fixpoint endswith (c : ascii) (s : string) : bool :=
  match s with
  | EmptyString => false
  | String a EmptyString => Ascii.eqb a c
  | String _ s' => endswith c s'
  end.

(** [posixpath.splitext]: the extension starts at the last dot of the last
    path component, unless that component has only dots before it.  The
    library scans [p[sepIndex+1:dotIndex]] for a character that is not a
    dot; [existsb] is that scan. *)
Definition splitext (p : string) : string * string :=
  let sepIndex := rfind "/" p in
  let dotIndex := rfind "." p in
  if (sepIndex <? dotIndex)
     && existsb (fun c => negb (Ascii.eqb c "."))
          (list_ascii_of_string (slice (sepIndex + 1) dotIndex p))
  then (slice_to dotIndex p, slice_from dotIndex p)
  else (p, EmptyString).

(** [posixpath.join(a, b)]. *)
Definition path_join (a b : string) : string :=
  if startswith "/" b then b
  else if (String.eqb a "" || endswith "/" a)%bool then a +:+ b
  else a +:+ "/" +:+ b.

(** [s.split(c)]. *)
Fixpoint split (c : ascii) (s : string) : list string :=
  match s with
  | EmptyString => [EmptyString]
  | String a s' =>
      if Ascii.eqb a c then EmptyString :: split c s'
      else match split c s' with
           | w :: ws => String a w :: ws
           | [] => [String a EmptyString]
           end
  end.

(** [os.path.commonprefix] of two component lists, as its length. *)
Fixpoint commonprefix_len (l1 l2 : list string) : nat :=
  match l1, l2 with
  | x :: l1', y :: l2' => if String.eqb x y then S (commonprefix_len l1' l2') else O
  | _, _ => O
  end.

(** [sep.join(l)]. *)
Definition join (sep : string) (l : list string) : string := String.concat sep l.

(** [posixpath.relpath(path, start)] for absolute, normalised arguments
    (on which the library's inner [abspath] is the identity). *)
Definition relpath (path start : string) : string :=
  let nonempty := fun x : string => negb (String.eqb x "") in
  let start_list := List.filter nonempty (split "/" start) in
  let path_list := List.filter nonempty (split "/" path) in
  let i := commonprefix_len start_list path_list in
  let rel_list := repeat ".." (length start_list - i) ++ drop i path_list in
  match rel_list with
  | [] => "."
  | _ => join "/" rel_list
  end.

(** [round(x)] to the nearest integer, ties to even. *)
Definition round_half_even (x : Q) : Z :=
  let n := Qnum x in
  let d := Zpos (Qden x) in
  let fl := n / d in
  let r2 := 2 * (n mod d) in
  if r2 <? d then fl
  else if d <? r2 then fl + 1
  else if Z.even fl then fl else fl + 1.

(** [round(x, 2)]. *)
Definition round2 (x : Q) : Q := Qmake (round_half_even (x * 100)) 100.

End Py.

(** ** Paths of the output file system *)

Definition has_char (c : ascii) (s : string) : bool :=
  existsb (Ascii.eqb c) (list_ascii_of_string s).

(** A place of the file system: whether it is counted from the root (or else
    from the working directory), and the names that lead to it, outermost
    first.  The names of a place counted from the working directory may
    start with [".."], which lead above it. *)
Definition place : Type := bool * list string.

Module Fs.

(** The parts of a path: what stands between its slashes, empty parts left
    out. *)
Definition parts (p : string) : list string :=
  List.filter (fun c : string => negb (String.eqb c "")) (Py.split "/" p).

(** A part that names an entry of a directory, unlike ["."] and [".."]. *)
Definition is_name (c : string) : bool :=
  negb (String.eqb c ".") && negb (String.eqb c "..").

(** One part further: ["."] stays, [".."] goes up (the root is its own
    parent), a name goes down. *)
Definition enter (absolute : bool) (names : list string) (c : string) : list string :=
  if String.eqb c "." then names
  else if String.eqb c ".." then
    match last names with
    | None => if absolute then [] else [".."]
    | Some top => if String.eqb top ".." then names ++ [".."] else removelast names
    end
  else names ++ [c].

(** The place a path leads to. *)
Definition locate (p : string) : place :=
  let absolute := Py.startswith "/" p in
  (absolute, fold_left (enter absolute) (parts p) []).

(** The places the names of a path stand for, in the order the path goes
    through them; the last one is the place of the path when the path ends
    in a name. *)
Fixpoint through (absolute : bool) (names : list string) (cs : list string) : list place :=
  match cs with
  | [] => []
  | c :: cs' =>
      let names' := enter absolute names c in
      (if is_name c then [(absolute, names')] else [])
      ++ through absolute names' cs'
  end.

Definition on_the_way (p : string) : list place :=
  through (Py.startswith "/" p) [] (parts p).

Definition ends_in_name (p : string) : bool :=
  match last (parts p) with
  | Some c => is_name c
  | None => false
  end.

(** The places a path goes through before its last name: the directories
    that must be there for a file of that name to be opened. *)
Definition leading_to (p : string) : list place :=
  if ends_in_name p then removelast (on_the_way p) else on_the_way p.

End Fs.

(** ** Data model *)

(** Only these file types are processed. *)
Definition IMAGE_EXTS : gset string := {[ ".jpg"; ".jpeg"; ".png" ]}.

(** The labelling service's response, as the program reads it:
    [resp.get("Labels", [])], [lab["Name"]], [lab["Confidence"]],
    [lab.get("Parents", [])], [p["Name"]]. *)
Record ParentRef := { pName : string }.

Record ServiceLabel := {
  Name : string;
  Confidence : Q;
  Parents : option (list ParentRef)
}.

Record DetectResponse := { Labels : option (list ServiceLabel) }.

(** The normalised records the program builds. *)
Record Label := {
  name : string;
  confidence : Q;
  parents : list string
}.

Record LabelResult := {
  image : string;
  labels : list Label
}.

(** The body of a [ClientError]: [e.response.get("Error", {}).get("Code", "")]. *)
Record ErrorDict := { Code : option string }.
Record ErrorResponse := { Error : option ErrorDict }.

Inductive exn :=
| ClientError (response : ErrorResponse)
| OtherException (what : string).

(** The answer of one remote call. *)
Inductive call (A : Type) :=
| Ok (a : A)
| Raises (e : exn).
Arguments Ok {A} a.
Arguments Raises {A} e.

Record S3Object := { Key : string }.
Record Page := { Contents : option (list S3Object) }.

Record S3Client := {
  create_bucket : string -> option string -> call unit;
  upload_file : string -> string -> string -> call unit;
  paginate_list_objects_v2 : string -> string -> call (list Page)
}.

Record RekogClient := {
  detect_labels : string -> string -> Z -> Q -> call DetectResponse
}.

(** The local source tree as [os.walk] sees it: the file names of a directory
    and its sub-directories, both in listing order. *)
#[local] Set Warnings "-register-all".
Inductive dirtree :=
| DirNode (files : list string) (subdirs : list (string * dirtree)).

Record OsEnv := {
  abspath : string -> string;
  dir_at : string -> option dirtree
}.

(** Lines printed by the program. *)
Inductive message :=
| MsgCreatedBucket (bucket : string)
| MsgBucketExists (bucket : string)
| MsgCouldNotCreate (e : ErrorResponse)
| MsgNotAFolder (folder : string)
| MsgUploaded (bucket key : string)
| MsgNoImagesToUpload
| MsgUploadedCount (uploaded : Z)
| MsgNoImagesInS3
| MsgFound (n : nat) (bucket prefix : string)
| MsgLabeled (i n : nat) (key : string)
| MsgRekogFailed (key : string) (e : ErrorResponse)
| MsgSavedJson (path : string)
| MsgSavedCsv (path : string).

Inductive event :=
| EPrint (m : message)
| ECreateBucket (bucket : string) (location : option string)
| EUpload (full bucket key : string)
| EListObjects (bucket prefix : string)
| EDetect (bucket key : string) (max_labels : Z) (min_conf : Q)
| ESleep (ms : Z).

(** Output documents. *)
Inductive cell :=
| CStr (s : string)
| CNum (x : Q).

Inductive document :=
| CsvDoc (rows : list (list cell))
| JsonDoc (results : list LabelResult)
| HtmlDoc (text : string).

(** A file just opened for writing holds nothing: as a CSV document, no
    row. *)
Definition empty_file : document := CsvDoc [].

(** The world: the directories made and the files written, each at its
    place, and the trace. *)
Record world := {
  dirs : gset place;
  files : gmap place document;
  trace : list event
}.

(** Python values returned by functions that return no record of their own. *)
Inductive pyobj :=
| PyNone
| PyInt (n : Z).

(** ** The effect monad *)

Inductive outcome (A : Type) :=
| Ret (a : A)
| Exit (code : Z)
| Raise (e : exn).
Arguments Ret {A} a.
Arguments Exit {A} code.
Arguments Raise {A} e.

Definition M (A : Type) : Type := world -> outcome A * world.

Definition ret {A} (a : A) : M A := fun w => (Ret a, w).

Definition bind {A B} (m : M A) (k : A -> M B) : M B :=
  fun w =>
    match m w with
    | (Ret a, w') => k a w'
    | (Exit c, w') => (Exit c, w')
    | (Raise e, w') => (Raise e, w')
    end.

Declare Scope py_scope.
Delimit Scope py_scope with py.
Notation "x <- m ;; k" := (bind m (fun x => k))
  (at level 100, m at next level, right associativity) : py_scope.
Notation "m ;; k" := (bind m (fun _ => k))
  (at level 100, right associativity) : py_scope.
Local Open Scope py_scope.

Definition sys_exit {A} (code : Z) : M A := fun w => (Exit code, w).

Definition raise {A} (e : exn) : M A := fun w => (Raise e, w).

Definition emit (e : event) : M unit :=
  fun w => (Ret tt, {| dirs := dirs w; files := files w; trace := trace w ++ [e] |}).

Definition print (m : message) : M unit := emit (EPrint m).

(** [time.sleep(0.1)]: a tenth of a second, counted in milliseconds. *)
Definition sleep (ms : Z) : M unit := emit (ESleep ms).

(** A remote call: the request is recorded, then the oracle's answer is
    returned or raised. *)
Definition remote {A} (request : event) (answer : call A) : M A :=
  emit request ;;
  match answer with
  | Ok a => ret a
  | Raises e => raise e
  end.

(** [try: body except ClientError as e: handler(e)].  Effects of the body up
    to the raise persist; every other outcome passes through. *)
Definition try_except_ClientError {A} (body : M A) (handler : ErrorResponse -> M A) : M A :=
  fun w =>
    match body w with
    | (Raise (ClientError r), w') => handler r w'
    | other => other
    end.

(** [for x in l: s = body(s, x)]. *)
Fixpoint for_each {A S} (l : list A) (body : S -> A -> M S) (s : S) : M S :=
  match l with
  | [] => ret s
  | x :: l' => s' <- body s x ;; for_each l' body s'
  end.

(** *** The file system *)

(** The errors of the operating system, by the name of their class. *)
Definition FileNotFoundError : exn := OtherException "FileNotFoundError".
Definition FileExistsError : exn := OtherException "FileExistsError".
Definition NotADirectoryError : exn := OtherException "NotADirectoryError".
Definition IsADirectoryError : exn := OtherException "IsADirectoryError".
Definition ValueError : exn := OtherException "ValueError".
Definition JSONDecodeError : exn := OtherException "JSONDecodeError".

(** The root, the working directory and what [".."] leads to above it are
    always there; any other directory is one that was made. *)
Definition is_dir (w : world) (l : place) : bool :=
  match last l.2 with
  | None => true
  | Some top => String.eqb top ".." || bool_decide (l ∈ dirs w)
  end.

Definition is_file (w : world) (l : place) : bool :=
  negb (is_dir w l) && bool_decide (is_Some (files w !! l)).

(** The file at a path, if any. *)
Definition file_at (w : world) (path : string) : option document :=
  files w !! Fs.locate path.

(** [os.makedirs(name, exist_ok=True)], part by part: a name is entered, and
    made a directory unless something is there already.  A file where the
    path goes on is an error at the next part, a file at the end of the path
    an error of its own; a part with a NUL character is refused when its
    turn comes.  The directories made before an error stay. *)
Fixpoint makedirs_from (absolute : bool) (names : list string) (cs : list string)
    : M unit :=
  fun w =>
    match cs with
    | [] =>
        if is_file w (absolute, names) then (Raise FileExistsError, w) else (Ret tt, w)
    | c :: cs' =>
        if has_char "000" c then (Raise ValueError, w)
        else if is_file w (absolute, names) then (Raise NotADirectoryError, w)
        else
          let there := (absolute, Fs.enter absolute names c) in
          makedirs_from absolute there.2 cs'
            (if Fs.is_name c && negb (is_file w there)
             then {| dirs := {[ there ]} ∪ dirs w; files := files w; trace := trace w |}
             else w)
    end.

Definition makedirs (name : string) : M unit :=
  if String.eqb name "" then raise FileNotFoundError
  else makedirs_from (Py.startswith "/" name) [] (Fs.parts name).

(** Why a path cannot be gone through: the first place on it that is not a
    directory. *)
Definition blocked (w : world) (ds : list place) : option exn :=
  match List.find (fun d => negb (is_dir w d)) ds with
  | Some d => Some (if is_file w d then NotADirectoryError else FileNotFoundError)
  | None => None
  end.

(** Why [open(path, "w")] fails, if it does. *)
Definition open_w_error (w : world) (path : string) : option exn :=
  if has_char "000" path then Some ValueError
  else if String.eqb path "" then Some FileNotFoundError
  else
    match blocked w (Fs.leading_to path) with
    | Some e => Some e
    | None =>
        if negb (Fs.ends_in_name path) || Py.endswith "/" path
           || is_dir w (Fs.locate path)
        then Some IsADirectoryError
        else None
    end.

(** [open(path, "w")]: the file is created, or emptied; the result stands for
    the open file. *)
Definition open_w (path : string) : M place :=
  fun w =>
    match open_w_error w path with
    | Some e => (Raise e, w)
    | None =>
        (Ret (Fs.locate path),
         {| dirs := dirs w; files := <[Fs.locate path := empty_file]> (files w);
            trace := trace w |})
    end.

(** [open(path, "r")], with what the file holds as its result. *)
Definition open_r (path : string) : M document :=
  fun w =>
    if has_char "000" path then (Raise ValueError, w)
    else if String.eqb path "" then (Raise FileNotFoundError, w)
    else
      match blocked w (Fs.leading_to path) with
      | Some e => (Raise e, w)
      | None =>
          if negb (Fs.ends_in_name path) || is_dir w (Fs.locate path)
          then (Raise IsADirectoryError, w)
          else
            match files w !! Fs.locate path with
            | None => (Raise FileNotFoundError, w)
            | Some doc =>
                if Py.endswith "/" path then (Raise NotADirectoryError, w)
                else (Ret doc, w)
            end
      end.

(** [csv.writer(f).writerow(row)], [json.dump(results, f)], [f.write(text)]
    and [json.load(f)] on an open file. *)
Definition writerow (f : place) (row : list cell) : M unit :=
  fun w =>
    let rows := match files w !! f with
                | Some (CsvDoc rows) => rows
                | _ => []
                end in
    (Ret tt, {| dirs := dirs w; files := <[f := CsvDoc (rows ++ [row])]> (files w);
                trace := trace w |}).

Definition json_dump (f : place) (results : list LabelResult) : M unit :=
  fun w => (Ret tt, {| dirs := dirs w; files := <[f := JsonDoc results]> (files w);
                      trace := trace w |}).

Definition write (f : place) (text : string) : M unit :=
  fun w => (Ret tt, {| dirs := dirs w; files := <[f := HtmlDoc text]> (files w);
                      trace := trace w |}).

(** A CSV or HTML document, or an empty file, is not JSON text. *)
Definition json_load (doc : document) : M (list LabelResult) :=
  match doc with
  | JsonDoc results => ret results
  | _ => raise JSONDecodeError
  end.

(** ** The program *)

Definition error_code (r : ErrorResponse) : string :=
  default "" (Code (default {| Code := None |} (Error r))).

(** Create bucket if it does not exist (safe to re-run). *)
Definition ensure_bucket (s3_client : S3Client) (bucket region : string) : M unit :=
  try_except_ClientError
    ((if String.eqb region "us-east-1"
      then remote (ECreateBucket bucket None) (create_bucket s3_client bucket None)
      else remote (ECreateBucket bucket (Some region))
                  (create_bucket s3_client bucket (Some region))) ;;
     print (MsgCreatedBucket bucket))
    (fun e =>
       let code := error_code e in
       if bool_decide (code ∈ ["BucketAlreadyOwnedByYou"; "BucketAlreadyExists"])
       then print (MsgBucketExists bucket)
       else (print (MsgCouldNotCreate e) ;; sys_exit 1)).

(** [os.walk(top)], top-down: a directory, then its sub-directories in turn. *)
Fixpoint walk (top : string) (t : dirtree) : list (string * list string * list string) :=
  match t with
  | DirNode files subdirs =>
      (top, map fst subdirs, files)
      :: flat_map (fun entry => walk (Py.path_join top (fst entry)) (snd entry)) subdirs
  end.

Definition is_image (f : string) : bool :=
  bool_decide (Py.lower (snd (Py.splitext f)) ∈ IMAGE_EXTS).

Definition upload_key (prefix folder full : string) : string :=
  Py.replace "\" "/" (Py.path_join prefix (Py.relpath full folder)).

(** The body of the inner loop of [upload_folder_to_s3], for one file [f] of
    the directory [root]; [continue] is the early [ret]. *)
Definition upload_one (s3_client : S3Client) (folder bucket prefix root : string)
    (uploaded : Z) (f : string) : M Z :=
  if negb (is_image f) then ret uploaded
  else
    let full := Py.path_join root f in
    let key := upload_key prefix folder full in
    remote (EUpload full bucket key) (upload_file s3_client full bucket key) ;;
    let uploaded := uploaded + 1 in
    print (MsgUploaded bucket key) ;;
    ret uploaded.

(** The body of its outer loop, for one triple of [os.walk]. *)
Definition upload_dir (s3_client : S3Client) (folder bucket prefix : string)
    (uploaded : Z) (entry : string * list string * list string) : M Z :=
  let '(root, _, files) := entry in
  for_each files (upload_one s3_client folder bucket prefix root) uploaded.

(** Upload all jpg/png from local folder to S3. *)
Definition upload_folder_to_s3 (os : OsEnv) (s3_client : S3Client)
    (folder bucket prefix : string) : M pyobj :=
  let folder := abspath os folder in
  match dir_at os folder with
  | None => print (MsgNotAFolder folder) ;; sys_exit 1
  | Some tree =>
      uploaded <- for_each (walk folder tree)
                           (upload_dir s3_client folder bucket prefix) 0 ;;
      if uploaded =? 0
      then (print MsgNoImagesToUpload ;; sys_exit 1)
      else (print (MsgUploadedCount uploaded) ;; ret PyNone)
  end.

(** The bodies of the two loops of [list_s3_images]. *)
Definition collect_object (keys : list string) (obj : S3Object) : M (list string) :=
  let key := Key obj in
  if is_image key then ret (keys ++ [key]) else ret keys.

Definition collect_page (keys : list string) (page : Page) : M (list string) :=
  for_each (default [] (Contents page)) collect_object keys.

(** List images already stored in S3 under the given prefix. *)
Definition list_s3_images (s3_client : S3Client) (bucket prefix : string) : M (list string) :=
  pages <- remote (EListObjects bucket prefix)
                  (paginate_list_objects_v2 s3_client bucket prefix) ;;
  keys <- for_each pages collect_page [] ;;
  match keys with
  | [] => print MsgNoImagesInS3 ;; sys_exit 1
  | _ => print (MsgFound (length keys) bucket prefix) ;; ret keys
  end.

Definition image_uri (bucket key : string) : string :=
  "s3://" +:+ bucket +:+ "/" +:+ key.

Definition normalize_label (lab : ServiceLabel) : Label :=
  {| name := Name lab;
     confidence := Py.round2 (Confidence lab);
     parents := map pName (default [] (Parents lab)) |}.

(** Call Rekognition DetectLabels on one image in S3. *)
Definition detect_labels_for_s3_object (rekog_client : RekogClient)
    (bucket key : string) (max_labels : Z) (min_conf : Q) : M LabelResult :=
  resp <- remote (EDetect bucket key max_labels min_conf)
                 (detect_labels rekog_client bucket key max_labels min_conf) ;;
  ret {| image := image_uri bucket key;
         labels := map normalize_label (default [] (Labels resp)) |}.

Definition csv_header : list cell :=
  [CStr "image"; CStr "label"; CStr "confidence"; CStr "parents"].

Definition csv_row (res : LabelResult) (lab : Label) : list cell :=
  [CStr (image res); CStr (name lab); CNum (confidence lab);
   CStr (Py.join ";" (parents lab))].

(** The loop of [bulk_detect_and_save]: [i] counts from 1 ([enumerate]),
    [n] is [len(keys)] of the whole sequence, [fcsv] the open CSV file the
    writer writes to. *)
Fixpoint detect_loop (rekog_client : RekogClient) (bucket : string) (fcsv : place)
    (max_labels : Z) (min_conf : Q) (n i : nat) (keys : list string)
    (results : list LabelResult) : M (list LabelResult) :=
  match keys with
  | [] => ret results
  | key :: rest =>
      results <-
        try_except_ClientError
          (res <- detect_labels_for_s3_object rekog_client bucket key max_labels min_conf ;;
           let results := results ++ [res] in
           for_each (labels res) (fun _ lab => writerow fcsv (csv_row res lab)) tt ;;
           print (MsgLabeled i n key) ;;
           sleep 100 ;;
           ret results)
          (fun e => print (MsgRekogFailed key e) ;; ret results) ;;
      detect_loop rekog_client bucket fcsv max_labels min_conf n (S i) rest results
  end.

(** Loop all images, detect labels, save JSON + CSV. *)
Definition bulk_detect_and_save (rekog_client : RekogClient) (bucket : string)
    (keys : list string) (out_dir : string) (max_labels : Z) (min_conf : Q)
    : M (string * string) :=
  makedirs out_dir ;;
  let json_path := Py.path_join out_dir "labels.json" in
  let csv_path := Py.path_join out_dir "labels.csv" in
  fcsv <- open_w csv_path ;;
  writerow fcsv csv_header ;;
  results <- detect_loop rekog_client bucket fcsv max_labels min_conf
                         (length keys) 1 keys [] ;;
  fjson <- open_w json_path ;;
  json_dump fjson results ;;
  print (MsgSavedJson json_path) ;;
  print (MsgSavedCsv csv_path) ;;
  ret (json_path, csv_path).

(** ** Notions the statements are written with *)

(** What one detector call yields for a key: the record built from the
    service's answer, or nothing when the call raises. *)
Definition detected (rekog_client : RekogClient) (bucket : string)
    (max_labels : Z) (min_conf : Q) (key : string) : option LabelResult :=
  match detect_labels rekog_client bucket key max_labels min_conf with
  | Ok resp => Some {| image := image_uri bucket key;
                       labels := map normalize_label (default [] (Labels resp)) |}
  | Raises _ => None
  end.

Definition succeeded (rekog_client : RekogClient) (bucket : string)
    (max_labels : Z) (min_conf : Q) (key : string) : bool :=
  match detect_labels rekog_client bucket key max_labels min_conf with
  | Ok _ => true
  | Raises _ => false
  end.

(** A call is recoverable when it succeeds or fails with a remote-service
    error, the one exception the batch loop catches. *)
Definition recoverable (rekog_client : RekogClient) (bucket : string)
    (max_labels : Z) (min_conf : Q) (key : string) : bool :=
  match detect_labels rekog_client bucket key max_labels min_conf with
  | Raises (OtherException _) => false
  | _ => true
  end.

(** The records of the keys whose call succeeded, in key order. *)
Definition successes (rekog_client : RekogClient) (bucket : string)
    (max_labels : Z) (min_conf : Q) (keys : list string) : list LabelResult :=
  omap (detected rekog_client bucket max_labels min_conf) keys.

Definition result_rows (res : LabelResult) : list (list cell) :=
  map (csv_row res) (labels res).

(** Events of one iteration of the batch loop, and of the whole loop. *)
Definition key_events (rekog_client : RekogClient) (bucket : string)
    (max_labels : Z) (min_conf : Q) (n i : nat) (key : string) : list event :=
  EDetect bucket key max_labels min_conf ::
  match detect_labels rekog_client bucket key max_labels min_conf with
  | Ok _ => [EPrint (MsgLabeled i n key); ESleep 100]
  | Raises (ClientError r) => [EPrint (MsgRekogFailed key r)]
  | Raises (OtherException _) => []
  end.

Fixpoint loop_events (rekog_client : RekogClient) (bucket : string)
    (max_labels : Z) (min_conf : Q) (n i : nat) (keys : list string) : list event :=
  match keys with
  | [] => []
  | key :: rest =>
      key_events rekog_client bucket max_labels min_conf n i key
      ++ loop_events rekog_client bucket max_labels min_conf n (S i) rest
  end.

(** Projections of a trace. *)
Definition detect_key (e : event) : option string :=
  match e with
  | EDetect _ key _ _ => Some key
  | _ => None
  end.

Definition is_call_or_sleep (e : event) : bool :=
  match e with
  | EDetect _ _ _ _ | ESleep _ => true
  | _ => false
  end.

Definition upload_of (e : event) : option (string * string * string) :=
  match e with
  | EUpload full bucket key => Some (full, bucket, key)
  | _ => None
  end.

(** [paced pending evs]: no detector call of [evs] follows another one (or a
    pending one) without a 100 ms sleep in between. *)
Fixpoint paced (pending : bool) (evs : list event) : bool :=
  match evs with
  | [] => true
  | EDetect _ _ _ _ :: evs' => negb pending && paced true evs'
  | ESleep ms :: evs' => paced (if ms =? 100 then false else pending) evs'
  | _ :: evs' => paced pending evs'
  end.

(** The world after some more events. *)
Definition record_events (evs : list event) (w : world) : world :=
  {| dirs := dirs w; files := files w; trace := trace w ++ evs |}.

(** The events a run appends to the trace it starts from. *)
Definition new_events (before after : world) : list event :=
  drop (length (trace before)) (trace after).

(** The files of the source tree, each with the directory [os.walk] reports
    it in, in traversal order; and the uploads the matching ones give. *)
Definition files_of (entry : string * list string * list string) : list (string * string) :=
  let '(root, _, files) := entry in map (pair root) files.

Definition all_files (folder : string) (tree : dirtree) : list (string * string) :=
  flat_map files_of (walk folder tree).

Definition matching_files (folder : string) (tree : dirtree) : list (string * string) :=
  List.filter (fun rf => is_image rf.2) (all_files folder tree).

Definition upload_events (prefix folder bucket : string) (rf : string * string) : list event :=
  let full := Py.path_join rf.1 rf.2 in
  let key := upload_key prefix folder full in
  [EUpload full bucket key; EPrint (MsgUploaded bucket key)].

Definition page_keys (pages : list Page) : list string :=
  List.filter is_image (map Key (flat_map (fun page => default [] (Contents page)) pages)).

(** The text made of [sep] followed by [q], for each [q] of [qs] in turn. *)
Fixpoint sep_each (sep : string) (qs : list string) : string :=
  match qs with
  | [] => ""
  | q :: qs' => sep +:+ q +:+ sep_each sep qs'
  end.

(** The location constraint [ensure_bucket] sends. *)
Definition location_constraint (region : string) : option string :=
  if String.eqb region "us-east-1" then None else Some region.

(** The batch runner can open its CSV file from [w]: the output directory
    can be made and, once it is, the path of the CSV file does not lead to a
    directory. *)
Definition can_open_csv (out_dir : string) (w : world) : bool :=
  match makedirs out_dir w with
  | (Ret _, w1) => negb (is_dir w1 (Fs.locate (Py.path_join out_dir "labels.csv")))
  | _ => false
  end.

(** The batch runner can write both outputs from [w]: it can open its CSV
    file, and the path of the JSON file does not lead to a directory
    either. *)
Definition can_save (out_dir : string) (w : world) : bool :=
  can_open_csv out_dir w
  && negb (is_dir (makedirs out_dir w).2 (Fs.locate (Py.path_join out_dir "labels.json"))).

(** ** Concrete inputs used in examples *)

Definition w0 : world := {| dirs := ∅; files := ∅; trace := [] |}.

Definition s3_ok : S3Client :=
  {| create_bucket := fun _ _ => Ok tt;
     upload_file := fun _ _ _ => Ok tt;
     paginate_list_objects_v2 := fun _ _ => Ok [ {| Contents := None |} ] |}.

Definition s3_refusing (code : string) : S3Client :=
  {| create_bucket := fun _ _ =>
       Raises (ClientError {| Error := Some {| Code := Some code |} |});
     upload_file := fun _ _ _ => Ok tt;
     paginate_list_objects_v2 := fun _ _ => Ok [] |}.

(** A source directory with [a.jpg], [b.png] and [c.txt]. *)
Definition os_abc : OsEnv :=
  {| abspath := fun p => p;
     dir_at := fun p =>
       if String.eqb p "/srv/images"
       then Some (DirNode ["a.jpg"; "b.png"; "c.txt"] [])
       else None |}.

Definition os_notes : OsEnv :=
  {| abspath := fun p => p;
     dir_at := fun p =>
       if String.eqb p "/srv/notes"
       then Some (DirNode ["readme.txt"] [("old", DirNode [".png"] [])])
       else None |}.

Definition cat_response : DetectResponse :=
  {| Labels := Some [ {| Name := "Cat"; Confidence := 9342 # 100;
                         Parents := Some [ {| pName := "Animal" |} ] |};
                      {| Name := "Pet"; Confidence := 8850499 # 100000;
                         Parents := None |} ] |}.

Definition throttled : exn :=
  ClientError {| Error := Some {| Code := Some "ThrottlingException" |} |}.

(** A labelling client that fails on [images/b.jpg], finds nothing in
    [images/c.jpg] and two labels in every other image. *)
Definition rekog_demo : RekogClient :=
  {| detect_labels := fun _ key _ _ =>
       if String.eqb key "images/b.jpg" then Raises throttled
       else if String.eqb key "images/c.jpg" then Ok {| Labels := None |}
       else Ok cat_response |}.

Definition rekog_down : RekogClient :=
  {| detect_labels := fun _ _ _ _ => Raises throttled |}.

Definition keys_abc : list string := ["images/a.jpg"; "images/b.jpg"; "images/c.jpg"].

(** A labelling client that answers as [rekog_demo] does, except that the
    call for [images/d.jpg] times out. *)
Definition rekog_timeout : RekogClient :=
  {| detect_labels := fun bucket key max_labels min_conf =>
       if String.eqb key "images/d.jpg" then Raises (OtherException "ReadTimeoutError")
       else detect_labels rekog_demo bucket key max_labels min_conf |}.

(** A labelling client that cannot be reached. *)
Definition rekog_unreachable : RekogClient :=
  {| detect_labels := fun _ _ _ _ => Raises (OtherException "EndpointConnectionError") |}.

(** A world in which a file is where the output directory [out] should
    be. *)
Definition w_file_at_out : world :=
  {| dirs := ∅; files := {[ (false, ["out"]) := JsonDoc [] ]}; trace := [] |}.

(** ** Further notions: runs that an exception cuts short *)

(** The keys the batch loop reaches: all of them, or those up to and
    including the first whose call raises something the loop does not
    catch. *)
Fixpoint reached (rekog_client : RekogClient) (bucket : string)
    (max_labels : Z) (min_conf : Q) (keys : list string) : list string :=
  match keys with
  | [] => []
  | key :: rest =>
      key :: (if recoverable rekog_client bucket max_labels min_conf key
              then reached rekog_client bucket max_labels min_conf rest
              else [])
  end.

(** The exception that leaves the batch loop, if any. *)
Fixpoint crash (rekog_client : RekogClient) (bucket : string)
    (max_labels : Z) (min_conf : Q) (keys : list string) : option exn :=
  match keys with
  | [] => None
  | key :: rest =>
      match detect_labels rekog_client bucket key max_labels min_conf with
      | Raises (OtherException what) => Some (OtherException what)
      | _ => crash rekog_client bucket max_labels min_conf rest
      end
  end.

Definition is_print (e : event) : bool :=
  match e with
  | EPrint _ => true
  | _ => false
  end.

(** A labelling client whose connection drops on [images/b.jpg]. *)
Definition rekog_flaky : RekogClient :=
  {| detect_labels := fun _ key _ _ =>
       if String.eqb key "images/b.jpg" then Raises (OtherException "EndpointConnectionError")
       else Ok cat_response |}.


(** The events of the uploader's loops on the matching files [m]: an upload
    and its line for each file in turn, up to and including the first upload
    that raises. *)
Fixpoint upload_attempts (s3_client : S3Client) (prefix folder bucket : string)
    (m : list (string * string)) : list event :=
  match m with
  | [] => []
  | rf :: rest =>
      let full := Py.path_join rf.1 rf.2 in
      let key := upload_key prefix folder full in
      EUpload full bucket key ::
      match upload_file s3_client full bucket key with
      | Ok _ => EPrint (MsgUploaded bucket key)
                :: upload_attempts s3_client prefix folder bucket rest
      | Raises _ => []
      end
  end.

(** The exception of that first upload, if any. *)
Fixpoint upload_failure (s3_client : S3Client) (prefix folder bucket : string)
    (m : list (string * string)) : option exn :=
  match m with
  | [] => None
  | rf :: rest =>
      let full := Py.path_join rf.1 rf.2 in
      match upload_file s3_client full bucket (upload_key prefix folder full) with
      | Ok _ => upload_failure s3_client prefix folder bucket rest
      | Raises e => Some e
      end
  end.

(** A computation that leaves the directories and files as they are. *)
Definition keeps_store {A} (m : M A) : Prop :=
  forall w, dirs (m w).2 = dirs w /\ files (m w).2 = files w.

(** A computation that only appends to the trace, and only events that
    satisfy [P]. *)
Definition emits {A} (P : event -> bool) (m : M A) : Prop :=
  forall w, exists evs, trace (m w).2 = trace w ++ evs /\ forallb P evs = true.

Definition is_create_bucket (e : event) : bool :=
  match e with ECreateBucket _ _ => true | _ => false end.

Definition is_upload (e : event) : bool :=
  match e with EUpload _ _ _ => true | _ => false end.

Definition is_list_objects (e : event) : bool :=
  match e with EListObjects _ _ => true | _ => false end.

Definition is_detect (e : event) : bool :=
  match e with EDetect _ _ _ _ => true | _ => false end.

Definition is_sleep (e : event) : bool :=
  match e with ESleep _ => true | _ => false end.

(** An object store whose uploads fail from [b.png] on. *)
Definition s3_full : S3Client :=
  {| create_bucket := fun _ _ => Ok tt;
     upload_file := fun full _ _ =>
       if String.eqb full "/srv/images/a.jpg" then Ok tt
       else Raises (OtherException "S3UploadFailedError");
     paginate_list_objects_v2 := fun _ _ => Ok [] |}.

(** An object store that lists two pages of objects under [images/]. *)
Definition s3_listing : S3Client :=
  {| create_bucket := fun _ _ => Ok tt;
     upload_file := fun _ _ _ => Ok tt;
     paginate_list_objects_v2 := fun _ _ =>
       Ok [ {| Contents := Some [ {| Key := "images/a.jpg" |};
                                  {| Key := "images/notes.txt" |} ] |};
            {| Contents := None |};
            {| Contents := Some [ {| Key := "images/sub/B.PNG" |} ] |} ] |}.

(** The files of a tree, each with the names of the sub-directories that
    lead to it, in the order [os.walk] visits them. *)
Fixpoint tree_files (t : dirtree) : list (list string * string) :=
  match t with
  | DirNode files subdirs =>
      map (pair []) files
      ++ flat_map (fun entry =>
                     map (fun nf : list string * string => (fst entry :: nf.1, nf.2))
                         (tree_files (snd entry)))
                  subdirs
  end.

(** A name a directory can hold: not empty and without a separator. *)
Definition entry_name (x : string) : bool :=
  negb (String.eqb x "") && negb (has_char "/" x).

Fixpoint named_well (t : dirtree) : bool :=
  match t with
  | DirNode files subdirs =>
      forallb entry_name files
      && forallb (fun entry => entry_name (fst entry) && named_well (snd entry)) subdirs
  end.

(** The path of a file from the folder, as its components joined by ["/"]. *)
Definition relative_path (nf : list string * string) : string :=
  Py.join "/" (nf.1 ++ [nf.2]).

(** A source directory with images two levels down. *)
Definition holiday_tree : dirtree :=
  DirNode ["a.jpg"; "notes.txt"]
          [("cats", DirNode ["tom.PNG"] [("old", DirNode ["kit.jpeg"; "kit.txt"] [])]);
           ("empty", DirNode [] [])].

Definition os_holiday : OsEnv :=
  {| abspath := fun p => p;
     dir_at := fun p => if String.eqb p "/srv/holiday" then Some holiday_tree else None |}.

(** ** The pipeline: session, report and [main] *)

(** [os.path.basename], [os.path.dirname] and [str.rstrip] of one
    character. *)
Definition basename (p : string) : string :=
  Py.slice_from (Py.rfind "/" p + 1) p.

Fixpoint rstrip (c : ascii) (s : string) : string :=
  match s with
  | EmptyString => EmptyString
  | String a s' =>
      match rstrip c s' with
      | EmptyString => if Ascii.eqb a c then EmptyString else String a EmptyString
      | rest => String a rest
      end
  end.

Definition dirname (p : string) : string :=
  let i := Py.rfind "/" p + 1 in
  let head := Py.slice_to i p in
  if negb (String.eqb head "")
     && negb (forallb (Ascii.eqb "/") (list_ascii_of_string head))
  then rstrip "/" head
  else head.

(** What [boto3.Session(...)] gives: the two clients of [sess.client]. *)
Record Session := {
  client_s3 : S3Client;
  client_rekognition : RekogClient
}.

Record Boto3 := { new_session : string -> string -> call Session }.

(** The parsed command line. *)
Module Args.
Record t := {
  profile : string;
  region : string;
  bucket : string;
  local_folder : string;
  prefix : string;
  max_labels : Z;
  min_confidence : Q
}.
End Args.

(** Lines printed by the stages of this layer. *)
Inductive pipeline_message :=
| MsgCredentialsError (e : exn)
| MsgSavedHtml (path : string)
| MsgDone.

(** The log of a whole run: the events of the stages above, the session
    request and the lines of this layer, in the order they happen. *)
Inductive step :=
| Core (e : event)
| ESession (profile region : string)
| ESay (m : pipeline_message).

(** The world of a whole run: the world of the stages above, and the log. *)
Record site := {
  base : world;
  log : list step
}.

Definition P (A : Type) : Type := site -> outcome A * site.

Definition pret {A} (a : A) : P A := fun s => (Ret a, s).

Definition pbind {A B} (m : P A) (k : A -> P B) : P B :=
  fun s =>
    match m s with
    | (Ret a, s') => k a s'
    | (Exit c, s') => (Exit c, s')
    | (Raise e, s') => (Raise e, s')
    end.

Declare Scope pipe_scope.
Delimit Scope pipe_scope with pipe.
Notation "x <- m ;; k" := (pbind m (fun x => k))
  (at level 100, m at next level, right associativity) : pipe_scope.
Notation "m ;; k" := (pbind m (fun _ => k))
  (at level 100, right associativity) : pipe_scope.

Definition pexit {A} (code : Z) : P A := fun s => (Exit code, s).

Definition praise {A} (e : exn) : P A := fun s => (Raise e, s).

Definition record_step (st : step) : P unit :=
  fun s => (Ret tt, {| base := base s; log := log s ++ [st] |}).

Definition say (m : pipeline_message) : P unit := record_step (ESay m).

(** A stage of the layers above, run on the world inside: its events go to
    the log as they come. *)
Definition lift {A} (m : M A) : P A :=
  fun s =>
    let r := m (base s) in
    (r.1, {| base := r.2; log := log s ++ map Core (new_events (base s) r.2) |}).

(** [except (NoCredentialsError, ClientError)]. *)
Definition credentials_error (e : exn) : bool :=
  match e with
  | ClientError _ => true
  | OtherException what => String.eqb what "NoCredentialsError"
  end.

Definition try_except_credentials {A} (body : P A) (handler : exn -> P A) : P A :=
  fun s =>
    match body s with
    | (Raise e, s') => if credentials_error e then handler e s' else (Raise e, s')
    | other => other
    end.

(** Create a boto3 Session tied to your CLI profile and region. *)
Definition make_session (boto3 : Boto3) (profile region : string) : P Session :=
  try_except_credentials
    (pbind (record_step (ESession profile region)) (fun _ =>
      match new_session boto3 profile region with
      | Ok sess => pret sess
      | Raises e => praise e
      end))
    (fun e => pbind (say (MsgCredentialsError e)) (fun _ => pexit 1)).

Definition dq : string := String "034" EmptyString.
Definition nl : string := String "010" EmptyString.

(** One table row of the report; [float_repr] is Python's text of a
    float. *)
Definition report_row (float_repr : Q -> string) (img : string) (lab : Label) : string :=
  "<tr><td>" +:+ img +:+ "</td><td>" +:+ name lab +:+ "</td><td>"
  +:+ float_repr (confidence lab) +:+ "</td><td>" +:+ Py.join ", " (parents lab)
  +:+ "</td></tr>".

Definition report_rows (float_repr : Q -> string) (data : list LabelResult) : list string :=
  flat_map (fun item => map (report_row float_repr (image item)) (labels item)) data.

Definition report_page (source : string) (rows : list string) : string :=
  String.concat nl
    [ "<!doctype html>";
      "<html><head><meta charset=" +:+ dq +:+ "utf-8" +:+ dq
        +:+ "><title>Rekognition Labels Report</title>";
      "<style>";
      "body { font-family: system-ui, -apple-system, Segoe UI, Roboto, Arial; padding:20px }";
      "table { border-collapse: collapse; width: 100% }";
      "th, td { border: 1px solid #ddd; padding: 8px; }";
      "th { background: #f2f2f2; text-align:left }";
      "code { background:#f6f8fa; padding:2px 4px; border-radius:4px }";
      "</style></head>";
      "<body>";
      "<h1>Amazon Rekognition Labels Report</h1>";
      "<p>Generated from <code>" +:+ source +:+ "</code></p>";
      "<table>";
      "  <thead><tr><th>Image</th><th>Label</th><th>Confidence</th><th>Parents</th></tr></thead>";
      "  <tbody>" +:+ String.concat "" rows +:+ "</tbody>";
      "</table>";
      "</body></html>" ].

(** Generate a simple HTML report from the JSON results. *)
Definition generate_html_report (float_repr : Q -> string) (json_path out_html : string)
    : P string :=
  pbind (lift (f <- open_r json_path ;; json_load f)) (fun data =>
  let rows := report_rows float_repr data in
  let html := report_page (basename json_path) rows in
  pbind (lift (makedirs (dirname out_html))) (fun _ =>
  pbind (lift (f <- open_w out_html ;; write f html)) (fun _ =>
  pbind (say (MsgSavedHtml out_html)) (fun _ =>
  pret out_html)))).

(** The rest of [main] once the session is there. *)
Definition run_pipeline (os : OsEnv) (float_repr : Q -> string) (a : Args.t)
    (sess : Session) : P unit :=
  let s3c := client_s3 sess in
  let rekog := client_rekognition sess in
  pbind (lift (ensure_bucket s3c (Args.bucket a) (Args.region a))) (fun _ =>
  pbind (if String.eqb (Args.local_folder a) "" then pret tt
         else pbind (lift (upload_folder_to_s3 os s3c (Args.local_folder a)
                             (Args.bucket a) (Args.prefix a)))
                    (fun _ => pret tt)) (fun _ =>
  pbind (lift (list_s3_images s3c (Args.bucket a) (Args.prefix a))) (fun keys =>
  pbind (lift (bulk_detect_and_save rekog (Args.bucket a) keys "out"
                 (Args.max_labels a) (Args.min_confidence a))) (fun paths =>
  pbind (generate_html_report float_repr paths.1 "out/report.html") (fun _ =>
  say MsgDone))))).

Definition main (boto3 : Boto3) (os : OsEnv) (float_repr : Q -> string) (a : Args.t)
    : P unit :=
  pbind (make_session boto3 (Args.profile a) (Args.region a))
        (run_pipeline os float_repr a).

(** Projections of the log. *)
Definition core_event (st : step) : option event :=
  match st with
  | Core e => Some e
  | _ => None
  end.

Definition is_remote_call (e : event) : bool :=
  match e with
  | ECreateBucket _ _ | EUpload _ _ _ | EListObjects _ _ | EDetect _ _ _ _ => true
  | _ => false
  end.

Definition remote_calls (steps : list step) : list event :=
  List.filter is_remote_call (omap core_event steps).

Definition new_steps (before after : site) : list step :=
  drop (length (log before)) (log after).

Definition site0 : site := {| base := w0; log := [] |}.

(** A stand-in for Python's text of a float, right on the hundredths the
    examples use. *)
Definition repr_demo (x : Q) : string :=
  if Qeq_bool x (9342 # 100) then "93.42"
  else if Qeq_bool x (8850 # 100) then "88.5"
  else "0.0".

Definition demo_args : Args.t :=
  {| Args.profile := "rekog-lab"; Args.region := "us-east-1"; Args.bucket := "bucket";
     Args.local_folder := "/srv/images"; Args.prefix := "images/";
     Args.max_labels := 10; Args.min_confidence := 70 |}.

(** An object store that takes every upload and then lists what the demo
    folder holds under the prefix. *)
Definition s3_demo : S3Client :=
  {| create_bucket := fun _ _ => Ok tt;
     upload_file := fun _ _ _ => Ok tt;
     paginate_list_objects_v2 := fun _ _ =>
       Ok [ {| Contents := Some [ {| Key := "images/a.jpg" |};
                                  {| Key := "images/b.jpg" |};
                                  {| Key := "images/c.jpg" |} ] |} ] |}.

Definition boto3_demo : Boto3 :=
  {| new_session := fun _ _ =>
       Ok {| client_s3 := s3_demo; client_rekognition := rekog_demo |} |}.

Definition boto3_empty_bucket : Boto3 :=
  {| new_session := fun _ _ =>
       Ok {| client_s3 := s3_ok; client_rekognition := rekog_demo |} |}.

Definition boto3_refused (code : string) : Boto3 :=
  {| new_session := fun _ _ =>
       Ok {| client_s3 := s3_refusing code; client_rekognition := rekog_demo |} |}.

Definition boto3_no_profile : Boto3 :=
  {| new_session := fun _ _ => Raises (OtherException "ProfileNotFound") |}.

(** A stage of a whole run that writes no file and logs only steps that
    satisfy [Q]. *)
Definition quiet {A} (Q : step -> bool) (m : P A) : Prop :=
  forall s,
    dirs (base (m s).2) = dirs (base s)
    /\ files (base (m s).2) = files (base s)
    /\ exists steps, log (m s).2 = log s ++ steps /\ forallb Q steps = true.

(** A stage that only appends to the log, and only steps that satisfy [Q]. *)
Definition logs_only {A} (Q : step -> bool) (m : P A) : Prop :=
  forall s, exists steps, log (m s).2 = log s ++ steps /\ forallb Q steps = true.

(** A stage that never returns: it exits or raises. *)
Definition never_returns {A} (m : P A) : Prop :=
  forall s a, (m s).1 <> Ret a.

Definition not_detect (st : step) : bool :=
  match st with
  | Core e => negb (is_detect e)
  | _ => true
  end.

Definition not_upload (st : step) : bool :=
  match st with
  | Core e => negb (is_upload e)
  | _ => true
  end.

(** ** Examples of the library functions *)

Example splitext_photo : Py.splitext "a.b/Photo.JPG" = ("a.b/Photo", ".JPG").
Proof. reflexivity. Qed.

Example splitext_hidden : Py.splitext "dir/.bashrc" = ("dir/.bashrc", "").
Proof. reflexivity. Qed.

Example splitext_nodot : Py.splitext "a.b/README" = ("a.b/README", "").
Proof. reflexivity. Qed.

Example relpath_nested :
  Py.relpath "/home/u/images/cats/a.jpg" "/home/u/images" = "cats/a.jpg".
Proof. reflexivity. Qed.

Example join_parents : Py.join ";" ["Animal"; "Mammal"; "Pet"] = "Animal;Mammal;Pet".
Proof. reflexivity. Qed.

Example round2_down : Py.round2 (9342499 # 100000) = 9342 # 100.
Proof. reflexivity. Qed.

Example round2_tie_even : Py.round2 (125 # 1000) = 12 # 100.
Proof. reflexivity. Qed.


(** ** Strings and paths *)

Lemma append_inj_r (a b c : string) : a +:+ b = a +:+ c -> b = c.
Proof.
  induction a as [|x a IH]; [done|].
  change (String x (a +:+ b) = String x (a +:+ c) -> b = c).
  intros H. injection H as H. by apply IH.
Qed.

Lemma append_assoc (a b c : string) : (a +:+ b) +:+ c = a +:+ (b +:+ c).
Proof.
  induction a as [|x a IH]; [done|].
  change (String x ((a +:+ b) +:+ c) = String x (a +:+ (b +:+ c))).
  by rewrite IH.
Qed.

Lemma append_nil_r (a : string) : a +:+ "" = a.
Proof.
  induction a as [|x a IH]; [done|].
  change (String x (a +:+ "") = String x a). by rewrite IH.
Qed.

Lemma length_append (a b : string) :
  String.length (a +:+ b) = (String.length a + String.length b)%nat.
Proof.
  induction a as [|x a IH]; [done|].
  change (S (String.length (a +:+ b)) = S (String.length a + String.length b)).
  by rewrite IH.
Qed.

Lemma join_cons (sep p : string) (ps : list string) :
  Py.join sep (p :: ps) = p +:+ sep_each sep ps.
Proof.
  unfold Py.join. revert p. induction ps as [|q ps IH]; intros p.
  - simpl. symmetry. apply append_nil_r.
  - change (p +:+ sep +:+ String.concat sep (q :: ps) = p +:+ sep +:+ q +:+ sep_each sep ps).
    by rewrite IH.
Qed.

Lemma length_join (sep : string) (ps : list string) :
  String.length (Py.join sep ps)
  = (sum_list (map String.length ps) + String.length sep * (length ps - 1))%nat.
Proof.
  destruct ps as [|p ps]; [simpl; lia|].
  rewrite join_cons, length_append.
  assert (Hrest : String.length (sep_each sep ps)
                  = (sum_list (map String.length ps) + String.length sep * length ps)%nat).
  { induction ps as [|q ps IH]; [simpl; lia|].
    change (sep_each sep (q :: ps)) with (sep +:+ q +:+ sep_each sep ps).
    rewrite !length_append, IH. simpl. lia. }
  rewrite Hrest. simpl. rewrite Nat.sub_0_r. lia.
Qed.

Lemma image_uri_inj (bucket k1 k2 : string) :
  image_uri bucket k1 = image_uri bucket k2 -> k1 = k2.
Proof.
  unfold image_uri. intros H.
  do 3 apply append_inj_r in H. exact H.
Qed.

Lemma output_paths_differ (out_dir : string) :
  Py.path_join out_dir "labels.json" <> Py.path_join out_dir "labels.csv".
Proof.
  unfold Py.path_join. simpl Py.startswith. cbv iota.
  destruct (String.eqb out_dir "" || Py.endswith "/" out_dir)%bool;
    intros H; repeat apply append_inj_r in H; discriminate H.
Qed.

(** ** Parts of paths *)

Lemma startswith_append (c : ascii) (x y : string) :
  x <> "" -> Py.startswith c (x +:+ y) = Py.startswith c x.
Proof. by destruct x. Qed.

Lemma split_nonempty (c : ascii) (s : string) : Py.split c s <> [].
Proof.
  destruct s as [|a s]; simpl; [done|].
  destruct (Ascii.eqb a c); [done|]. by destruct (Py.split c s).
Qed.

Lemma split_append_sep (c : ascii) (a b : string) :
  Py.split c (a +:+ String c b) = Py.split c a ++ Py.split c b.
Proof.
  induction a as [|x a IH].
  - change (Py.split c (String c b) = [EmptyString] ++ Py.split c b).
    simpl. by rewrite Ascii.eqb_refl.
  - change (Py.split c (String x (a +:+ String c b))
            = Py.split c (String x a) ++ Py.split c b).
    simpl. destruct (Ascii.eqb x c); rewrite IH; [done|].
    pose proof (split_nonempty c a). by destruct (Py.split c a).
Qed.

Lemma split_without_sep (c : ascii) (s : string) :
  has_char c s = false -> Py.split c s = [s].
Proof.
  unfold has_char. induction s as [|a s IH]; simpl; [done|].
  rewrite (Ascii.eqb_sym c a). destruct (Ascii.eqb a c); [done|].
  simpl. intros Hs. by rewrite IH.
Qed.

Lemma endswith_append (c : ascii) (a : string) :
  Py.endswith c a = true -> exists r, a = r +:+ String c "".
Proof.
  induction a as [|x a IH]; [done|].
  destruct a as [|y a].
  - simpl. intros Hx. apply Ascii.eqb_eq in Hx as ->. by exists "".
  - intros Ha. destruct (IH Ha) as [r ->]. by exists (String x r).
Qed.

Lemma entry_name_spec (x : string) :
  entry_name x = true ->
  x <> "" /\ has_char "/" x = false /\ Py.startswith "/" x = false.
Proof.
  unfold entry_name. intros [Hne Hsl]%andb_true_iff.
  apply negb_true_iff in Hne, Hsl.
  split; [by intros ->|]. split; [done|].
  destruct x as [|a x]; [done|]. unfold has_char in Hsl. simpl in *.
  apply orb_false_iff in Hsl as [Ha _]. by rewrite Ascii.eqb_sym.
Qed.

Section Components.

(** The components of a path, as [relpath] takes them. *)
Local Abbreviation comps p :=
  (List.filter (fun x : string => negb (String.eqb x "")) (Py.split "/" p)).

Lemma comps_name (x : string) : entry_name x = true -> comps x = [x].
Proof.
  intros (Hne & Hsl & _)%entry_name_spec. rewrite split_without_sep by done.
  simpl. by destruct (String.eqb_spec x "").
Qed.

Lemma comps_path_join (a x : string) :
  entry_name x = true -> comps (Py.path_join a x) = comps a ++ [x].
Proof.
  intros Hx. pose proof (comps_name x Hx) as Hcx.
  destruct (entry_name_spec x Hx) as (_ & _ & Hstart).
  unfold Py.path_join. rewrite Hstart.
  destruct (String.eqb_spec a "") as [->|Ha]; simpl orb; cbv iota.
  - change ("" +:+ x) with x. by rewrite Hcx.
  - destruct (Py.endswith "/" a) eqn:Hend.
    + destruct (endswith_append _ _ Hend) as [r ->].
      rewrite append_assoc. change (String "/" "" +:+ x) with (String "/" x).
      rewrite !split_append_sep, !List.filter_app, Hcx. simpl. by rewrite app_nil_r.
    + change ("/" +:+ x) with (String "/" x).
      by rewrite split_append_sep, List.filter_app, Hcx.
Qed.

Lemma comps_fold_path_join (names : list string) :
  forall top, forallb entry_name names = true ->
              comps (fold_left Py.path_join names top) = comps top ++ names.
Proof.
  induction names as [|d names IH]; intros top Hnames; simpl.
  - by rewrite app_nil_r.
  - apply andb_true_iff in Hnames as [Hd Hnames].
    rewrite IH, comps_path_join, <- app_assoc by done. done.
Qed.

Lemma commonprefix_len_app (l rest : list string) :
  Py.commonprefix_len l (l ++ rest) = length l.
Proof.
  induction l as [|x l IH]; simpl; [by destruct rest|].
  by rewrite String.eqb_refl, IH.
Qed.

(** The relative path of a path below [start]. *)
Lemma relpath_below (path start : string) (rest : list string) :
  comps path = comps start ++ rest -> rest <> [] ->
  Py.relpath path start = Py.join "/" rest.
Proof.
  intros Hpath Hrest. unfold Py.relpath. cbv zeta.
  rewrite Hpath, commonprefix_len_app, Nat.sub_diag, drop_app_length. simpl.
  by destruct rest.
Qed.

End Components.

Lemma endswith_append_r (c : ascii) (a d : string) :
  d <> "" -> Py.endswith c (a +:+ d) = Py.endswith c d.
Proof.
  intros Hd. induction a as [|x a IH]; [done|].
  change (Py.endswith c (String x (a +:+ d)) = Py.endswith c d).
  rewrite <- IH. simpl. destruct (a +:+ d) eqn:Had; [|done].
  destruct a; [by subst|discriminate Had].
Qed.

Lemma endswith_has_char (c : ascii) (d : string) :
  Py.endswith c d = true -> has_char c d = true.
Proof.
  unfold has_char. induction d as [|x d IH]; [done|].
  simpl. destruct d as [|y d].
  - intros Hx. apply Ascii.eqb_eq in Hx as ->. by rewrite Ascii.eqb_refl.
  - intros Hd. rewrite (IH Hd). apply orb_true_r.
Qed.

Lemma append_eqb_empty (a d : string) : d <> "" -> String.eqb (a +:+ d) "" = false.
Proof. intros Hd. destruct a; [by destruct d|done]. Qed.
(** ** The walk of a path *)

Lemma parts_path_join (a x : string) :
  entry_name x = true -> Fs.parts (Py.path_join a x) = Fs.parts a ++ [x].
Proof. apply comps_path_join. Qed.

Lemma startswith_path_join (a x : string) :
  entry_name x = true -> Py.startswith "/" (Py.path_join a x) = Py.startswith "/" a.
Proof.
  intros (Hne & Hsl & Hstart)%entry_name_spec. unfold Py.path_join. rewrite Hstart.
  destruct (String.eqb_spec a "") as [->|Ha]; simpl orb; cbv iota; [done|].
  destruct (Py.endswith "/" a); by rewrite startswith_append.
Qed.

Lemma through_app (a : bool) (cs1 cs2 : list string) :
  forall names,
    Fs.through a names (cs1 ++ cs2)
    = Fs.through a names cs1 ++ Fs.through a (fold_left (Fs.enter a) cs1 names) cs2.
Proof.
  induction cs1 as [|c cs1 IH]; intros names; simpl; [done|].
  by rewrite IH, app_assoc.
Qed.

Lemma enter_name (a : bool) (names : list string) (c : string) :
  Fs.is_name c = true -> Fs.enter a names c = names ++ [c].
Proof.
  unfold Fs.is_name, Fs.enter.
  by destruct (String.eqb c "."), (String.eqb c "..").
Qed.

Section OutputPaths.
Variables (d f : string).
Hypothesis (Hentry : entry_name f = true) (Hname : Fs.is_name f = true).

Lemma locate_path_join :
  Fs.locate (Py.path_join d f) = ((Fs.locate d).1, (Fs.locate d).2 ++ [f]).
Proof.
  unfold Fs.locate. cbn [fst snd].
  rewrite startswith_path_join, parts_path_join, fold_left_app by done.
  simpl. by rewrite enter_name.
Qed.

Lemma on_the_way_path_join :
  Fs.on_the_way (Py.path_join d f) = Fs.on_the_way d ++ [Fs.locate (Py.path_join d f)].
Proof.
  rewrite locate_path_join. unfold Fs.on_the_way, Fs.locate. cbn [fst snd].
  rewrite startswith_path_join, parts_path_join, through_app by done.
  simpl. by rewrite Hname, enter_name.
Qed.

Lemma ends_in_name_path_join : Fs.ends_in_name (Py.path_join d f) = true.
Proof. unfold Fs.ends_in_name. by rewrite parts_path_join, last_snoc. Qed.

Lemma leading_to_path_join : Fs.leading_to (Py.path_join d f) = Fs.on_the_way d.
Proof.
  unfold Fs.leading_to.
  by rewrite ends_in_name_path_join, on_the_way_path_join, removelast_last.
Qed.

Lemma endswith_path_join : Py.endswith "/" (Py.path_join d f) = false.
Proof.
  destruct (entry_name_spec f Hentry) as (Hne & Hsl & Hstart).
  assert (Hf : Py.endswith "/" f = false).
  { destruct (Py.endswith "/" f) eqn:Hend; [|done].
    apply endswith_has_char in Hend. congruence. }
  unfold Py.path_join. rewrite Hstart.
  destruct (String.eqb d "" || Py.endswith "/" d)%bool.
  - by rewrite endswith_append_r.
  - rewrite endswith_append_r by done. by rewrite (endswith_append_r _ "/" f).
Qed.

Lemma path_join_not_empty : String.eqb (Py.path_join d f) "" = false.
Proof.
  destruct (entry_name_spec f Hentry) as (Hne & Hsl & Hstart).
  unfold Py.path_join. rewrite Hstart.
  destruct (String.eqb d "" || Py.endswith "/" d)%bool.
  - by apply append_eqb_empty.
  - apply append_eqb_empty. done.
Qed.

End OutputPaths.

Lemma has_char_append (c : ascii) (a b : string) :
  has_char c (a +:+ b) = has_char c a || has_char c b.
Proof.
  unfold has_char. induction a as [|x a IH]; [done|].
  change (Ascii.eqb c x || existsb (Ascii.eqb c) (list_ascii_of_string (a +:+ b))
          = Ascii.eqb c x || existsb (Ascii.eqb c) (list_ascii_of_string a)
            || existsb (Ascii.eqb c) (list_ascii_of_string b)).
  by rewrite IH, orb_assoc.
Qed.

Lemma has_char_split (c : ascii) (s : string) :
  Ascii.eqb c "/" = false ->
  has_char c s = existsb (has_char c) (Py.split "/" s).
Proof.
  intros Hc. induction s as [|a s IH]; [done|].
  change (has_char c (String a s)) with (Ascii.eqb c a || has_char c s).
  simpl Py.split. destruct (Ascii.eqb a "/") eqn:Ha.
  - apply Ascii.eqb_eq in Ha as ->. rewrite Hc. simpl. exact IH.
  - pose proof (split_nonempty "/" s) as Hne.
    destruct (Py.split "/" s) as [|x xs]; [done|].
    rewrite IH. simpl. apply orb_assoc.
Qed.

Lemma has_char_parts (c : ascii) (s : string) :
  Ascii.eqb c "/" = false ->
  Forall (fun x => has_char c x = false) (Fs.parts s) -> has_char c s = false.
Proof.
  intros Hc Hparts. rewrite has_char_split by done. unfold Fs.parts in Hparts.
  induction (Py.split "/" s) as [|x xs IH]; [done|].
  simpl in *. destruct (String.eqb_spec x "") as [->|Hx]; simpl in Hparts.
  - by apply IH.
  - apply Forall_cons in Hparts as [-> Hxs]. by apply IH.
Qed.

Lemma has_char_path_join (c : ascii) (d f : string) :
  Ascii.eqb c "/" = false -> has_char c d = false -> has_char c f = false ->
  has_char c (Py.path_join d f) = false.
Proof.
  intros Hc Hd Hf. unfold Py.path_join.
  destruct (Py.startswith "/" f); [done|].
  destruct (String.eqb d "" || Py.endswith "/" d)%bool;
    rewrite !has_char_append, Hd, Hf; [done|].
  unfold has_char. simpl. by rewrite Hc.
Qed.

Lemma prefix_snoc {A} (l pre : list A) (x : A) :
  pre `prefix_of` l ++ [x] -> pre = l ++ [x] \/ pre `prefix_of` l.
Proof.
  intros [k Hk]. destruct k as [|y k _] using rev_ind.
  - left. by rewrite app_nil_r in Hk.
  - right. rewrite app_assoc in Hk. apply app_inj_tail in Hk as [-> _].
    by exists k.
Qed.

(** ** Directories and files *)

Lemma is_dir_ext (w w' : world) (l : place) :
  dirs w = dirs w' -> is_dir w l = is_dir w' l.
Proof. unfold is_dir. by intros ->. Qed.

Lemma is_dir_elem (w : world) (l : place) : l ∈ dirs w -> is_dir w l = true.
Proof.
  intros Hl. unfold is_dir. destruct (last l.2); [|done].
  rewrite bool_decide_eq_true_2 by done. apply orb_true_r.
Qed.

Lemma is_dir_mono (w w' : world) (l : place) :
  dirs w ⊆ dirs w' -> is_dir w l = true -> is_dir w' l = true.
Proof.
  unfold is_dir. intros Hsub. destruct (last l.2); [|done].
  intros [Htop|Hl%bool_decide_eq_true]%orb_true_iff.
  - by rewrite Htop.
  - rewrite (bool_decide_eq_true_2 (l ∈ dirs w')) by set_solver. apply orb_true_r.
Qed.

(** The place of a file is a directory only if it was made one. *)
Lemma is_dir_named (w : world) (a : bool) (names : list string) (f : string) :
  Fs.is_name f = true ->
  is_dir w (a, names ++ [f]) = bool_decide ((a, names ++ [f]) ∈ dirs w).
Proof.
  intros Hf. unfold is_dir. cbn [snd]. rewrite last_snoc.
  unfold Fs.is_name in Hf. by destruct (String.eqb f "."), (String.eqb f "..").
Qed.

Lemma blocked_none (w : world) (ds : list place) :
  Forall (fun d => is_dir w d = true) ds -> blocked w ds = None.
Proof.
  unfold blocked. induction 1 as [|d ds Hd Hds IH]; [done|].
  simpl. by rewrite Hd.
Qed.

(** ** [os.makedirs] *)

Lemma makedirs_from_file (a : bool) (cs names : list string) (w : world) :
  is_file w (a, names) = true -> forall v, (makedirs_from a names cs w).1 <> Ret v.
Proof.
  intros Hfile v. destruct cs as [|c cs]; simpl; rewrite ?Hfile; [done|].
  by destruct (has_char "000" c).
Qed.

(** Whatever its outcome, [os.makedirs] leaves the files and the trace as
    they are and removes no directory; the directories it makes are on the
    way of the path. *)
Lemma makedirs_from_frame (a : bool) (cs : list string) :
  forall (names : list string) (w : world),
    let r := makedirs_from a names cs w in
    files r.2 = files w /\ trace r.2 = trace w /\ dirs w ⊆ dirs r.2
    /\ (forall d, d ∈ dirs r.2 -> d ∈ dirs w \/ d ∈ Fs.through a names cs)
    /\ (forall c, r.1 <> Exit c).
Proof.
  assert (Hsame : forall (o : outcome unit) (w : world) (ds : list place),
             (forall c, o <> Exit c) ->
             files (o, w).2 = files w /\ trace (o, w).2 = trace w
             /\ dirs w ⊆ dirs (o, w).2
             /\ (forall d, d ∈ dirs (o, w).2 -> d ∈ dirs w \/ d ∈ ds)
             /\ (forall c, (o, w).1 <> Exit c)).
  { intros o w ds Ho. simpl. split; [done|]. split; [done|]. split; [done|].
    split; [by left|done]. }
  induction cs as [|c cs IH]; intros names w; simpl.
  - destruct (is_file w (a, names)); by apply Hsame.
  - destruct (has_char "000" c); [by apply Hsame|].
    destruct (is_file w (a, names)); [by apply Hsame|].
    match goal with
    | |- context [makedirs_from a ?n cs ?w1] =>
        destruct (IH n w1) as (Hf & Ht & Hd & Hnew & Hexit)
    end.
    destruct (Fs.is_name c && negb (is_file w (a, Fs.enter a names c))) eqn:Hmade;
      cbn [dirs files trace] in *.
    + apply andb_true_iff in Hmade as [-> _].
      split; [done|]. split; [done|]. split; [|split; [|done]].
      * intros d Hin. by apply Hd, elem_of_union_r.
      * intros d Hin. rewrite elem_of_app, list_elem_of_singleton.
        destruct (Hnew d Hin) as [Hd'|Hd']; [|by auto].
        apply elem_of_union in Hd' as [->%elem_of_singleton|Hd']; by auto.
    + split; [done|]. split; [done|]. split; [done|]. split; [|done].
      intros d Hin. rewrite elem_of_app.
      destruct (Hnew d Hin) as [Hd'|Hd']; by auto.
Qed.

(** When [os.makedirs] returns, every place on the way of the path is a
    directory, no part of the path has a NUL character, and the place the
    path leads to is a directory. *)
Lemma makedirs_from_ret (a : bool) (cs : list string) :
  forall (names : list string) (w w1 : world),
    makedirs_from a names cs w = (Ret tt, w1) ->
    (forall pre, pre `prefix_of` names -> is_dir w (a, pre) = true) ->
    dirs w1 = dirs w ∪ list_to_set (Fs.through a names cs)
    /\ Forall (fun c => has_char "000" c = false) cs
    /\ (forall pre, pre `prefix_of` fold_left (Fs.enter a) cs names ->
                    is_dir w1 (a, pre) = true).
Proof.
  induction cs as [|c cs IH]; intros names w w1; simpl.
  - destruct (is_file w (a, names)); [done|]. intros [= <-] Hinv.
    split; [simpl; by rewrite (right_id_L ∅ (∪))|]. by split.
  - destruct (has_char "000" c) eqn:Hnul; [done|].
    destruct (is_file w (a, names)) eqn:Hhere; [done|].
    intros Hrun Hinv.
    destruct (Fs.is_name c) eqn:Hc; cbn [andb] in Hrun.
    + rewrite enter_name in * by done.
      destruct (is_file w (a, names ++ [c])) eqn:Hthere; cbn [negb] in Hrun.
      { exfalso. eapply (makedirs_from_file a cs _ _ Hthere). by rewrite Hrun. }
      apply IH in Hrun as (Hdirs & Hparts & Hfinal).
      * cbn [dirs] in Hdirs. split; [|split; [by constructor|done]].
        rewrite Hdirs. cbn [app]. rewrite list_to_set_cons.
        by rewrite (assoc_L (∪)), (comm_L (∪) (dirs w)).
      * intros pre [->|Hpre]%prefix_snoc.
        -- apply is_dir_elem. cbn [dirs]. by apply elem_of_union_l, elem_of_singleton.
        -- eapply is_dir_mono; [|by apply Hinv]. cbn [dirs]. apply union_subseteq_r.
    + apply IH in Hrun as (Hdirs & Hparts & Hfinal).
      * split; [by rewrite Hdirs|]. split; [by constructor|done].
      * intros pre Hpre. unfold Fs.enter in Hpre. unfold Fs.is_name in Hc.
        destruct (String.eqb c ".") eqn:Hdot; [by apply Hinv|].
        destruct (String.eqb c "..") eqn:Hup; [|discriminate Hc].
        destruct (last names) as [top|] eqn:Hlast.
        -- destruct (String.eqb_spec top "..") as [->|Htop].
           ++ apply prefix_snoc in Hpre as [->|Hpre]; [|by apply Hinv].
              unfold is_dir. cbn [snd]. by rewrite last_snoc.
           ++ apply Hinv. etrans; [exact Hpre|].
              exists [top]. symmetry. apply last_Some in Hlast as [l' ->].
              by rewrite removelast_last.
        -- destruct a.
           ++ apply prefix_nil_inv in Hpre as ->. done.
           ++ apply (prefix_snoc []) in Hpre as [->|Hpre]; [done|].
              by apply prefix_nil_inv in Hpre as ->.
Qed.

Lemma makedirs_frame (name : string) (w : world) :
  let r := makedirs name w in
  files r.2 = files w /\ trace r.2 = trace w /\ dirs w ⊆ dirs r.2
  /\ (forall d, d ∈ dirs r.2 -> d ∈ dirs w \/ d ∈ Fs.on_the_way name)
  /\ (forall c, r.1 <> Exit c).
Proof.
  unfold makedirs. destruct (String.eqb name "").
  - simpl. split; [done|]. split; [done|]. split; [done|]. split; [by left|done].
  - apply makedirs_from_frame.
Qed.

Lemma makedirs_ret (name : string) (w w1 : world) :
  makedirs name w = (Ret tt, w1) ->
  name <> ""
  /\ dirs w1 = dirs w ∪ list_to_set (Fs.on_the_way name)
  /\ has_char "000" name = false
  /\ is_dir w1 (Fs.locate name) = true.
Proof.
  unfold makedirs. destruct (String.eqb_spec name "") as [->|Hname]; [done|].
  intros Hrun. apply makedirs_from_ret in Hrun as (Hdirs & Hparts & Hfinal).
  - split; [done|]. split; [done|]. split; [by apply has_char_parts|].
    by apply Hfinal.
  - by intros pre ->%prefix_nil_inv.
Qed.

(** Once the output directory is made, a file of a plain name in it can be
    opened for writing unless its place is a directory. *)
Lemma open_w_error_in_made_dir (d f : string) (w w1 w' : world) :
  makedirs d w = (Ret tt, w1) -> dirs w' = dirs w1 ->
  entry_name f = true -> Fs.is_name f = true -> has_char "000" f = false ->
  open_w_error w' (Py.path_join d f)
  = if is_dir w' (Fs.locate (Py.path_join d f)) then Some IsADirectoryError else None.
Proof.
  intros (Hd & Hdirs & Hnul & _)%makedirs_ret Hsame Hentry Hname Hf.
  unfold open_w_error.
  rewrite has_char_path_join, path_join_not_empty, leading_to_path_join,
    ends_in_name_path_join, endswith_path_join by done.
  rewrite blocked_none; [done|].
  apply Forall_forall. intros l Hl. apply is_dir_elem.
  rewrite Hsame, Hdirs. by apply elem_of_union_r, elem_of_list_to_set.
Qed.

Lemma output_places_differ (out_dir : string) :
  Fs.locate (Py.path_join out_dir "labels.json")
  <> Fs.locate (Py.path_join out_dir "labels.csv").
Proof.
  rewrite !locate_path_join by done. intros [= H%app_inj_tail]. by destruct H.
Qed.

(** ** The batch loop, step by step *)

Section BatchRunner.
Variables (rekog_client : RekogClient) (bucket : string) (fcsv : place).
Variables (max_labels : Z) (min_conf : Q).

Local Abbreviation answer key :=
  (detect_labels rekog_client bucket key max_labels min_conf).
Local Abbreviation detected' := (detected rekog_client bucket max_labels min_conf).
Local Abbreviation successes' := (successes rekog_client bucket max_labels min_conf).
Local Abbreviation loop := (detect_loop rekog_client bucket fcsv max_labels min_conf).
Local Abbreviation events := (loop_events rekog_client bucket max_labels min_conf).

Lemma writerows_run (res : LabelResult) (labs : list Label) (rows : list (list cell))
    (w : world) :
  files w !! fcsv = Some (CsvDoc rows) ->
  for_each labs (fun _ lab => writerow fcsv (csv_row res lab)) tt w
  = (Ret tt, {| dirs := dirs w;
                files := <[fcsv := CsvDoc (rows ++ map (csv_row res) labs)]> (files w);
                trace := trace w |}).
Proof.
  revert rows w. induction labs as [|lab labs IH]; intros rows w Hcsv.
  - simpl. unfold ret. rewrite app_nil_r, insert_id by done. by destruct w.
  - simpl for_each. unfold bind at 1. unfold writerow at 1. rewrite Hcsv.
    erewrite IH by (simpl; apply lookup_insert_eq).
    simpl. rewrite insert_insert_eq, <- app_assoc. done.
Qed.

(** One iteration on a key whose call succeeds. *)
Lemma detect_loop_ok (n i : nat) (key : string) (rest : list string)
    (results : list LabelResult) (rows : list (list cell)) (w : world)
    (resp : DetectResponse) (res : LabelResult) :
  answer key = Ok resp ->
  detected' key = Some res ->
  files w !! fcsv = Some (CsvDoc rows) ->
  loop n i (key :: rest) results w
  = loop n (S i) rest (results ++ [res])
      {| dirs := dirs w;
         files := <[fcsv := CsvDoc (rows ++ result_rows res)]> (files w);
         trace := trace w ++ [EDetect bucket key max_labels min_conf;
                              EPrint (MsgLabeled i n key); ESleep 100] |}.
Proof.
  intros Hans Hdet Hcsv. simpl in *.
  unfold detected in Hdet. rewrite Hans in Hdet. injection Hdet as <-.
  unfold bind at 1, try_except_ClientError, bind at 1.
  unfold detect_labels_for_s3_object, bind at 1, remote, bind at 1.
  rewrite Hans. unfold emit at 1, ret at 1, ret at 1. cbv beta iota.
  unfold bind at 1.
  erewrite writerows_run by exact Hcsv.
  unfold bind, print, sleep, emit, ret. simpl.
  rewrite <- !app_assoc. reflexivity.
Qed.

(** One iteration on a key whose call fails with a remote-service error. *)
Lemma detect_loop_client_error (n i : nat) (key : string) (rest : list string)
    (results : list LabelResult) (w : world) (r : ErrorResponse) :
  answer key = Raises (ClientError r) ->
  loop n i (key :: rest) results w
  = loop n (S i) rest results
      {| dirs := dirs w; files := files w;
         trace := trace w ++ [EDetect bucket key max_labels min_conf;
                              EPrint (MsgRekogFailed key r)] |}.
Proof.
  intros Hans. simpl in *.
  unfold bind at 1, try_except_ClientError, bind at 1.
  unfold detect_labels_for_s3_object, bind at 1, remote, bind at 1.
  rewrite Hans. unfold emit at 1, raise. cbv beta iota.
  unfold bind, print, emit, ret. simpl.
  rewrite <- !app_assoc. reflexivity.
Qed.

(** One iteration on a key whose call raises anything else: the loop is
    left at once. *)
Lemma detect_loop_crash (n i : nat) (key : string) (rest : list string)
    (results : list LabelResult) (w : world) (what : string) :
  answer key = Raises (OtherException what) ->
  loop n i (key :: rest) results w
  = (Raise (OtherException what),
      {| dirs := dirs w; files := files w;
         trace := trace w ++ [EDetect bucket key max_labels min_conf] |}).
Proof.
  intros Hans. simpl in *.
  unfold bind at 1, try_except_ClientError, bind at 1.
  unfold detect_labels_for_s3_object, bind at 1, remote, bind at 1.
  rewrite Hans. unfold emit at 1, raise. reflexivity.
Qed.


Local Abbreviation reached' := (reached rekog_client bucket max_labels min_conf).
Local Abbreviation crash' := (crash rekog_client bucket max_labels min_conf).
Local Abbreviation recoverable' := (recoverable rekog_client bucket max_labels min_conf).

(** The loop on any keys: it goes as far as [reached], and ends with the
    records collected or with the exception it did not catch. *)
Lemma detect_loop_general (keys : list string) :
  forall (n i : nat) (results : list LabelResult) (rows : list (list cell)) (w : world),
    files w !! fcsv = Some (CsvDoc rows) ->
    loop n i keys results w
    = (match crash' keys with
       | None => Ret (results ++ successes' keys)
       | Some e => Raise e
       end,
        {| dirs := dirs w;
           files := <[fcsv := CsvDoc (rows ++ flat_map result_rows
                                                    (successes' (reached' keys)))]>
                      (files w);
           trace := trace w ++ events n i (reached' keys) |}).
Proof.
  induction keys as [|key rest IH]; intros n i results rows w Hcsv.
  - simpl. unfold ret. rewrite !app_nil_r, insert_id by done. by destruct w.
  - assert (Hsucc : forall l, successes' (key :: l)
                              = match answer key with
                                | Ok resp =>
                                    {| image := image_uri bucket key;
                                       labels := map normalize_label
                                                   (default [] (Labels resp)) |}
                                    :: successes' l
                                | Raises _ => successes' l
                                end).
    { intros l. unfold successes. simpl. unfold detected at 1.
      by destruct (answer key). }
    assert (Hcrash : crash' (key :: rest)
                     = match answer key with
                       | Raises (OtherException what) => Some (OtherException what)
                       | _ => crash' rest
                       end) by reflexivity.
    assert (Hreach : reached' (key :: rest)
                     = key :: (if recoverable' key then reached' rest else []))
      by reflexivity.
    assert (Hev : forall l, events n i (key :: l)
                            = key_events rekog_client bucket max_labels min_conf n i key
                              ++ events n (S i) l) by reflexivity.
    rewrite Hcrash, Hreach, Hev, Hsucc. unfold recoverable, key_events.
    destruct (answer key) as [resp|[r|what]] eqn:Hans.
    + erewrite detect_loop_ok;
        [|exact Hans|unfold detected; rewrite Hans; reflexivity|exact Hcsv].
      erewrite IH by (simpl; apply lookup_insert_eq).
      rewrite ?Hsucc. cbn [dirs files trace flat_map].
      rewrite insert_insert_eq, <- !app_assoc. reflexivity.
    + erewrite detect_loop_client_error by exact Hans.
      erewrite IH by exact Hcsv.
      rewrite ?Hsucc. cbn [dirs files trace].
      rewrite <- !app_assoc. reflexivity.
    + erewrite detect_loop_crash by exact Hans.
      rewrite ?Hsucc. unfold successes. cbn [omap list_omap flat_map loop_events].
      rewrite !app_nil_r, insert_id by done. reflexivity.
Qed.

End BatchRunner.

(** ** The batch runner as a whole *)

Section BatchOutputs.
Variables (rekog_client : RekogClient) (bucket : string).
Variables (max_labels : Z) (min_conf : Q).

Local Abbreviation answer key :=
  (detect_labels rekog_client bucket key max_labels min_conf).
Local Abbreviation detected' := (detected rekog_client bucket max_labels min_conf).
Local Abbreviation successes' := (successes rekog_client bucket max_labels min_conf).
Local Abbreviation recoverable' := (recoverable rekog_client bucket max_labels min_conf).
Local Abbreviation succeeded' := (succeeded rekog_client bucket max_labels min_conf).
Local Abbreviation reached' := (reached rekog_client bucket max_labels min_conf).
Local Abbreviation crash' := (crash rekog_client bucket max_labels min_conf).
Local Abbreviation events := (loop_events rekog_client bucket max_labels min_conf).
Local Abbreviation batch keys out_dir :=
  (bulk_detect_and_save rekog_client bucket keys out_dir max_labels min_conf).

Lemma detected_spec (key : string) (res : LabelResult) :
  detected' key = Some res <->
  exists resp, answer key = Ok resp
               /\ res = {| image := image_uri bucket key;
                           labels := map normalize_label (default [] (Labels resp)) |}.
Proof.
  unfold detected. destruct (answer key) as [resp|e]; split.
  - intros [= <-]. by exists resp.
  - intros (resp' & [= <-] & ->). done.
  - done.
  - intros (resp' & [=] & _).
Qed.

Lemma elem_of_successes (keys : list string) (res : LabelResult) :
  res ∈ successes' keys <-> exists key, key ∈ keys /\ detected' key = Some res.
Proof. unfold successes. apply list_elem_of_omap. Qed.

Lemma successes_images (keys : list string) :
  map image (successes' keys)
  = map (image_uri bucket) (List.filter succeeded' keys).
Proof.
  induction keys as [|key keys IH]; [done|].
  unfold successes in *. simpl. unfold detected at 1, succeeded at 1.
  destruct (answer key); simpl; [f_equal|]; exact IH.
Qed.

Lemma elem_of_result_rows (results : list LabelResult) (row : list cell) :
  row ∈ flat_map result_rows results <->
  exists res lab, res ∈ results /\ lab ∈ labels res /\ row = csv_row res lab.
Proof.
  rewrite list_elem_of_In, in_flat_map. split.
  - intros (res & Hres & Hrow). unfold result_rows in Hrow.
    apply in_map_iff in Hrow as (lab & <- & Hlab).
    exists res, lab. by rewrite !list_elem_of_In.
  - intros (res & lab & Hres & Hlab & ->). exists res.
    rewrite <- list_elem_of_In. split; [done|].
    unfold result_rows. apply in_map_iff. exists lab.
    by rewrite <- list_elem_of_In.
Qed.

Lemma result_rows_images (results : list LabelResult) :
  omap head (flat_map result_rows results)
  = flat_map (fun res => replicate (length (labels res)) (CStr (image res))) results.
Proof.
  induction results as [|res results IH]; [done|].
  simpl. rewrite omap_app, IH. f_equal.
  unfold result_rows. induction (labels res) as [|lab labs IHl]; [done|].
  simpl. f_equal. exact IHl.
Qed.

Lemma length_result_rows (results : list LabelResult) :
  length (flat_map result_rows results)
  = sum_list (map (fun res => length (labels res)) results).
Proof.
  induction results as [|res results IH]; [done|].
  simpl. rewrite length_app, IH. unfold result_rows. by rewrite length_map.
Qed.

Lemma loop_events_calls (n i : nat) (keys : list string) :
  omap detect_key (events n i keys) = keys.
Proof.
  revert i. induction keys as [|key keys IH]; intros i; [done|].
  simpl. unfold key_events. destruct (answer key) as [resp|[r|what]];
    simpl; by rewrite IH.
Qed.

(** The batch runner on any keys, from any world: it stops where the
    output directory cannot be made, where the CSV file cannot be opened,
    at the first call that raises what the loop does not catch, or where
    the JSON file cannot be opened; else it returns. *)
Lemma bulk_detect_and_save_general (keys : list string) (out_dir : string) (w : world) :
  let json_path := Py.path_join out_dir "labels.json" in
  let csv_path := Py.path_join out_dir "labels.csv" in
  let made := makedirs out_dir w in
  let rows := csv_header :: flat_map result_rows (successes' (reached' keys)) in
  let started := {| dirs := dirs made.2;
                    files := <[Fs.locate csv_path := CsvDoc rows]> (files w);
                    trace := trace w ++ events (length keys) 1%nat (reached' keys) |} in
  batch keys out_dir w
  = match made.1 with
    | Ret _ =>
        if is_dir made.2 (Fs.locate csv_path) then (Raise IsADirectoryError, made.2)
        else
          match crash' keys with
          | Some e => (Raise e, started)
          | None =>
              if is_dir made.2 (Fs.locate json_path)
              then (Raise IsADirectoryError, started)
              else (Ret (json_path, csv_path),
                    {| dirs := dirs made.2;
                       files := <[Fs.locate json_path := JsonDoc (successes' keys)]>
                                  (files started);
                       trace := trace started
                                ++ [EPrint (MsgSavedJson json_path);
                                    EPrint (MsgSavedCsv csv_path)] |})
          end
    | Exit c => (Exit c, made.2)
    | Raise e => (Raise e, made.2)
    end.
Proof.
  cbv zeta. unfold bulk_detect_and_save. unfold bind at 1.
  destruct (makedirs_frame out_dir w) as (Hfiles & Htrace & _).
  destruct (makedirs out_dir w) as [[[]|c|e] w1] eqn:Hmade; cbn [fst snd] in *; [|done..].
  unfold bind at 1, open_w at 1.
  rewrite (open_w_error_in_made_dir _ "labels.csv" w w1 w1 Hmade) by done.
  destruct (is_dir w1 (Fs.locate (Py.path_join out_dir "labels.csv"))) eqn:Hcsv; [done|].
  unfold bind at 1, writerow at 1. cbn [files dirs trace]. rewrite lookup_insert_eq.
  unfold bind at 1.
  erewrite detect_loop_general by (cbn [files]; apply lookup_insert_eq).
  cbn [dirs files trace]. rewrite !insert_insert_eq, Hfiles, Htrace.
  change (empty_file) with (CsvDoc []). cbn [app].
  destruct (crash' keys) as [e|]; [done|].
  unfold bind at 1, open_w at 1.
  rewrite (open_w_error_in_made_dir _ "labels.json" w w1) by done.
  rewrite (is_dir_ext _ w1) by done.
  destruct (is_dir w1 (Fs.locate (Py.path_join out_dir "labels.json"))) eqn:Hjson; [done|].
  unfold bind, json_dump, print, emit, ret. cbn [files dirs trace].
  rewrite !insert_insert_eq, <- !app_assoc. reflexivity.
Qed.

Lemma crash_recoverable (keys : list string) :
  crash' keys = None <-> Forall (fun key => recoverable' key = true) keys.
Proof.
  induction keys as [|key keys IH]; [done|].
  rewrite Forall_cons, <- IH. simpl. unfold recoverable.
  destruct (answer key) as [resp|[r|what]]; split; try done; by intros [].
Qed.

Lemma reached_all (keys : list string) : crash' keys = None -> reached' keys = keys.
Proof.
  induction keys as [|key keys IH]; [done|].
  simpl. unfold recoverable.
  destruct (answer key) as [resp|[r|what]]; [| |done]; intros Hc; by rewrite IH.
Qed.

Lemma can_open_csv_true (out_dir : string) (w : world) :
  can_open_csv out_dir w = true ->
  (makedirs out_dir w).1 = Ret tt
  /\ is_dir (makedirs out_dir w).2 (Fs.locate (Py.path_join out_dir "labels.csv")) = false.
Proof.
  unfold can_open_csv. destruct (makedirs out_dir w) as [[[]|c|e] w1]; [|done..].
  cbn [fst snd]. by intros ->%negb_true_iff.
Qed.

Lemma can_save_true (out_dir : string) (w : world) :
  can_save out_dir w = true ->
  (makedirs out_dir w).1 = Ret tt
  /\ is_dir (makedirs out_dir w).2 (Fs.locate (Py.path_join out_dir "labels.csv")) = false
  /\ is_dir (makedirs out_dir w).2 (Fs.locate (Py.path_join out_dir "labels.json")) = false.
Proof.
  unfold can_save. intros [Hcsv Hjson%negb_true_iff]%andb_true_iff.
  apply can_open_csv_true in Hcsv as [Hmade Hcsv]. done.
Qed.

(** A run that opens its CSV file leaves it with the header and the rows of
    the records collected, whatever ends the run. *)
Lemma bulk_detect_and_save_started (keys : list string) (out_dir : string) (w : world) :
  can_open_csv out_dir w = true ->
  let run := batch keys out_dir w in
  let csv_path := Py.path_join out_dir "labels.csv" in
  file_at run.2 csv_path
  = Some (CsvDoc (csv_header :: flat_map result_rows (successes' (reached' keys))))
  /\ exists tail,
       trace run.2 = trace w ++ events (length keys) 1%nat (reached' keys) ++ tail
       /\ (tail = []
           \/ tail = [EPrint (MsgSavedJson (Py.path_join out_dir "labels.json"));
                      EPrint (MsgSavedCsv csv_path)]).
Proof.
  intros [Hmade Hcsv]%can_open_csv_true. cbv zeta.
  rewrite bulk_detect_and_save_general. cbv zeta.
  rewrite Hmade, Hcsv. unfold file_at.
  pose proof (output_places_differ out_dir) as Hne.
  destruct (crash' keys) as [e|];
    [|destruct (is_dir _ (Fs.locate (Py.path_join out_dir "labels.json")))];
    cbn [snd files trace].
  - split; [apply lookup_insert_eq|]. exists []. rewrite app_nil_r. auto.
  - split; [apply lookup_insert_eq|]. exists []. rewrite app_nil_r. auto.
  - split; [by rewrite lookup_insert_ne, lookup_insert_eq|]. eexists.
    rewrite <- app_assoc. auto.
Qed.

(** A run that cannot open its CSV file calls nothing, prints nothing,
    changes no file and does not return. *)
Lemma bulk_detect_and_save_not_started (keys : list string) (out_dir : string)
    (w : world) :
  can_open_csv out_dir w = false ->
  let run := batch keys out_dir w in
  trace run.2 = trace w /\ files run.2 = files w /\ (forall paths, run.1 <> Ret paths).
Proof.
  intros Hopen. cbv zeta. rewrite bulk_detect_and_save_general. cbv zeta.
  unfold can_open_csv in Hopen.
  destruct (makedirs_frame out_dir w) as (Hfiles & Htrace & _).
  destruct (makedirs out_dir w) as [[[]|c|e] w1]; cbn [fst snd] in *; [|done..].
  apply negb_false_iff in Hopen. by rewrite Hopen.
Qed.

(** A run returns exactly when it can write its outputs and every call is
    recoverable; then both documents are written in full. *)
Lemma bulk_detect_and_save_saved (keys : list string) (out_dir : string) (w : world) :
  can_save out_dir w = true ->
  Forall (fun key => recoverable' key = true) keys ->
  let json_path := Py.path_join out_dir "labels.json" in
  let csv_path := Py.path_join out_dir "labels.csv" in
  batch keys out_dir w
  = (Ret (json_path, csv_path),
     {| dirs := dirs (makedirs out_dir w).2;
        files := <[Fs.locate json_path := JsonDoc (successes' keys)]>
                   (<[Fs.locate csv_path :=
                        CsvDoc (csv_header :: flat_map result_rows (successes' keys))]>
                      (files w));
        trace := trace w ++ events (length keys) 1%nat keys
                 ++ [EPrint (MsgSavedJson json_path); EPrint (MsgSavedCsv csv_path)] |}).
Proof.
  intros (Hmade & Hcsv & Hjson)%can_save_true Hrec%crash_recoverable. cbv zeta.
  rewrite bulk_detect_and_save_general. cbv zeta.
  rewrite Hmade, Hcsv, Hjson, Hrec, (reached_all keys Hrec). cbn [files trace].
  by rewrite <- app_assoc.
Qed.

Lemma bulk_detect_and_save_ret (keys : list string) (out_dir : string) (w : world)
    (paths : string * string) :
  (batch keys out_dir w).1 = Ret paths ->
  can_save out_dir w = true
  /\ Forall (fun key => recoverable' key = true) keys
  /\ paths = (Py.path_join out_dir "labels.json", Py.path_join out_dir "labels.csv").
Proof.
  rewrite bulk_detect_and_save_general. cbv zeta. unfold can_save, can_open_csv.
  destruct (makedirs out_dir w) as [[[]|c|e] w1]; cbn [fst snd]; [|done..].
  destruct (is_dir w1 (Fs.locate (Py.path_join out_dir "labels.csv"))); [done|].
  destruct (crash' keys) as [e|] eqn:Hcrash; [done|].
  destruct (is_dir w1 (Fs.locate (Py.path_join out_dir "labels.json"))); [done|].
  intros [= <-]. split; [done|]. split; [by apply crash_recoverable|done].
Qed.

(** The events of any run: those of the loop on the keys it reached, none
    when the run stops before the loop, and the two closing lines when it
    returns. *)
Lemma bulk_detect_and_save_trace (keys : list string) (out_dir : string) (w : world) :
  let run := batch keys out_dir w in
  exists called tail,
    trace run.2 = trace w ++ events (length keys) 1%nat called ++ tail
    /\ (called = [] \/ called = reached' keys)
    /\ (tail = []
        \/ tail = [EPrint (MsgSavedJson (Py.path_join out_dir "labels.json"));
                   EPrint (MsgSavedCsv (Py.path_join out_dir "labels.csv"))])
    /\ (forall paths, run.1 = Ret paths -> called = keys).
Proof.
  intros run. destruct (can_open_csv out_dir w) eqn:Hopen.
  - destruct (bulk_detect_and_save_started keys out_dir w Hopen) as (_ & tail & Hev & Htail).
    exists (reached' keys), tail. split; [done|]. split; [by right|]. split; [done|].
    intros paths (_ & Hrec%crash_recoverable & _)%bulk_detect_and_save_ret.
    by apply reached_all.
  - destruct (bulk_detect_and_save_not_started keys out_dir w Hopen) as (Ht & _ & Hret).
    exists [], []. fold run in Ht, Hret. rewrite Ht. simpl. rewrite app_nil_r.
    split; [done|]. split; [by left|]. split; [by left|].
    intros paths Hpaths. by destruct (Hret paths).
Qed.

Lemma bulk_detect_and_save_events (keys : list string) (out_dir : string) (w : world) :
  let run := batch keys out_dir w in
  exists called tail,
    new_events w run.2 = events (length keys) 1%nat called ++ tail
    /\ (called = [] \/ called = reached' keys)
    /\ (tail = []
        \/ tail = [EPrint (MsgSavedJson (Py.path_join out_dir "labels.json"));
                   EPrint (MsgSavedCsv (Py.path_join out_dir "labels.csv"))])
    /\ (forall paths, run.1 = Ret paths -> called = keys).
Proof.
  intros run.
  destruct (bulk_detect_and_save_trace keys out_dir w) as (called & tail & Ht & H).
  exists called, tail. split; [|exact H].
  unfold new_events. fold run in Ht. by rewrite Ht, drop_app_length.
Qed.

Lemma loop_events_pacing (n i : nat) (keys : list string) :
  List.filter is_call_or_sleep (events n i keys)
  = flat_map (fun key =>
                if succeeded' key
                then [EDetect bucket key max_labels min_conf; ESleep 100]
                else [EDetect bucket key max_labels min_conf]) keys.
Proof.
  revert i. induction keys as [|key keys IH]; intros i; [done|].
  simpl. unfold key_events, succeeded at 1.
  destruct (answer key) as [resp|[r|what]]; simpl; repeat f_equal; by apply IH.
Qed.

Lemma reached_prefix (keys : list string) : reached' keys `prefix_of` keys.
Proof.
  induction keys as [|key rest IH]; [done|].
  simpl. destruct (recoverable' key).
  - by apply prefix_cons.
  - apply prefix_cons, prefix_nil.
Qed.

Lemma reached_crash (pre post : list string) (K : string) (what : string) :
  Forall (fun key => recoverable' key = true) pre ->
  answer K = Raises (OtherException what) ->
  reached' (pre ++ K :: post) = pre ++ [K]
  /\ crash' (pre ++ K :: post) = Some (OtherException what)
  /\ successes' (pre ++ [K]) = successes' pre.
Proof.
  intros Hpre HK. induction Hpre as [|key pre Hkey Hpre IH].
  - simpl. unfold recoverable, successes, detected. simpl. by rewrite HK.
  - destruct IH as (IH1 & IH2 & IH3). split_and!.
    + change (reached' ((key :: pre) ++ K :: post))
        with (key :: (if recoverable' key
                      then reached' (pre ++ K :: post) else [])).
      by rewrite Hkey, IH1.
    + unfold recoverable in Hkey.
      change (crash' ((key :: pre) ++ K :: post))
        with (match answer key with
              | Raises (OtherException what') => Some (OtherException what')
              | _ => crash' (pre ++ K :: post)
              end).
      by destruct (answer key) as [resp|[r|what']].
    + change (successes' ((key :: pre) ++ [K]))
        with (match detected rekog_client bucket max_labels min_conf key with
              | Some res => res :: successes' (pre ++ [K])
              | None => successes' (pre ++ [K])
              end).
      by rewrite IH3.
Qed.

(** What the lines printed in the loop say. *)
Lemma loop_events_prints (n : nat) (keys : list string) :
  forall (i0 : nat) (m : message),
    EPrint m ∈ events n i0 keys ->
    (exists j key, m = MsgLabeled (i0 + j) n key
                   /\ keys !! j = Some key /\ succeeded' key = true)
    \/ (exists key r, m = MsgRekogFailed key r
                      /\ key ∈ keys /\ answer key = Raises (ClientError r)).
Proof.
  induction keys as [|key rest IH]; intros i0 m Hin.
  - by apply elem_of_nil in Hin.
  - change (events n i0 (key :: rest))
      with (key_events rekog_client bucket max_labels min_conf n i0 key
            ++ events n (S i0) rest) in Hin.
    apply elem_of_app in Hin as [Hin|Hin].
    + unfold key_events in Hin. apply elem_of_cons in Hin as [Hin|Hin]; [done|].
      destruct (answer key) as [resp|[r|what]] eqn:Hans.
      * apply elem_of_cons in Hin as [[= ->]|Hin].
        -- left. exists 0%nat, key. rewrite Nat.add_0_r. split_and!; try done.
           unfold succeeded. by rewrite Hans.
        -- apply elem_of_cons in Hin as [Hin|Hin]; [done|by apply elem_of_nil in Hin].
      * apply elem_of_cons in Hin as [[= ->]|Hin]; [|by apply elem_of_nil in Hin].
        right. exists key, r. split_and!; try done. by left.
      * by apply elem_of_nil in Hin.
    + destruct (IH _ _ Hin) as [(j & k & -> & Hj & Hk)|(k & r & -> & Hk & Hr)].
      * left. exists (S j), k. split_and!; try done. f_equal. lia.
      * right. exists k, r. split_and!; try done. by right.
Qed.

End BatchOutputs.

(** ** Batch Runner: partial failure *)

(** C3, as stated, fails: on the keys [a, b, d], with the call for [b]
    failing with a remote-service error and the call for [d] timing out, the
    run is aborted at [d] and writes no JSON file: the key [a], whose call
    succeeded, has its rows in the CSV file and no record in any JSON
    output. *)
Lemma failure_then_timeout_writes_no_json :
  let keys := ["images/a.jpg"; "images/b.jpg"; "images/d.jpg"] in
  let run := bulk_detect_and_save rekog_timeout "bucket" keys "out" 10 70 w0 in
  detect_labels rekog_timeout "bucket" "images/b.jpg" 10 70 = Raises throttled
  /\ succeeded rekog_timeout "bucket" 10 70 "images/a.jpg" = true
  /\ run.1 = Raise (OtherException "ReadTimeoutError")
  /\ omap detect_key (new_events w0 run.2) = keys
  /\ file_at run.2 "out/labels.csv"
     = Some (CsvDoc (csv_header
                     :: flat_map result_rows
                          (successes rekog_timeout "bucket" 10 70 ["images/a.jpg"])))
  /\ file_at run.2 "out/labels.json" = None.
Proof. vm_compute. repeat split. Qed.

(** C3, amended. If the detector fails with a remote-service error
    ([ClientError]) for a key [K] of the sequence, that failure does not end
    the run: the run returns exactly when its outputs can be written and no
    call raises an exception of another kind.  When it returns, no record
    of the JSON document and no row of the CSV document carries the image of
    [K], the detector was called on every key of the sequence, and the
    images of the keys that succeeded appear in the JSON document and in the
    CSV rows in listing order. *)
Theorem detection_failure_omits_key (rekog_client : RekogClient) (bucket : string)
    (keys : list string) (out_dir : string) (max_labels : Z) (min_conf : Q)
    (w : world) (K : string) (r : ErrorResponse) :
  K ∈ keys ->
  detect_labels rekog_client bucket K max_labels min_conf = Raises (ClientError r) ->
  let run := bulk_detect_and_save rekog_client bucket keys out_dir max_labels min_conf w in
  let json_path := Py.path_join out_dir "labels.json" in
  let csv_path := Py.path_join out_dir "labels.csv" in
  (run.1 = Ret (json_path, csv_path)
   <-> can_save out_dir w = true
       /\ Forall (fun key => recoverable rekog_client bucket max_labels min_conf key = true)
                 keys)
  /\ (run.1 = Ret (json_path, csv_path) ->
      exists (results : list LabelResult) (rows : list (list cell)),
        file_at run.2 json_path = Some (JsonDoc results)
        /\ file_at run.2 csv_path = Some (CsvDoc (csv_header :: rows))
        /\ (forall res, res ∈ results -> image res <> image_uri bucket K)
        /\ (forall row, row ∈ rows -> head row <> Some (CStr (image_uri bucket K)))
        /\ omap detect_key (new_events w run.2) = keys
        /\ map image results
           = map (image_uri bucket)
                 (List.filter (succeeded rekog_client bucket max_labels min_conf) keys)
        /\ omap head rows
           = flat_map (fun res => replicate (length (labels res)) (CStr (image res)))
                      results).
Proof.
  intros HK Hfail run json_path csv_path.
  assert (Hiff : run.1 = Ret (json_path, csv_path)
                 <-> can_save out_dir w = true
                     /\ Forall (fun key => recoverable rekog_client bucket max_labels
                                             min_conf key = true) keys).
  { split.
    - by intros (Hsave & Hrec & _)%bulk_detect_and_save_ret.
    - intros [Hsave Hrec]. subst run.
      by rewrite (bulk_detect_and_save_saved _ _ _ _ keys out_dir w Hsave Hrec). }
  split; [exact Hiff|]. intros [Hsave Hrec]%Hiff. subst run.
  rewrite (bulk_detect_and_save_saved _ _ _ _ keys out_dir w Hsave Hrec).
  fold json_path csv_path. unfold file_at, new_events. cbn [snd files trace].
  set (results := successes rekog_client bucket max_labels min_conf keys).
  assert (Hfresh : forall res, res ∈ results -> image res <> image_uri bucket K).
  { intros res Hres Himg.
    apply elem_of_successes in Hres as (key & _ & Hdet).
    apply detected_spec in Hdet as (resp & Hans & ->). simpl in Himg.
    apply image_uri_inj in Himg as ->. congruence. }
  exists results, (flat_map result_rows results).
  split; [apply lookup_insert_eq|]. split.
  { rewrite lookup_insert_ne by apply output_places_differ. apply lookup_insert_eq. }
  split; [exact Hfresh|]. split.
  { intros row Hrow Hhead.
    apply elem_of_result_rows in Hrow as (res & lab & Hres & _ & ->).
    simpl in Hhead. injection Hhead as Himg. by apply (Hfresh res). }
  split.
  { rewrite drop_app_length, omap_app, loop_events_calls. simpl. apply app_nil_r. }
  split; [apply successes_images|apply result_rows_images].
Qed.

Lemma detection_failure_omits_key_witness :
  let run := bulk_detect_and_save rekog_demo "bucket" keys_abc "out" 10 70 w0 in
  (run.1 = Ret ("out/labels.json", "out/labels.csv")
   <-> can_save "out" w0 = true
       /\ Forall (fun key => recoverable rekog_demo "bucket" 10 70 key = true) keys_abc)
  /\ (run.1 = Ret ("out/labels.json", "out/labels.csv") ->
      exists (results : list LabelResult) (rows : list (list cell)),
        file_at run.2 "out/labels.json" = Some (JsonDoc results)
        /\ file_at run.2 "out/labels.csv" = Some (CsvDoc (csv_header :: rows))
        /\ (forall res, res ∈ results -> image res <> "s3://bucket/images/b.jpg")
        /\ (forall row, row ∈ rows -> head row <> Some (CStr "s3://bucket/images/b.jpg"))
        /\ omap detect_key (new_events w0 run.2) = keys_abc
        /\ map image results
           = map (image_uri "bucket")
                 (List.filter (succeeded rekog_demo "bucket" 10 70) keys_abc)
        /\ omap head rows
           = flat_map (fun res => replicate (length (labels res)) (CStr (image res)))
                      results).
Proof.
  apply (detection_failure_omits_key rekog_demo "bucket" keys_abc "out" 10 70 w0
           "images/b.jpg" {| Error := Some {| Code := Some "ThrottlingException" |} |}).
  - unfold keys_abc. apply list_elem_of_In. simpl. tauto.
  - reflexivity.
Defined.

(** The run of the example does return: its outputs can be written and the
    one failure is a remote-service error. *)
Example demo_batch_returns :
  can_save "out" w0 = true
  /\ forallb (recoverable rekog_demo "bucket" 10 70) keys_abc = true
  /\ (bulk_detect_and_save rekog_demo "bucket" keys_abc "out" 10 70 w0).1
     = Ret ("out/labels.json", "out/labels.csv").
Proof. by vm_compute. Qed.

(** ** Batch Runner: the CSV rows and the JSON labels *)

(** C4, as stated, fails: a run that an exception other than a
    remote-service error cuts short has written CSV rows and no JSON
    output.  On the keys [a, d], with the call for [d] timing out, the CSV
    file holds the two rows of [a] and there is no JSON file. *)
Lemma aborted_run_leaves_orphan_rows :
  let run := bulk_detect_and_save rekog_timeout "bucket" ["images/a.jpg"; "images/d.jpg"]
               "out" 10 70 w0 in
  run.1 = Raise (OtherException "ReadTimeoutError")
  /\ file_at run.2 "out/labels.csv"
     = Some (CsvDoc
               [csv_header;
                [CStr "s3://bucket/images/a.jpg"; CStr "Cat"; CNum (9342 # 100);
                 CStr "Animal"];
                [CStr "s3://bucket/images/a.jpg"; CStr "Pet"; CNum (8850 # 100); CStr ""]])
  /\ file_at run.2 "out/labels.json" = None.
Proof. vm_compute. repeat split. Qed.

(** C4, amended. In every run of the batch runner that returns, the CSV
    document is the header followed by the data rows, and the data rows are,
    entry by entry of the JSON document and label by label, the row of that
    label: as many rows as the entries have labels in total, every row the
    row of a label of an entry whose image it carries, every label of every
    entry with its row. *)
Theorem csv_rows_match_json_labels (rekog_client : RekogClient) (bucket : string)
    (keys : list string) (out_dir : string) (max_labels : Z) (min_conf : Q)
    (w : world) (paths : string * string) :
  let run := bulk_detect_and_save rekog_client bucket keys out_dir max_labels min_conf w in
  run.1 = Ret paths ->
  exists (results : list LabelResult) (rows : list (list cell)),
    paths = (Py.path_join out_dir "labels.json", Py.path_join out_dir "labels.csv")
    /\ file_at run.2 paths.1 = Some (JsonDoc results)
    /\ file_at run.2 paths.2 = Some (CsvDoc (csv_header :: rows))
    /\ length rows = sum_list (map (fun res => length (labels res)) results)
    /\ rows = flat_map (fun res => map (csv_row res) (labels res)) results
    /\ (forall row, row ∈ rows ->
          exists res lab, res ∈ results /\ lab ∈ labels res
                          /\ row = csv_row res lab
                          /\ head row = Some (CStr (image res)))
    /\ (forall res lab, res ∈ results -> lab ∈ labels res -> csv_row res lab ∈ rows).
Proof.
  intros run Hret.
  destruct (bulk_detect_and_save_ret _ _ _ _ _ _ _ _ Hret) as (Hsave & Hrec & ->).
  subst run. rewrite (bulk_detect_and_save_saved _ _ _ _ keys out_dir w Hsave Hrec).
  unfold file_at. cbn [fst snd files].
  set (results := successes rekog_client bucket max_labels min_conf keys).
  exists results, (flat_map result_rows results).
  split; [done|]. split; [apply lookup_insert_eq|]. split.
  { rewrite lookup_insert_ne by apply output_places_differ. apply lookup_insert_eq. }
  split; [apply length_result_rows|]. split; [done|]. split.
  - intros row Hrow.
    apply elem_of_result_rows in Hrow as (res & lab & Hres & Hlab & ->).
    by exists res, lab.
  - intros res lab Hres Hlab. apply elem_of_result_rows. by exists res, lab.
Qed.

Lemma csv_rows_match_json_labels_witness :
  let run := bulk_detect_and_save rekog_demo "bucket" keys_abc "out" 10 70 w0 in
  exists (results : list LabelResult) (rows : list (list cell)),
    ("out/labels.json", "out/labels.csv")
    = (Py.path_join "out" "labels.json", Py.path_join "out" "labels.csv")
    /\ file_at run.2 "out/labels.json" = Some (JsonDoc results)
    /\ file_at run.2 "out/labels.csv" = Some (CsvDoc (csv_header :: rows))
    /\ length rows = sum_list (map (fun res => length (labels res)) results)
    /\ rows = flat_map (fun res => map (csv_row res) (labels res)) results
    /\ (forall row, row ∈ rows ->
          exists res lab, res ∈ results /\ lab ∈ labels res
                          /\ row = csv_row res lab
                          /\ head row = Some (CStr (image res)))
    /\ (forall res lab, res ∈ results -> lab ∈ labels res -> csv_row res lab ∈ rows).
Proof.
  apply (csv_rows_match_json_labels rekog_demo "bucket" keys_abc "out" 10 70 w0
           ("out/labels.json", "out/labels.csv")).
  reflexivity.
Defined.

(** ** Batch Runner: a key without labels *)

(** C9, as stated, fails: when a later call raises an exception other than a
    remote-service error, the record of a key that was detected without
    labels is in no JSON output.  On the keys [c, d], with no label found in
    [c] and the call for [d] timing out, the run is aborted and there is no
    JSON file. *)
Lemma unlabelled_key_lost_when_run_aborts :
  let run := bulk_detect_and_save rekog_timeout "bucket" ["images/c.jpg"; "images/d.jpg"]
               "out" 10 70 w0 in
  detect_labels rekog_timeout "bucket" "images/c.jpg" 10 70 = Ok {| Labels := None |}
  /\ run.1 = Raise (OtherException "ReadTimeoutError")
  /\ omap detect_key (new_events w0 run.2) = ["images/c.jpg"; "images/d.jpg"]
  /\ file_at run.2 "out/labels.csv" = Some (CsvDoc [csv_header])
  /\ file_at run.2 "out/labels.json" = None.
Proof. vm_compute. repeat split. Qed.

(** C9, amended. If detection succeeds for a key [K] of the sequence and the
    service returns no label, then [K] contributes no row to the CSV
    document of any run that opens its CSV file, and in every run that
    returns, the JSON document holds the record of [K] with an empty label
    sequence.  A run returns exactly when its outputs can be written and no
    call raises an exception other than a remote-service error; a run that
    is cut short writes no JSON document. *)
Theorem empty_detection_in_json_not_in_csv (rekog_client : RekogClient)
    (bucket : string) (keys : list string) (out_dir : string) (max_labels : Z)
    (min_conf : Q) (w : world) (K : string) (resp : DetectResponse) :
  K ∈ keys ->
  detect_labels rekog_client bucket K max_labels min_conf = Ok resp ->
  default [] (Labels resp) = [] ->
  let run := bulk_detect_and_save rekog_client bucket keys out_dir max_labels min_conf w in
  let json_path := Py.path_join out_dir "labels.json" in
  let csv_path := Py.path_join out_dir "labels.csv" in
  (can_open_csv out_dir w = true ->
   exists rows : list (list cell),
     file_at run.2 csv_path = Some (CsvDoc (csv_header :: rows))
     /\ (forall row, row ∈ rows -> head row <> Some (CStr (image_uri bucket K))))
  /\ (run.1 = Ret (json_path, csv_path)
      <-> can_save out_dir w = true
          /\ Forall (fun key => recoverable rekog_client bucket max_labels min_conf key
                                = true) keys)
  /\ (run.1 = Ret (json_path, csv_path) ->
      exists results : list LabelResult,
        file_at run.2 json_path = Some (JsonDoc results)
        /\ {| image := image_uri bucket K; labels := [] |} ∈ results)
  /\ ((forall paths, run.1 <> Ret paths) -> file_at run.2 json_path = file_at w json_path).
Proof.
  intros HK Hans Hempty run json_path csv_path.
  assert (Hrows : forall l row,
             row ∈ flat_map result_rows
                     (successes rekog_client bucket max_labels min_conf l) ->
             head row <> Some (CStr (image_uri bucket K))).
  { intros l row Hrow Hhead.
    apply elem_of_result_rows in Hrow as (res & lab & Hres & Hlab & ->).
    simpl in Hhead. injection Hhead as Himg.
    apply elem_of_successes in Hres as (key & _ & Hdet).
    apply detected_spec in Hdet as (resp' & Hans' & ->). simpl in Himg, Hlab.
    apply image_uri_inj in Himg as ->.
    rewrite Hans in Hans'. injection Hans' as <-.
    rewrite Hempty in Hlab. by apply elem_of_nil in Hlab. }
  assert (Hiff : run.1 = Ret (json_path, csv_path)
                 <-> can_save out_dir w = true
                     /\ Forall (fun key => recoverable rekog_client bucket max_labels
                                             min_conf key = true) keys).
  { split.
    - by intros (Hsave & Hrec & _)%bulk_detect_and_save_ret.
    - intros [Hsave Hrec]. subst run.
      by rewrite (bulk_detect_and_save_saved _ _ _ _ keys out_dir w Hsave Hrec). }
  split; [|split; [exact Hiff|split]].
  - intros Hopen.
    destruct (bulk_detect_and_save_started rekog_client bucket max_labels min_conf
                keys out_dir w Hopen) as (Hcsv & _).
    eexists. split; [exact Hcsv|]. apply Hrows.
  - intros [Hsave Hrec]%Hiff. subst run.
    rewrite (bulk_detect_and_save_saved _ _ _ _ keys out_dir w Hsave Hrec).
    unfold file_at. cbn [snd files]. eexists. split; [apply lookup_insert_eq|].
    apply elem_of_successes. exists K. split; [done|].
    apply detected_spec. exists resp. by rewrite Hempty.
  - intros Hnever. subst run. unfold file_at.
    rewrite bulk_detect_and_save_general in Hnever |- *. cbv zeta in Hnever |- *.
    destruct (makedirs_frame out_dir w) as (Hfiles & _).
    pose proof (output_places_differ out_dir) as Hne.
    destruct (makedirs out_dir w) as [[[]|c|e] w1]; cbn [fst snd] in *;
      [|by rewrite Hfiles..].
    destruct (is_dir w1 (Fs.locate (Py.path_join out_dir "labels.csv")));
      [cbn [snd]; by rewrite Hfiles|].
    destruct (crash rekog_client bucket max_labels min_conf keys);
      [cbn [snd files]; by rewrite lookup_insert_ne|].
    destruct (is_dir w1 (Fs.locate (Py.path_join out_dir "labels.json")));
      [cbn [snd files]; by rewrite lookup_insert_ne|].
    by destruct (Hnever (json_path, csv_path)).
Qed.

Lemma empty_detection_in_json_not_in_csv_witness :
  let run := bulk_detect_and_save rekog_demo "bucket" keys_abc "out" 10 70 w0 in
  (can_open_csv "out" w0 = true ->
   exists rows : list (list cell),
     file_at run.2 "out/labels.csv" = Some (CsvDoc (csv_header :: rows))
     /\ (forall row, row ∈ rows -> head row <> Some (CStr "s3://bucket/images/c.jpg")))
  /\ (run.1 = Ret ("out/labels.json", "out/labels.csv")
      <-> can_save "out" w0 = true
          /\ Forall (fun key => recoverable rekog_demo "bucket" 10 70 key = true) keys_abc)
  /\ (run.1 = Ret ("out/labels.json", "out/labels.csv") ->
      exists results : list LabelResult,
        file_at run.2 "out/labels.json" = Some (JsonDoc results)
        /\ {| image := "s3://bucket/images/c.jpg"; labels := [] |} ∈ results)
  /\ ((forall paths, run.1 <> Ret paths) ->
      file_at run.2 "out/labels.json" = file_at w0 "out/labels.json").
Proof.
  apply (empty_detection_in_json_not_in_csv rekog_demo "bucket" keys_abc "out" 10 70 w0
           "images/c.jpg" {| Labels := None |}).
  - unfold keys_abc. apply list_elem_of_In. simpl. tauto.
  - reflexivity.
  - reflexivity.
Defined.

(** ** Batch Runner: the parents field *)

(** C10. For every label of a record the run obtained (a label of the
    response to a call the run made), the CSV document holds the row of that
    label, and the fourth cell of the row is the parents of the label joined
    with ";": the empty string when the label has no parent, and otherwise
    the first parent followed by ";" and the next parent for each further
    one, in order; one separator less than there are parents, none after the
    last.  This holds however the run ends; and every data row of the CSV
    document is the row of such a label. *)
Theorem csv_parents_field_joined (rekog_client : RekogClient) (bucket : string)
    (keys : list string) (out_dir : string) (max_labels : Z) (min_conf : Q)
    (w : world) (K : string) (resp : DetectResponse) (lab : Label) :
  let run := bulk_detect_and_save rekog_client bucket keys out_dir max_labels min_conf w in
  let csv_path := Py.path_join out_dir "labels.csv" in
  EDetect bucket K max_labels min_conf ∈ new_events w run.2 ->
  detect_labels rekog_client bucket K max_labels min_conf = Ok resp ->
  lab ∈ map normalize_label (default [] (Labels resp)) ->
  exists (rows : list (list cell)) (field : string),
    file_at run.2 csv_path = Some (CsvDoc (csv_header :: rows))
    /\ [CStr (image_uri bucket K); CStr (name lab); CNum (confidence lab); CStr field]
       ∈ rows
    /\ field = Py.join ";" (parents lab)
    /\ (parents lab = [] -> field = "")
    /\ (forall p ps, parents lab = p :: ps -> field = p +:+ sep_each ";" ps)
    /\ String.length field
       = (sum_list (map String.length (parents lab)) + (length (parents lab) - 1))%nat
    /\ (forall row, row ∈ rows ->
          exists res lab',
            lab' ∈ labels res /\ row = csv_row res lab'
            /\ row !! 3%nat = Some (CStr (Py.join ";" (parents lab')))).
Proof.
  intros run csv_path Hcall Hans Hlab.
  destruct (can_open_csv out_dir w) eqn:Hopen; cycle 1.
  { destruct (bulk_detect_and_save_not_started rekog_client bucket max_labels min_conf
                keys out_dir w Hopen) as (Ht & _).
    fold run in Ht. unfold new_events in Hcall. rewrite Ht, drop_all in Hcall.
    by apply elem_of_nil in Hcall. }
  destruct (bulk_detect_and_save_started rekog_client bucket max_labels min_conf
              keys out_dir w Hopen) as (Hcsv & tail & Ht & Htail).
  fold run csv_path in Hcsv, Ht.
  set (called := reached rekog_client bucket max_labels min_conf keys) in *.
  assert (HK : K ∈ called).
  { unfold new_events in Hcall. rewrite Ht, drop_app_length in Hcall.
    assert (Hkey : K ∈ omap detect_key
                         (loop_events rekog_client bucket max_labels min_conf
                            (length keys) 1%nat called ++ tail)).
    { apply list_elem_of_omap. by exists (EDetect bucket K max_labels min_conf). }
    rewrite omap_app, loop_events_calls in Hkey.
    apply elem_of_app in Hkey as [Hkey|Hkey]; [done|].
    destruct Htail as [->| ->]; simpl in Hkey; by apply elem_of_nil in Hkey. }
  set (res := {| image := image_uri bucket K;
                 labels := map normalize_label (default [] (Labels resp)) |}).
  exists (flat_map result_rows
            (successes rekog_client bucket max_labels min_conf called)),
         (Py.join ";" (parents lab)).
  split; [exact Hcsv|]. split.
  { apply elem_of_result_rows. exists res, lab. split; [|by split].
    apply elem_of_successes. exists K. split; [done|].
    apply detected_spec. by exists resp. }
  split; [done|]. split; [by intros ->|]. split; [intros p ps ->; apply join_cons|].
  split; [rewrite length_join; simpl String.length; lia|].
  intros row Hrow.
  apply elem_of_result_rows in Hrow as (res' & lab' & _ & Hlab' & ->).
  by exists res', lab'.
Qed.

Lemma csv_parents_field_joined_witness :
  let run := bulk_detect_and_save rekog_demo "bucket" keys_abc "out" 10 70 w0 in
  let lab := {| name := "Pet"; confidence := 8850 # 100; parents := [] |} in
  exists (rows : list (list cell)) (field : string),
    file_at run.2 "out/labels.csv" = Some (CsvDoc (csv_header :: rows))
    /\ [CStr (image_uri "bucket" "images/a.jpg"); CStr (name lab); CNum (confidence lab);
        CStr field] ∈ rows
    /\ field = Py.join ";" (parents lab)
    /\ (parents lab = [] -> field = "")
    /\ (forall p ps, parents lab = p :: ps -> field = p +:+ sep_each ";" ps)
    /\ String.length field
       = (sum_list (map String.length (parents lab)) + (length (parents lab) - 1))%nat
    /\ (forall row, row ∈ rows ->
          exists res lab',
            lab' ∈ labels res /\ row = csv_row res lab'
            /\ row !! 3%nat = Some (CStr (Py.join ";" (parents lab')))).
Proof.
  apply (csv_parents_field_joined rekog_demo "bucket" keys_abc "out" 10 70 w0
           "images/a.jpg" cat_response
           {| name := "Pet"; confidence := 8850 # 100; parents := [] |}).
  - apply list_elem_of_In. vm_compute. tauto.
  - reflexivity.
  - apply list_elem_of_In. vm_compute. tauto.
Defined.

(** ** Batch Runner: pacing *)

(** C2, as stated, fails: on the keys [a, b, c] with the call for [b] failing,
    the call for [c] follows the call for [b] with no sleep between them. *)
Lemma no_delay_after_failed_call :
  let run := bulk_detect_and_save rekog_demo "bucket" keys_abc "out" 10 70 w0 in
  run.1 = Ret ("out/labels.json", "out/labels.csv")
  /\ List.filter is_call_or_sleep (new_events w0 run.2)
     = [EDetect "bucket" "images/a.jpg" 10 70; ESleep 100;
        EDetect "bucket" "images/b.jpg" 10 70;
        EDetect "bucket" "images/c.jpg" 10 70; ESleep 100]
  /\ paced false (new_events w0 run.2) = false.
Proof. vm_compute. repeat split. Qed.

(** C2, amended. In every run of the batch runner, the detector is called
    on the keys of the sequence in turn, as far as the run goes: on all of
    them when the run returns, on those up to the one whose call raises an
    exception other than a remote-service error when one does, on none when
    the outputs cannot be opened.  A sleep of 100 ms follows each call that
    succeeded, before the next call (and after the last one); no sleep
    follows a call that failed, and there is no other sleep. *)
Theorem delay_follows_successful_call (rekog_client : RekogClient) (bucket : string)
    (keys : list string) (out_dir : string) (max_labels : Z) (min_conf : Q)
    (w : world) :
  let run := bulk_detect_and_save rekog_client bucket keys out_dir max_labels min_conf w in
  let called := omap detect_key (new_events w run.2) in
  List.filter is_call_or_sleep (new_events w run.2)
  = flat_map (fun key =>
                if succeeded rekog_client bucket max_labels min_conf key
                then [EDetect bucket key max_labels min_conf; ESleep 100]
                else [EDetect bucket key max_labels min_conf]) called
  /\ called `prefix_of` keys
  /\ (forall paths, run.1 = Ret paths -> called = keys)
  /\ (can_open_csv out_dir w = true ->
      called = reached rekog_client bucket max_labels min_conf keys).
Proof.
  intros run called.
  destruct (bulk_detect_and_save_events rekog_client bucket max_labels min_conf
              keys out_dir w) as (called' & tail & Hev & Hcalled & Htail & Hret).
  fold run in Hev, Hret.
  assert (Hsame : called = called').
  { subst called. rewrite Hev, omap_app, loop_events_calls.
    destruct Htail as [->| ->]; simpl; apply app_nil_r. }
  rewrite Hsame. split; [|split; [|split]].
  - rewrite Hev, List.filter_app, loop_events_pacing.
    destruct Htail as [->| ->]; simpl; apply app_nil_r.
  - destruct Hcalled as [->| ->]; [apply prefix_nil|apply reached_prefix].
  - exact Hret.
  - intros Hopen.
    destruct (bulk_detect_and_save_started rekog_client bucket max_labels min_conf
                keys out_dir w Hopen) as (_ & tail' & Ht & Htail').
    fold run in Ht. rewrite <- Hsame. subst called. unfold new_events.
    rewrite Ht, drop_app_length, omap_app, loop_events_calls.
    destruct Htail' as [->| ->]; simpl; apply app_nil_r.
Qed.

(** ** Bucket Provisioner *)

(** C1, as stated, fails: when the service answers that the bucket exists
    and belongs to someone else ([BucketAlreadyExists], not
    [BucketAlreadyOwnedByYou]), the provisioner returns as on success. *)
Lemma bucket_of_other_owner_accepted :
  let s3 := s3_refusing "BucketAlreadyExists" in
  let run := ensure_bucket s3 "photos" "eu-west-1" w0 in
  (exists e, create_bucket s3 "photos" (location_constraint "eu-west-1")
             = Raises (ClientError e)
             /\ error_code e <> "BucketAlreadyOwnedByYou")
  /\ run.1 = Ret tt
  /\ new_events w0 run.2
     = [ECreateBucket "photos" (Some "eu-west-1"); EPrint (MsgBucketExists "photos")].
Proof.
  split; [|split; reflexivity].
  eexists. split; [reflexivity|]. discriminate.
Qed.

(** C1, amended. When the container-creation call fails with a
    remote-service error, the provisioner returns as on success exactly when
    the error code is [BucketAlreadyOwnedByYou] or [BucketAlreadyExists]; for
    every other code (or none) it prints the failure and exits with status
    1. *)
Theorem ensure_bucket_on_client_error (s3_client : S3Client) (bucket region : string)
    (w : world) (e : ErrorResponse) :
  create_bucket s3_client bucket (location_constraint region) = Raises (ClientError e) ->
  let run := ensure_bucket s3_client bucket region w in
  let accepted := error_code e = "BucketAlreadyOwnedByYou"
                  \/ error_code e = "BucketAlreadyExists" in
  (run.1 = Ret tt <-> accepted)
  /\ (accepted -> new_events w run.2
                  = [ECreateBucket bucket (location_constraint region);
                     EPrint (MsgBucketExists bucket)])
  /\ (~ accepted -> run.1 = Exit 1
                    /\ new_events w run.2
                       = [ECreateBucket bucket (location_constraint region);
                          EPrint (MsgCouldNotCreate e)]).
Proof.
  intros Hfail run accepted.
  assert (Hrun : run = if bool_decide (error_code e
                                       ∈ ["BucketAlreadyOwnedByYou"; "BucketAlreadyExists"])
                       then (Ret tt,
                             {| dirs := dirs w; files := files w;
                                trace := trace w
                                  ++ [ECreateBucket bucket (location_constraint region);
                                      EPrint (MsgBucketExists bucket)] |})
                       else (Exit 1,
                             {| dirs := dirs w; files := files w;
                                trace := trace w
                                  ++ [ECreateBucket bucket (location_constraint region);
                                      EPrint (MsgCouldNotCreate e)] |})).
  { subst run. unfold ensure_bucket, location_constraint in *.
    unfold try_except_ClientError, bind at 1.
    destruct (String.eqb region "us-east-1");
      unfold remote, bind at 1, emit at 1; rewrite Hfail; unfold raise;
      cbv beta iota; case_bool_decide;
      unfold bind, print, emit, sys_exit; cbn [dirs files trace];
      by rewrite <- app_assoc. }
  assert (Hacc : accepted <-> error_code e
                              ∈ ["BucketAlreadyOwnedByYou"; "BucketAlreadyExists"]).
  { subst accepted. rewrite !elem_of_cons, elem_of_nil. tauto. }
  rewrite Hrun. case_bool_decide as Hin; cbn [fst snd]; unfold new_events; cbn [trace];
    rewrite drop_app_length; split_and!; try done; try tauto.
  split; [discriminate|]. tauto.
Qed.

Lemma ensure_bucket_on_client_error_witness :
  let e := {| Error := Some {| Code := Some "AccessDenied" |} |} in
  let run := ensure_bucket (s3_refusing "AccessDenied") "photos" "us-east-1" w0 in
  let accepted := error_code e = "BucketAlreadyOwnedByYou"
                  \/ error_code e = "BucketAlreadyExists" in
  (run.1 = Ret tt <-> accepted)
  /\ (accepted -> new_events w0 run.2
                  = [ECreateBucket "photos" (location_constraint "us-east-1");
                     EPrint (MsgBucketExists "photos")])
  /\ (~ accepted -> run.1 = Exit 1
                    /\ new_events w0 run.2
                       = [ECreateBucket "photos" (location_constraint "us-east-1");
                          EPrint (MsgCouldNotCreate e)]).
Proof.
  apply (ensure_bucket_on_client_error (s3_refusing "AccessDenied") "photos" "us-east-1" w0
           {| Error := Some {| Code := Some "AccessDenied" |} |}).
  reflexivity.
Defined.

(** ** Label Detector *)

(** Rounding to the nearest integer is off by at most one half. *)
Lemma round_half_even_near (q : Q) :
  let n := Py.round_half_even q in
  let d := Zpos (Qden q) in
  2 * n * d - d <= 2 * Qnum q <= 2 * n * d + d.
Proof.
  intros n d. subst n. unfold Py.round_half_even. fold d.
  assert (Hd : 0 < d) by (subst d; lia).
  pose proof (Z.div_mod (Qnum q) d ltac:(lia)) as Hdiv.
  pose proof (Z.mod_pos_bound (Qnum q) d Hd) as Hmod.
  destruct (Z.ltb_spec (2 * (Qnum q mod d)) d);
    [|destruct (Z.ltb_spec d (2 * (Qnum q mod d)));
      [|destruct (Z.even (Qnum q / d))]]; nia.
Qed.

(** [round(x, 2)] is a number of hundredths at most half a hundredth away
    from [x]. *)
Lemma round2_near (x : Q) :
  exists n : Z,
    Py.round2 x = n # 100
    /\ ((n # 100) - (1 # 200) <= x)%Q
    /\ (x <= (n # 100) + (1 # 200))%Q.
Proof.
  exists (Py.round_half_even (x * 100)). split; [done|].
  pose proof (round_half_even_near (x * 100)) as Hnear.
  destruct x as [a d]. cbn [Qmult Qnum Qden] in Hnear. cbv zeta in Hnear.
  rewrite Pos.mul_1_r in Hnear.
  set (n := Py.round_half_even _) in *.
  unfold Qle, Qminus, Qplus, Qopp. cbn [Qnum Qden].
  split; nia.
Qed.

(** C7. For every response of the labelling service, the detector returns a
    record for the image of the key with one label per label of the
    response, in the same order; the label's name is the service's name
    unchanged, its confidence is the service's confidence rounded to two
    decimal places (a number of hundredths within half a hundredth of it),
    and its parents are the names of the service's parent labels in the
    service's order. *)
Theorem detect_labels_normalizes_response (rekog_client : RekogClient)
    (bucket key : string) (max_labels : Z) (min_conf : Q) (w : world)
    (resp : DetectResponse) :
  detect_labels rekog_client bucket key max_labels min_conf = Ok resp ->
  let run := detect_labels_for_s3_object rekog_client bucket key max_labels min_conf w in
  let given := default [] (Labels resp) in
  exists res : LabelResult,
    run.1 = Ret res
    /\ new_events w run.2 = [EDetect bucket key max_labels min_conf]
    /\ image res = image_uri bucket key
    /\ length (labels res) = length given
    /\ forall (i : nat) (lab : ServiceLabel),
         given !! i = Some lab ->
         exists out : Label,
           labels res !! i = Some out
           /\ name out = Name lab
           /\ confidence out = Py.round2 (Confidence lab)
           /\ (exists n : Z,
                 confidence out = n # 100
                 /\ ((n # 100) - (1 # 200) <= Confidence lab)%Q
                 /\ (Confidence lab <= (n # 100) + (1 # 200))%Q)
           /\ parents out = map pName (default [] (Parents lab))
           /\ length (parents out) = length (default [] (Parents lab))
           /\ forall (j : nat) (p : ParentRef),
                default [] (Parents lab) !! j = Some p ->
                parents out !! j = Some (pName p).
Proof.
  intros Hans run given.
  exists {| image := image_uri bucket key; labels := map normalize_label given |}.
  assert (Hrun : run = (Ret {| image := image_uri bucket key;
                               labels := map normalize_label given |},
                        {| dirs := dirs w; files := files w;
                           trace := trace w ++ [EDetect bucket key max_labels min_conf] |})).
  { subst run. unfold detect_labels_for_s3_object, bind at 1, remote, bind at 1.
    rewrite Hans. reflexivity. }
  rewrite Hrun. cbn [fst snd image labels].
  split; [done|]. split.
  { unfold new_events. cbn [trace]. apply drop_app_length. }
  split; [done|]. split; [apply length_map|].
  intros i lab Hi. exists (normalize_label lab).
  split.
  { change (map normalize_label given) with (normalize_label <$> given).
    by rewrite list_lookup_fmap, Hi. }
  cbn [normalize_label name confidence parents].
  split; [done|]. split; [done|]. split; [apply round2_near|].
  split; [done|]. split; [apply length_map|].
  intros j p Hj.
  change (map pName (default [] (Parents lab)))
    with (pName <$> default [] (Parents lab)).
  by rewrite list_lookup_fmap, Hj.
Qed.

Lemma detect_labels_normalizes_response_witness :
  let run := detect_labels_for_s3_object rekog_demo "bucket" "images/a.jpg" 10 70 w0 in
  let given := default [] (Labels cat_response) in
  exists res : LabelResult,
    run.1 = Ret res
    /\ new_events w0 run.2 = [EDetect "bucket" "images/a.jpg" 10 70]
    /\ image res = image_uri "bucket" "images/a.jpg"
    /\ length (labels res) = length given
    /\ forall (i : nat) (lab : ServiceLabel),
         given !! i = Some lab ->
         exists out : Label,
           labels res !! i = Some out
           /\ name out = Name lab
           /\ confidence out = Py.round2 (Confidence lab)
           /\ (exists n : Z,
                 confidence out = n # 100
                 /\ ((n # 100) - (1 # 200) <= Confidence lab)%Q
                 /\ (Confidence lab <= (n # 100) + (1 # 200))%Q)
           /\ parents out = map pName (default [] (Parents lab))
           /\ length (parents out) = length (default [] (Parents lab))
           /\ forall (j : nat) (p : ParentRef),
                default [] (Parents lab) !! j = Some p ->
                parents out !! j = Some (pName p).
Proof.
  apply (detect_labels_normalizes_response rekog_demo "bucket" "images/a.jpg" 10 70 w0
           cat_response).
  reflexivity.
Defined.

Example detect_cat :
  (detect_labels_for_s3_object rekog_demo "bucket" "images/a.jpg" 10 70 w0).1
  = Ret {| image := "s3://bucket/images/a.jpg";
           labels := [ {| name := "Cat"; confidence := 9342 # 100; parents := ["Animal"] |};
                       {| name := "Pet"; confidence := 8850 # 100; parents := [] |} ] |}.
Proof. reflexivity. Qed.

(** ** The uploader, loop by loop *)

Lemma record_events_nil (w : world) : record_events [] w = w.
Proof. unfold record_events. rewrite app_nil_r. by destruct w. Qed.

Lemma record_events_app (evs1 evs2 : list event) (w : world) :
  record_events evs2 (record_events evs1 w) = record_events (evs1 ++ evs2) w.
Proof. unfold record_events. simpl. by rewrite app_assoc. Qed.

Lemma new_events_record (evs : list event) (w : world) :
  new_events w (record_events evs w) = evs.
Proof. unfold new_events, record_events. simpl. apply drop_app_length. Qed.

Lemma filter_files_of (root : string) (dirnames files : list string) :
  List.filter (fun rf : string * string => is_image rf.2) (files_of (root, dirnames, files))
  = map (pair root) (List.filter is_image files).
Proof.
  unfold files_of. induction files as [|f files IH]; [done|].
  simpl. destruct (is_image f); simpl; by rewrite IH.
Qed.

Section Uploader.
Variables (s3_client : S3Client) (folder bucket prefix : string).

Local Abbreviation one := (upload_one s3_client folder bucket prefix).
Local Abbreviation events_of := (upload_events prefix folder bucket).
Local Abbreviation matching := (fun rf : string * string => is_image rf.2).

Lemma upload_one_skip (root : string) (uploaded : Z) (f : string) (w : world) :
  is_image f = false ->
  one root uploaded f w = (Ret uploaded, w).
Proof. intros Hf. unfold upload_one. by rewrite Hf. Qed.

Lemma upload_one_ok (root : string) (uploaded : Z) (f : string) (w : world) :
  is_image f = true ->
  upload_file s3_client (Py.path_join root f) bucket
    (upload_key prefix folder (Py.path_join root f)) = Ok tt ->
  one root uploaded f w = (Ret (uploaded + 1), record_events (events_of (root, f)) w).
Proof.
  intros Hf Hok. unfold upload_one. rewrite Hf. cbv zeta. simpl negb. cbv iota.
  unfold bind at 1, remote, bind at 1. rewrite Hok.
  unfold emit at 1, ret at 1. cbv beta iota.
  unfold bind, print, emit, ret, record_events, upload_events. simpl.
  by rewrite <- app_assoc.
Qed.

Lemma upload_one_raise (root : string) (uploaded : Z) (f : string) (w : world) (e : exn) :
  is_image f = true ->
  upload_file s3_client (Py.path_join root f) bucket
    (upload_key prefix folder (Py.path_join root f)) = Raises e ->
  exists w', one root uploaded f w = (Raise e, w').
Proof.
  intros Hf Hraise. unfold upload_one. rewrite Hf. cbv zeta. simpl negb. cbv iota.
  unfold bind at 1, remote, bind at 1. rewrite Hraise.
  unfold emit at 1, raise. cbv beta iota. by eexists.
Qed.

(** The files of one directory: every matching file is uploaded and counted,
    unless one of the uploads raises. *)
Lemma upload_files_run (root : string) (files : list string) :
  forall (uploaded : Z) (w : world),
    let l := map (pair root) (List.filter is_image files) in
    let run := for_each files (one root) uploaded w in
    run = (Ret (uploaded + Z.of_nat (length l)), record_events (flat_map events_of l) w)
    \/ (l <> []
        /\ exists e w' full key,
             run = (Raise e, w') /\ upload_file s3_client full bucket key = Raises e).
Proof.
  induction files as [|f files IH]; intros uploaded w l run.
  - left. subst l run. simpl. unfold ret. by rewrite Z.add_0_r, record_events_nil.
  - assert (Hstep : run = match one root uploaded f w with
                          | (Ret a, w') => for_each files (one root) a w'
                          | (Exit c, w') => (Exit c, w')
                          | (Raise e, w') => (Raise e, w')
                          end) by reflexivity.
    clearbody run. subst l. simpl List.filter.
    destruct (is_image f) eqn:Hf.
    + destruct (upload_file s3_client (Py.path_join root f) bucket
                  (upload_key prefix folder (Py.path_join root f))) as [[]|e] eqn:Hup.
      * rewrite (upload_one_ok _ _ _ _ Hf Hup) in Hstep.
        destruct (IH (uploaded + 1) (record_events (events_of (root, f)) w))
          as [Hrun|(_ & e & w' & full & key & Hrun & Hraise)].
        -- left. rewrite Hstep, Hrun, record_events_app. simpl length.
           f_equal. f_equal. lia.
        -- right. split; [done|]. exists e, w', full, key. by rewrite Hstep, Hrun.
      * destruct (upload_one_raise root uploaded f w e Hf Hup) as [w' Hrun].
        rewrite Hrun in Hstep.
        right. split; [done|]. eexists e, w', _, _. split; [exact Hstep|exact Hup].
    + rewrite (upload_one_skip _ _ _ _ Hf) in Hstep.
      destruct (IH uploaded w) as [Hrun|(Hne & e & w' & full & key & Hrun & Hraise)].
      * left. by rewrite Hstep.
      * right. split; [exact Hne|]. exists e, w', full, key. by rewrite Hstep.
Qed.

(** All the directories of the walk. *)
Lemma upload_walk_run (entries : list (string * list string * list string)) :
  forall (uploaded : Z) (w : world),
    let l := List.filter matching (flat_map files_of entries) in
    let run := for_each entries (upload_dir s3_client folder bucket prefix) uploaded w in
    run = (Ret (uploaded + Z.of_nat (length l)), record_events (flat_map events_of l) w)
    \/ (l <> []
        /\ exists e w' full key,
             run = (Raise e, w') /\ upload_file s3_client full bucket key = Raises e).
Proof.
  induction entries as [|[[root dirnames] files] entries IH]; intros uploaded w l run.
  - left. subst l run. simpl. unfold ret. by rewrite Z.add_0_r, record_events_nil.
  - assert (Hstep : run = match for_each files (one root) uploaded w with
                          | (Ret a, w') =>
                              for_each entries (upload_dir s3_client folder bucket prefix) a w'
                          | (Exit c, w') => (Exit c, w')
                          | (Raise e, w') => (Raise e, w')
                          end) by reflexivity.
    clearbody run. subst l.
    change (flat_map files_of ((root, dirnames, files) :: entries))
      with (files_of (root, dirnames, files) ++ flat_map files_of entries).
    rewrite List.filter_app, filter_files_of.
    destruct (upload_files_run root files uploaded w)
      as [Hrun|(Hne & e & w' & full & key & Hrun & Hraise)]; rewrite Hrun in Hstep.
    + match type of Hstep with
      | _ = for_each entries _ ?u ?w1 =>
          destruct (IH u w1) as [Hrest|(Hne & e & w' & full & key & Hrest & Hraise)]
      end.
      * left. rewrite Hstep, Hrest, record_events_app, flat_map_app, length_app.
        f_equal. f_equal. lia.
      * right. split.
        { intros Hnil. apply app_eq_nil in Hnil as [_ Hnil]. by apply Hne. }
        exists e, w', full, key. by rewrite Hstep.
    + right. split.
      { intros Hnil. apply app_eq_nil in Hnil as [Hnil _]. by apply Hne. }
      by exists e, w', full, key.
Qed.

End Uploader.

(** The uploader as a whole, on a folder that is a directory. *)
Lemma upload_folder_to_s3_run (os : OsEnv) (s3_client : S3Client)
    (folder bucket prefix : string) (w : world) (tree : dirtree) :
  dir_at os (abspath os folder) = Some tree ->
  let m := matching_files (abspath os folder) tree in
  let run := upload_folder_to_s3 os s3_client folder bucket prefix w in
  (m = [] /\ run = (Exit 1, record_events [EPrint MsgNoImagesToUpload] w))
  \/ (m <> []
      /\ run = (Ret PyNone,
                record_events
                  (flat_map (upload_events prefix (abspath os folder) bucket) m
                   ++ [EPrint (MsgUploadedCount (Z.of_nat (length m)))]) w))
  \/ (m <> []
      /\ exists e w' full key,
           run = (Raise e, w') /\ upload_file s3_client full bucket key = Raises e).
Proof.
  intros Hdir m run.
  assert (Hstep : run = match for_each (walk (abspath os folder) tree)
                                (upload_dir s3_client (abspath os folder) bucket prefix)
                                0 w with
                        | (Ret a, w') =>
                            if a =? 0
                            then (Exit 1, record_events [EPrint MsgNoImagesToUpload] w')
                            else (Ret PyNone,
                                  record_events [EPrint (MsgUploadedCount a)] w')
                        | (Exit c, w') => (Exit c, w')
                        | (Raise e, w') => (Raise e, w')
                        end).
  { subst run. unfold upload_folder_to_s3. cbv zeta. rewrite Hdir. unfold bind at 1.
    destruct (for_each _ _ _ _) as [[a| |] w']; try reflexivity.
    destruct (a =? 0); reflexivity. }
  clearbody run.
  destruct (upload_walk_run s3_client (abspath os folder) bucket prefix
              (walk (abspath os folder) tree) 0 w)
    as [Hrun|(Hne & e & w' & full & key & Hrun & Hraise)];
    fold (all_files (abspath os folder) tree) in *;
    fold (matching_files (abspath os folder) tree) in *; fold m in Hrun |- *;
    rewrite Hrun in Hstep.
  - rewrite Z.add_0_l in Hstep.
    destruct (Z.eqb_spec (Z.of_nat (length m)) 0) as [H0|Hpos].
    + left. assert (m = []) as Hm by (destruct m; [done|simpl in H0; lia]).
      split; [done|]. rewrite Hstep, Hm. simpl. by rewrite record_events_nil.
    + right. left. split; [by intros Hm; rewrite Hm in Hpos|].
      by rewrite Hstep, record_events_app.
  - right. right. split; [done|]. by exists e, w', full, key.
Qed.

(** ** The lister *)

Lemma collect_objects_run (objs : list S3Object) :
  forall (keys : list string) (w : world),
    for_each objs collect_object keys w
    = (Ret (keys ++ List.filter is_image (map Key objs)), w).
Proof.
  induction objs as [|obj objs IH]; intros keys w.
  - simpl. unfold ret. by rewrite app_nil_r.
  - simpl for_each. unfold bind, collect_object at 1. simpl map. simpl List.filter.
    destruct (is_image (Key obj)); unfold ret at 1; rewrite IH; [|done].
    by rewrite <- app_assoc.
Qed.

Lemma collect_pages_run (pages : list Page) :
  forall (keys : list string) (w : world),
    for_each pages collect_page keys w = (Ret (keys ++ page_keys pages), w).
Proof.
  unfold page_keys.
  induction pages as [|page pages IH]; intros keys w.
  - simpl. unfold ret. by rewrite app_nil_r.
  - simpl for_each. unfold bind, collect_page at 1.
    rewrite collect_objects_run, IH. simpl flat_map.
    by rewrite map_app, List.filter_app, app_assoc.
Qed.

Lemma list_s3_images_run (s3_client : S3Client) (bucket prefix : string) (w : world)
    (pages : list Page) :
  paginate_list_objects_v2 s3_client bucket prefix = Ok pages ->
  list_s3_images s3_client bucket prefix w
  = match page_keys pages with
    | [] => (Exit 1, record_events [EListObjects bucket prefix; EPrint MsgNoImagesInS3] w)
    | keys => (Ret keys,
               record_events [EListObjects bucket prefix;
                              EPrint (MsgFound (length keys) bucket prefix)] w)
    end.
Proof.
  intros Hpages. unfold list_s3_images, bind at 1, remote, bind at 1.
  rewrite Hpages. unfold emit at 1, ret at 1. cbv beta iota.
  unfold bind at 1. rewrite collect_pages_run. simpl app.
  destruct (page_keys pages);
    unfold bind, print, emit, sys_exit, ret, record_events; simpl;
    by rewrite <- app_assoc.
Qed.

(** ** Upload keys *)

Lemma replace_append (a b : ascii) (x y : string) :
  Py.replace a b (x +:+ y) = Py.replace a b x +:+ Py.replace a b y.
Proof.
  induction x as [|c x IH]; [done|].
  change (String (if Ascii.eqb c a then b else c) (Py.replace a b (x +:+ y))
          = String (if Ascii.eqb c a then b else c) (Py.replace a b x +:+ Py.replace a b y)).
  by rewrite IH.
Qed.

Lemma split_startswith (c : ascii) (s : string) :
  Forall (fun x => Py.startswith c x = false) (Py.split c s).
Proof.
  induction s as [|a s IH]; simpl.
  - by repeat constructor.
  - destruct (Ascii.eqb a c) eqn:Hac.
    + by constructor.
    + destruct (Py.split c s) as [|x xs]; [by repeat constructor|].
      apply Forall_cons in IH as [_ IH]. by constructor.
Qed.

Lemma relpath_relative (path start : string) :
  Py.startswith "/" (Py.relpath path start) = false.
Proof.
  unfold Py.relpath. cbv zeta.
  set (P := fun x : string => x <> "" /\ Py.startswith "/" x = false).
  assert (Hfilter : forall l,
             Forall (fun x => Py.startswith "/" x = false) l ->
             Forall P (List.filter (fun x : string => negb (String.eqb x "")) l)).
  { induction 1 as [|x l Hx Hl IH]; simpl; [constructor|].
    destruct (String.eqb_spec x ""); simpl; [done|]. by constructor. }
  assert (Hrepeat : forall k, Forall P (repeat ".." k)).
  { induction k; simpl; constructor; by try split. }
  match goal with
  | |- Py.startswith _ (match ?l with _ => _ end) = _ =>
      assert (Hrel : Forall P l); [|destruct l as [|x rest]]
  end.
  - apply Forall_app. split; [apply Hrepeat|].
    apply Forall_drop, Hfilter, split_startswith.
  - done.
  - apply Forall_cons in Hrel as [[Hne Hx] _].
    rewrite join_cons, startswith_append; done.
Qed.

(** The key of a file: the prefix, a ["/"] unless the prefix is empty or
    ends with one, and the path of the file from the folder; every backslash
    of the whole replaced by ["/"]. *)
Lemma upload_key_spec (prefix folder full : string) :
  upload_key prefix folder full
  = Py.replace "\" "/" prefix
    +:+ (if (String.eqb prefix "" || Py.endswith "/" prefix)%bool then "" else "/")
    +:+ Py.replace "\" "/" (Py.relpath full folder).
Proof.
  unfold upload_key, Py.path_join. rewrite relpath_relative.
  destruct (String.eqb prefix "" || Py.endswith "/" prefix)%bool;
    by rewrite !replace_append.
Qed.

Lemma is_image_spec (f : string) :
  is_image f = true <-> Py.lower (Py.splitext f).2 ∈ [".jpg"; ".jpeg"; ".png"].
Proof.
  unfold is_image, IMAGE_EXTS. rewrite bool_decide_eq_true.
  rewrite !elem_of_union, !elem_of_singleton, !elem_of_cons, elem_of_nil. tauto.
Qed.

Lemma uploads_of_events (prefix folder bucket : string) (m : list (string * string)) :
  omap upload_of (flat_map (upload_events prefix folder bucket) m)
  = map (fun rf => (Py.path_join rf.1 rf.2, bucket,
                    upload_key prefix folder (Py.path_join rf.1 rf.2))) m.
Proof. induction m as [|rf m IH]; [done|]. simpl. f_equal. exact IH. Qed.

(** ** Uploader *)

(** C5, as stated, fails: on a directory holding [a.jpg], [b.png] and [c.txt]
    the uploader uploads the two images, skips [c.txt] and prints the count
    2, but the value it returns is [None], not the count. *)
Lemma uploader_returns_no_count :
  let run := upload_folder_to_s3 os_abc s3_ok "/srv/images" "bucket" "images/" w0 in
  new_events w0 run.2
  = [EUpload "/srv/images/a.jpg" "bucket" "images/a.jpg";
     EPrint (MsgUploaded "bucket" "images/a.jpg");
     EUpload "/srv/images/b.png" "bucket" "images/b.png";
     EPrint (MsgUploaded "bucket" "images/b.png");
     EPrint (MsgUploadedCount 2)]
  /\ run.1 = Ret PyNone
  /\ run.1 <> Ret (PyInt 2).
Proof. vm_compute. repeat split. discriminate. Qed.

(** C5, amended. On a folder that is a directory, the uploader exits with
    status 1 exactly when no file matched, having printed that no image was
    found; and whenever it returns, it returns [None], has uploaded as many
    files as matched, and the last line it printed reports that count. *)
Theorem uploader_reports_count (os : OsEnv) (s3_client : S3Client)
    (folder bucket prefix : string) (w : world) (tree : dirtree) :
  dir_at os (abspath os folder) = Some tree ->
  let run := upload_folder_to_s3 os s3_client folder bucket prefix w in
  let matched := matching_files (abspath os folder) tree in
  (run.1 = Exit 1 <-> matched = [])
  /\ (matched = [] -> new_events w run.2 = [EPrint MsgNoImagesToUpload])
  /\ (forall v, run.1 = Ret v ->
        v = PyNone
        /\ length (omap upload_of (new_events w run.2)) = length matched
        /\ last (new_events w run.2)
           = Some (EPrint (MsgUploadedCount (Z.of_nat (length matched))))).
Proof.
  intros Hdir run matched.
  destruct (upload_folder_to_s3_run os s3_client folder bucket prefix w tree Hdir)
    as [[Hm Hrun]|[[Hm Hrun]|(Hm & e & w' & full & key & Hrun & _)]];
    fold run matched in Hm, Hrun; rewrite Hrun; cbn [fst snd].
  - rewrite new_events_record. split_and!; try done; intros v Hv; discriminate Hv.
  - rewrite new_events_record. split_and!.
    + split; [discriminate|done].
    + done.
    + intros v [= <-]. split; [done|].
      rewrite omap_app, uploads_of_events, last_snoc. simpl.
      by rewrite app_nil_r, length_map.
  - split_and!.
    + split; [discriminate|done].
    + done.
    + intros v Hv. discriminate Hv.
Qed.

Lemma uploader_reports_count_witness :
  let run := upload_folder_to_s3 os_abc s3_ok "/srv/images" "bucket" "images/" w0 in
  let matched := matching_files "/srv/images"
                   (DirNode ["a.jpg"; "b.png"; "c.txt"] []) in
  (run.1 = Exit 1 <-> matched = [])
  /\ (matched = [] -> new_events w0 run.2 = [EPrint MsgNoImagesToUpload])
  /\ (forall v, run.1 = Ret v ->
        v = PyNone
        /\ length (omap upload_of (new_events w0 run.2)) = length matched
        /\ last (new_events w0 run.2)
           = Some (EPrint (MsgUploadedCount (Z.of_nat (length matched))))).
Proof.
  apply (uploader_reports_count os_abc s3_ok "/srv/images" "bucket" "images/" w0
           (DirNode ["a.jpg"; "b.png"; "c.txt"] [])).
  reflexivity.
Defined.

(** ** Batch Runner: a batch in which every call fails *)

(** C8, as stated, fails: when every call fails with an exception other
    than a remote-service error (the service cannot be reached), the run is
    aborted at the first key and writes no JSON file. *)
Lemma unreachable_service_aborts_batch :
  let run := bulk_detect_and_save rekog_unreachable "bucket" keys_abc "out" 10 70 w0 in
  forallb (fun key => negb (succeeded rekog_unreachable "bucket" 10 70 key)) keys_abc = true
  /\ run.1 = Raise (OtherException "EndpointConnectionError")
  /\ omap detect_key (new_events w0 run.2) = ["images/a.jpg"]
  /\ file_at run.2 "out/labels.csv" = Some (CsvDoc [csv_header])
  /\ file_at run.2 "out/labels.json" = None.
Proof. vm_compute. repeat split. Qed.

(** C8, amended. If every detector call of a batch fails with a
    remote-service error, the batch runner returns both paths exactly when
    its outputs can be written, and then the output directory exists, the
    JSON document holds no record and the CSV document only its header.
    The lister, by contrast, exits with status 1 when no listed key is an
    image, and so does the uploader when no file of the folder is one. *)
Theorem all_failed_batch_writes_empty_outputs (rekog_client : RekogClient)
    (bucket : string) (keys : list string) (out_dir : string) (max_labels : Z)
    (min_conf : Q) (w : world) :
  (forall key, key ∈ keys ->
     exists r, detect_labels rekog_client bucket key max_labels min_conf
               = Raises (ClientError r)) ->
  let run := bulk_detect_and_save rekog_client bucket keys out_dir max_labels min_conf w in
  let json_path := Py.path_join out_dir "labels.json" in
  let csv_path := Py.path_join out_dir "labels.csv" in
  (run.1 = Ret (json_path, csv_path) <-> can_save out_dir w = true)
  /\ (can_save out_dir w = true ->
      is_dir run.2 (Fs.locate out_dir) = true
      /\ file_at run.2 json_path = Some (JsonDoc [])
      /\ file_at run.2 csv_path = Some (CsvDoc [csv_header]))
  /\ (forall s3_client bucket' prefix pages w1,
        paginate_list_objects_v2 s3_client bucket' prefix = Ok pages ->
        page_keys pages = [] ->
        (list_s3_images s3_client bucket' prefix w1).1 = Exit 1)
  /\ (forall os s3_client folder bucket' prefix tree w1,
        dir_at os (abspath os folder) = Some tree ->
        matching_files (abspath os folder) tree = [] ->
        (upload_folder_to_s3 os s3_client folder bucket' prefix w1).1 = Exit 1).
Proof.
  intros Hfail run json_path csv_path.
  assert (Hrec : Forall (fun key => recoverable rekog_client bucket max_labels min_conf key
                                    = true) keys).
  { apply Forall_forall. intros key Hkey. destruct (Hfail key Hkey) as [r Hr].
    unfold recoverable. by rewrite Hr. }
  assert (Hnone : successes rekog_client bucket max_labels min_conf keys = []).
  { unfold successes. clear Hrec run. induction keys as [|key keys IH]; [done|].
    simpl. destruct (Hfail key) as [r Hr]; [by left|].
    unfold detected at 1. rewrite Hr. apply IH.
    intros key' Hkey'. apply Hfail. by right. }
  split; [|split; [|split]].
  - split.
    + by intros (Hsave & _)%bulk_detect_and_save_ret.
    + intros Hsave. subst run.
      by rewrite (bulk_detect_and_save_saved _ _ _ _ keys out_dir w Hsave Hrec).
  - intros Hsave. subst run.
    rewrite (bulk_detect_and_save_saved _ _ _ _ keys out_dir w Hsave Hrec), Hnone.
    unfold file_at. cbn [snd files]. split; [|split].
    + apply can_save_true in Hsave as (Hmade & _).
      destruct (makedirs out_dir w) as [[[]| |] w1] eqn:Hrun; try discriminate Hmade.
      apply makedirs_ret in Hrun as (_ & _ & _ & Hdir).
      by rewrite (is_dir_ext _ w1).
    + apply lookup_insert_eq.
    + rewrite lookup_insert_ne by apply output_places_differ. apply lookup_insert_eq.
  - intros s3_client bucket' prefix pages w1 Hpages Hkeys.
    by rewrite (list_s3_images_run _ _ _ _ _ Hpages), Hkeys.
  - intros os s3_client folder bucket' prefix tree w1 Htree Hm.
    destruct (upload_folder_to_s3_run os s3_client folder bucket' prefix w1 tree Htree)
      as [[_ Hrun]|[[Hne _]|[Hne _]]]; [by rewrite Hrun|done..].
Qed.

Lemma all_failed_batch_writes_empty_outputs_witness :
  let run := bulk_detect_and_save rekog_down "bucket" keys_abc "out" 10 70 w0 in
  (run.1 = Ret ("out/labels.json", "out/labels.csv") <-> can_save "out" w0 = true)
  /\ (can_save "out" w0 = true ->
      is_dir run.2 (Fs.locate "out") = true
      /\ file_at run.2 "out/labels.json" = Some (JsonDoc [])
      /\ file_at run.2 "out/labels.csv" = Some (CsvDoc [csv_header]))
  /\ (forall s3_client bucket' prefix pages w1,
        paginate_list_objects_v2 s3_client bucket' prefix = Ok pages ->
        page_keys pages = [] ->
        (list_s3_images s3_client bucket' prefix w1).1 = Exit 1)
  /\ (forall os s3_client folder bucket' prefix tree w1,
        dir_at os (abspath os folder) = Some tree ->
        matching_files (abspath os folder) tree = [] ->
        (upload_folder_to_s3 os s3_client folder bucket' prefix w1).1 = Exit 1).
Proof.
  apply (all_failed_batch_writes_empty_outputs rekog_down "bucket" keys_abc "out" 10 70 w0).
  intros key _. by eexists.
Defined.

(** Where the outputs cannot be written, the batch runner is left by the
    error of the file system before it calls the detector: with no name for
    the output directory, with a file where the directory should be, with a
    directory where the CSV file should be. *)
Example batch_needs_its_output_directory :
  let run := bulk_detect_and_save rekog_demo "bucket" keys_abc "" 10 70 w0 in
  can_save "" w0 = false /\ run.1 = Raise FileNotFoundError /\ run.2 = w0.
Proof. by vm_compute. Qed.

Example batch_stopped_by_file_at_out :
  let run := bulk_detect_and_save rekog_demo "bucket" keys_abc "out" 10 70 w_file_at_out in
  can_save "out" w_file_at_out = false
  /\ run.1 = Raise FileExistsError /\ run.2 = w_file_at_out.
Proof. by vm_compute. Qed.

Example batch_stopped_by_directory_at_csv :
  let w := {| dirs := {[ (false, ["out"]); (false, ["out"; "labels.csv"]) ]};
              files := ∅; trace := [] |} in
  let run := bulk_detect_and_save rekog_demo "bucket" keys_abc "out" 10 70 w in
  can_save "out" w = false /\ run.1 = Raise IsADirectoryError /\ new_events w run.2 = [].
Proof. by vm_compute. Qed.

(** [os.makedirs] makes the directories on the way: for [a/b] both [a] and
    [a/b], and the files of the run are in the second. *)
Example batch_makes_nested_directories :
  let run := bulk_detect_and_save rekog_down "bucket" keys_abc "a/b" 10 70 w0 in
  run.1 = Ret ("a/b/labels.json", "a/b/labels.csv")
  /\ dirs run.2 = {[ (false, ["a"]); (false, ["a"; "b"]) ]}
  /\ file_at run.2 "a/b/labels.json" = Some (JsonDoc []).
Proof. by vm_compute. Qed.

(** A path can lead back into what it has just made: with the output
    directory [labels.csv/..] the directory [labels.csv] is made, and the
    CSV file of that name cannot be opened. *)
Example batch_output_directory_in_the_way :
  let run := bulk_detect_and_save rekog_demo "bucket" keys_abc "labels.csv/.." 10 70 w0 in
  can_save "labels.csv/.." w0 = false /\ run.1 = Raise IsADirectoryError.
Proof. by vm_compute. Qed.

Example lister_exits_on_no_image :
  let run := list_s3_images s3_ok "bucket" "images/" w0 in
  run.1 = Exit 1
  /\ new_events w0 run.2 = [EListObjects "bucket" "images/"; EPrint MsgNoImagesInS3].
Proof. by vm_compute. Qed.

Example uploader_exits_on_no_image :
  let run := upload_folder_to_s3 os_notes s3_ok "/srv/notes" "bucket" "images/" w0 in
  run.1 = Exit 1 /\ new_events w0 run.2 = [EPrint MsgNoImagesToUpload].
Proof. by vm_compute. Qed.

(** ** Batch Runner: runs cut short, and what a run leaves alone *)

(** X1. When the batch runner can open its CSV file, and the call for a key
    raises an exception other than a remote-service error after calls that
    succeeded or failed with one, the run is left with that exception: the
    CSV document holds the header and the rows of the keys before, the JSON
    path is left as it was, the detector was called on the keys up to that
    one and on none after it, and nothing was printed about saved files. *)
Theorem uncaught_exception_leaves_csv_without_json (rekog_client : RekogClient)
    (bucket : string) (pre post : list string) (K : string) (what : string)
    (out_dir : string) (max_labels : Z) (min_conf : Q) (w : world) :
  can_open_csv out_dir w = true ->
  Forall (fun key => recoverable rekog_client bucket max_labels min_conf key = true) pre ->
  detect_labels rekog_client bucket K max_labels min_conf
    = Raises (OtherException what) ->
  let run := bulk_detect_and_save rekog_client bucket (pre ++ K :: post) out_dir
               max_labels min_conf w in
  let json_path := Py.path_join out_dir "labels.json" in
  let csv_path := Py.path_join out_dir "labels.csv" in
  run.1 = Raise (OtherException what)
  /\ file_at run.2 csv_path
     = Some (CsvDoc (csv_header
                     :: flat_map result_rows
                          (successes rekog_client bucket max_labels min_conf pre)))
  /\ file_at run.2 json_path = file_at w json_path
  /\ omap detect_key (new_events w run.2) = pre ++ [K]
  /\ (forall path, (EPrint (MsgSavedJson path) ∉ new_events w run.2)
                   /\ (EPrint (MsgSavedCsv path) ∉ new_events w run.2)).
Proof.
  intros [Hmade Hcsv]%can_open_csv_true Hpre HK run json_path csv_path. subst run.
  rewrite bulk_detect_and_save_general. cbv zeta. rewrite Hmade, Hcsv.
  destruct (reached_crash rekog_client bucket max_labels min_conf pre post K what Hpre HK)
    as (Hreach & Hcrash & Hsucc).
  rewrite Hcrash, Hreach, Hsucc. fold json_path csv_path. unfold file_at.
  cbn [fst snd files]. unfold new_events. cbn [trace]. rewrite drop_app_length.
  split; [done|]. split; [apply lookup_insert_eq|]. split.
  { apply lookup_insert_ne. intros Heq. by apply (output_places_differ out_dir). }
  split; [apply loop_events_calls|].
  intros path. split; intros Hin;
    apply loop_events_prints in Hin
      as [(j & key & [=] & _)|(key & r & [=] & _)].
Qed.

Lemma uncaught_exception_leaves_csv_without_json_witness :
  let run := bulk_detect_and_save rekog_flaky "bucket"
               (["images/a.jpg"] ++ "images/b.jpg" :: ["images/c.jpg"]) "out" 10 70 w0 in
  run.1 = Raise (OtherException "EndpointConnectionError")
  /\ file_at run.2 "out/labels.csv"
     = Some (CsvDoc (csv_header
                     :: flat_map result_rows
                          (successes rekog_flaky "bucket" 10 70 ["images/a.jpg"])))
  /\ file_at run.2 "out/labels.json" = file_at w0 "out/labels.json"
  /\ omap detect_key (new_events w0 run.2) = ["images/a.jpg"] ++ ["images/b.jpg"]
  /\ (forall path, (EPrint (MsgSavedJson path) ∉ new_events w0 run.2)
                   /\ (EPrint (MsgSavedCsv path) ∉ new_events w0 run.2)).
Proof.
  apply (uncaught_exception_leaves_csv_without_json rekog_flaky "bucket"
           ["images/a.jpg"] ["images/c.jpg"] "images/b.jpg" "EndpointConnectionError"
           "out" 10 70 w0).
  - reflexivity.
  - repeat constructor.
  - reflexivity.
Defined.

(** X2. Whatever the service answers and however the run ends, the batch
    runner changes no file other than its two output files, removes no
    directory, and makes no directory other than those on the way of the
    output directory (the directory itself and those above it that are
    missing). *)
Theorem batch_runner_touches_only_its_outputs (rekog_client : RekogClient)
    (bucket : string) (keys : list string) (out_dir : string) (max_labels : Z)
    (min_conf : Q) (w : world) (l : place) :
  l <> Fs.locate (Py.path_join out_dir "labels.json") ->
  l <> Fs.locate (Py.path_join out_dir "labels.csv") ->
  let run := bulk_detect_and_save rekog_client bucket keys out_dir max_labels min_conf w in
  files run.2 !! l = files w !! l
  /\ dirs w ⊆ dirs run.2
  /\ (forall d, d ∈ dirs run.2 -> d ∈ dirs w \/ d ∈ Fs.on_the_way out_dir).
Proof.
  intros Hjson Hcsv run.
  destruct (makedirs_frame out_dir w) as (Hfiles & _ & Hsub & Hnew & _).
  assert (Hrun : files run.2 !! l = files w !! l
                 /\ dirs run.2 = dirs (makedirs out_dir w).2).
  { subst run. rewrite bulk_detect_and_save_general. cbv zeta.
    destruct (makedirs out_dir w) as [[[]|c|e] w1]; cbn [fst snd] in *;
      [|by rewrite Hfiles..].
    destruct (is_dir w1 (Fs.locate (Py.path_join out_dir "labels.csv")));
      [cbn [snd]; by rewrite Hfiles|].
    destruct (crash _ _ _ _ _);
      [|destruct (is_dir w1 (Fs.locate (Py.path_join out_dir "labels.json")))];
      cbn [snd files dirs]; by rewrite ?lookup_insert_ne by done. }
  destruct Hrun as [Hl Hd]. rewrite Hd. done.
Qed.

Lemma batch_runner_touches_only_its_outputs_witness :
  let run := bulk_detect_and_save rekog_demo "bucket" keys_abc "out" 10 70 w0 in
  let l := Fs.locate "out/report.html" in
  files run.2 !! l = files w0 !! l
  /\ dirs w0 ⊆ dirs run.2
  /\ (forall d, d ∈ dirs run.2 -> d ∈ dirs w0 \/ d ∈ Fs.on_the_way "out").
Proof.
  apply (batch_runner_touches_only_its_outputs rekog_demo "bucket" keys_abc "out" 10 70 w0
           (Fs.locate "out/report.html")); by vm_compute.
Defined.

(** X3. The output documents are overwritten, never merged: from two worlds
    in which the outputs can be written, a run has the same outcome and the
    same events and leaves the same CSV document, and the same JSON document
    when it returns, whatever the files held before. *)
Theorem batch_outputs_overwritten (rekog_client : RekogClient) (bucket : string)
    (keys : list string) (out_dir : string) (max_labels : Z) (min_conf : Q)
    (w1 w2 : world) :
  can_save out_dir w1 = true ->
  can_save out_dir w2 = true ->
  let run1 := bulk_detect_and_save rekog_client bucket keys out_dir max_labels min_conf w1 in
  let run2 := bulk_detect_and_save rekog_client bucket keys out_dir max_labels min_conf w2 in
  let json_path := Py.path_join out_dir "labels.json" in
  let csv_path := Py.path_join out_dir "labels.csv" in
  run1.1 = run2.1
  /\ file_at run1.2 csv_path = file_at run2.2 csv_path
  /\ (forall paths, run1.1 = Ret paths ->
        file_at run1.2 json_path = file_at run2.2 json_path)
  /\ new_events w1 run1.2 = new_events w2 run2.2.
Proof.
  intros (Hmade1 & Hcsv1 & Hjson1)%can_save_true (Hmade2 & Hcsv2 & Hjson2)%can_save_true.
  intros run1 run2 json_path csv_path. subst run1 run2.
  rewrite !bulk_detect_and_save_general. cbv zeta.
  rewrite Hmade1, Hmade2, Hcsv1, Hcsv2, Hjson1, Hjson2.
  fold json_path csv_path. unfold file_at.
  pose proof (output_places_differ out_dir) as Hne. fold json_path csv_path in Hne.
  destruct (crash _ _ _ _ _); cbn [fst snd files]; unfold new_events; cbn [trace];
    rewrite <- ?app_assoc, !drop_app_length.
  - split; [done|]. split; [by rewrite !lookup_insert_eq|]. split; [|done].
    by intros paths [=].
  - split; [done|]. split.
    { rewrite !(lookup_insert_ne _ (Fs.locate json_path)) by done.
      by rewrite !lookup_insert_eq. }
    split; [|done]. intros paths _. by rewrite !lookup_insert_eq.
Qed.

Lemma batch_outputs_overwritten_witness :
  let stale := {| dirs := {[ (false, ["out"]) ]};
                  files := {[ (false, ["out"; "labels.json"]) := JsonDoc [];
                              (false, ["out"; "labels.csv"]) := CsvDoc [csv_header; []] ]};
                  trace := [EPrint MsgNoImagesInS3] |} in
  let run1 := bulk_detect_and_save rekog_demo "bucket" keys_abc "out" 10 70 w0 in
  let run2 := bulk_detect_and_save rekog_demo "bucket" keys_abc "out" 10 70 stale in
  run1.1 = run2.1
  /\ file_at run1.2 "out/labels.csv" = file_at run2.2 "out/labels.csv"
  /\ (forall paths, run1.1 = Ret paths ->
        file_at run1.2 "out/labels.json" = file_at run2.2 "out/labels.json")
  /\ new_events w0 run1.2 = new_events stale run2.2.
Proof.
  apply (batch_outputs_overwritten rekog_demo "bucket" keys_abc "out" 10 70 w0
           {| dirs := {[ (false, ["out"]) ]};
              files := {[ (false, ["out"; "labels.json"]) := JsonDoc [];
                          (false, ["out"; "labels.csv"]) := CsvDoc [csv_header; []] ]};
              trace := [EPrint MsgNoImagesInS3] |}); reflexivity.
Defined.

(** X4. The lines the batch runner prints in its loop tell what happened: a
    line "[i/n] Labeled: key" is printed only for the [i]-th key of the
    sequence, counted from 1 whether or not earlier calls failed, with [n]
    the length of the sequence and a call that succeeded; a line
    "Rekognition failed for key" only for a key of the sequence whose call
    raised the remote-service error shown. *)
Theorem batch_progress_lines_are_true (rekog_client : RekogClient) (bucket : string)
    (keys : list string) (out_dir : string) (max_labels : Z) (min_conf : Q) (w : world) :
  let run := bulk_detect_and_save rekog_client bucket keys out_dir max_labels min_conf w in
  (forall i n key,
     EPrint (MsgLabeled i n key) ∈ new_events w run.2 ->
     n = length keys /\ (1 <= i)%nat /\ keys !! (i - 1)%nat = Some key
     /\ succeeded rekog_client bucket max_labels min_conf key = true)
  /\ (forall key r,
        EPrint (MsgRekogFailed key r) ∈ new_events w run.2 ->
        key ∈ keys
        /\ detect_labels rekog_client bucket key max_labels min_conf
           = Raises (ClientError r)).
Proof.
  intros run.
  destruct (bulk_detect_and_save_events rekog_client bucket max_labels min_conf
              keys out_dir w) as (called & tail & Hev & Hcalled & Htail & _).
  fold run in Hev. rewrite Hev.
  assert (Hprefix : exists rest, keys = called ++ rest).
  { destruct Hcalled as [->| ->]; [by exists keys|].
    apply (reached_prefix rekog_client bucket max_labels min_conf keys). }
  destruct Hprefix as [rest Hkeys].
  assert (Hsaved : forall m, EPrint m ∈ tail ->
                             exists path, m = MsgSavedJson path \/ m = MsgSavedCsv path).
  { intros m Hm. destruct Htail as [->| ->]; [by apply elem_of_nil in Hm|].
    apply elem_of_cons in Hm as [[= ->]|Hm]; [eauto|].
    apply elem_of_cons in Hm as [[= ->]|Hm]; [eauto|]. by apply elem_of_nil in Hm. }
  split.
  - intros i n key Hin. apply elem_of_app in Hin as [Hin|Hin].
    + apply loop_events_prints in Hin
        as [(j & k & [= -> -> ->] & Hj & Hk)|(k & r & [=] & _)].
      split; [done|]. split; [lia|]. split; [|done].
      replace (S j - 1)%nat with j by lia.
      rewrite Hkeys. by apply lookup_app_l_Some.
    + destruct (Hsaved _ Hin) as [path [[=]|[=]]].
  - intros key r Hin. apply elem_of_app in Hin as [Hin|Hin].
    + apply loop_events_prints in Hin
        as [(j & k & [=] & _)|(k & r' & [= -> ->] & Hk & Hr)].
      split; [|done]. rewrite Hkeys. apply elem_of_app. by left.
    + destruct (Hsaved _ Hin) as [path [[=]|[=]]].
Qed.

(** ** What a computation keeps and emits *)

Section Frames.
Context {A B : Type}.

Lemma keeps_store_ret (a : A) : keeps_store (ret a).
Proof. by intros w. Qed.

Lemma keeps_store_raise (e : exn) : keeps_store (raise (A := A) e).
Proof. by intros w. Qed.

Lemma keeps_store_exit (code : Z) : keeps_store (sys_exit (A := A) code).
Proof. by intros w. Qed.

Lemma keeps_store_bind (m : M A) (k : A -> M B) :
  keeps_store m -> (forall a, keeps_store (k a)) -> keeps_store (bind m k).
Proof.
  intros Hm Hk w. unfold bind. specialize (Hm w).
  destruct (m w) as [[a|c|e] w1]; simpl in *; [|done..].
  destruct Hm as [Hd0 Hf0]. destruct (Hk a w1) as [Hd Hf]. split; congruence.
Qed.

Lemma keeps_store_try (body : M A) (handler : ErrorResponse -> M A) :
  keeps_store body -> (forall r, keeps_store (handler r)) ->
  keeps_store (try_except_ClientError body handler).
Proof.
  intros Hb Hh w. unfold try_except_ClientError. specialize (Hb w).
  destruct (body w) as [[a|c|[r|what]] w1]; simpl in *; try done.
  destruct Hb as [Hd0 Hf0]. destruct (Hh r w1) as [Hd Hf]. split; congruence.
Qed.

Lemma emits_ret (P : event -> bool) (a : A) : emits P (ret a).
Proof. intros w. exists []. by rewrite app_nil_r. Qed.

Lemma emits_raise (P : event -> bool) (e : exn) : emits P (raise (A := A) e).
Proof. intros w. exists []. by rewrite app_nil_r. Qed.

Lemma emits_exit (P : event -> bool) (code : Z) : emits P (sys_exit (A := A) code).
Proof. intros w. exists []. by rewrite app_nil_r. Qed.

Lemma emits_bind (P : event -> bool) (m : M A) (k : A -> M B) :
  emits P m -> (forall a, emits P (k a)) -> emits P (bind m k).
Proof.
  intros Hm Hk w. unfold bind. destruct (Hm w) as (evs & Ht & HP).
  destruct (m w) as [[a|c|e] w1]; simpl in *; [|by exists evs..].
  destruct (Hk a w1) as (evs' & Ht' & HP').
  exists (evs ++ evs'). rewrite Ht', Ht, app_assoc, forallb_app, HP, HP'. done.
Qed.

Lemma emits_try (P : event -> bool) (body : M A) (handler : ErrorResponse -> M A) :
  emits P body -> (forall r, emits P (handler r)) ->
  emits P (try_except_ClientError body handler).
Proof.
  intros Hb Hh w. unfold try_except_ClientError. destruct (Hb w) as (evs & Ht & HP).
  destruct (body w) as [[a|c|[r|what]] w1]; simpl in *; try by exists evs.
  destruct (Hh r w1) as (evs' & Ht' & HP').
  exists (evs ++ evs'). rewrite Ht', Ht, app_assoc, forallb_app, HP, HP'. done.
Qed.

End Frames.

Lemma keeps_store_emit (e : event) : keeps_store (emit e).
Proof. by intros w. Qed.

Lemma emits_emit (P : event -> bool) (e : event) : P e = true -> emits P (emit e).
Proof. intros He w. exists [e]. simpl. by rewrite He. Qed.

Lemma keeps_store_remote {A} (request : event) (answer : call A) :
  keeps_store (remote request answer).
Proof.
  apply keeps_store_bind; [apply keeps_store_emit|].
  intros _. destruct answer; [apply keeps_store_ret|apply keeps_store_raise].
Qed.

Lemma emits_remote {A} (P : event -> bool) (request : event) (answer : call A) :
  P request = true -> emits P (remote request answer).
Proof.
  intros HP. apply emits_bind; [by apply emits_emit|].
  intros _. destruct answer; [apply emits_ret|apply emits_raise].
Qed.

Lemma keeps_store_for_each {A S} (l : list A) (body : S -> A -> M S) :
  (forall s x, keeps_store (body s x)) -> forall s, keeps_store (for_each l body s).
Proof.
  intros Hbody. induction l as [|x l IH]; intros s; simpl.
  - apply keeps_store_ret.
  - apply keeps_store_bind; [apply Hbody|apply IH].
Qed.

Lemma emits_for_each {A S} (P : event -> bool) (l : list A) (body : S -> A -> M S) :
  (forall s x, emits P (body s x)) -> forall s, emits P (for_each l body s).
Proof.
  intros Hbody. induction l as [|x l IH]; intros s; simpl.
  - apply emits_ret.
  - apply emits_bind; [apply Hbody|apply IH].
Qed.

Lemma emits_weaken {A} (P Q : event -> bool) (m : M A) :
  (forall e, P e = true -> Q e = true) -> emits P m -> emits Q m.
Proof.
  intros HPQ Hm w. destruct (Hm w) as (evs & Ht & HP). exists evs. split; [done|].
  apply forallb_forall. intros e He. apply HPQ.
  by eapply forallb_forall in HP.
Qed.

Lemma emits_new_events {A} (P : event -> bool) (m : M A) (w : world) :
  emits P m -> forallb P (new_events w (m w).2) = true.
Proof.
  intros Hm. destruct (Hm w) as (evs & Ht & HP).
  unfold new_events. by rewrite Ht, drop_app_length.
Qed.

(** ** The uploader in general *)

Section UploaderGeneral.
Variables (s3_client : S3Client) (folder bucket prefix : string).

Local Abbreviation one := (upload_one s3_client folder bucket prefix).
Local Abbreviation attempts := (upload_attempts s3_client prefix folder bucket).
Local Abbreviation failure := (upload_failure s3_client prefix folder bucket).
Local Abbreviation matching := (fun rf : string * string => is_image rf.2).

Lemma upload_attempts_app (l1 l2 : list (string * string)) :
  attempts (l1 ++ l2)
  = attempts l1 ++ match failure l1 with
                   | Some _ => []
                   | None => attempts l2
                   end
  /\ failure (l1 ++ l2) = match failure l1 with
                          | Some e => Some e
                          | None => failure l2
                          end.
Proof.
  induction l1 as [|rf l1 [IH1 IH2]]; [done|].
  simpl. destruct (upload_file _ _ _ _) as [[]|e]; simpl.
  - by rewrite IH1, IH2.
  - done.
Qed.

Lemma upload_attempts_all_ok (l : list (string * string)) :
  failure l = None -> attempts l = flat_map (upload_events prefix folder bucket) l.
Proof.
  induction l as [|rf l IH]; [done|].
  simpl. destruct (upload_file _ _ _ _) as [[]|e]; [|done].
  intros Hl. by rewrite IH.
Qed.

Lemma upload_files_general (root : string) (files : list string) :
  forall (uploaded : Z) (w : world),
    let l := map (pair root) (List.filter is_image files) in
    for_each files (one root) uploaded w
    = (match failure l with
       | None => Ret (uploaded + Z.of_nat (length l))
       | Some e => Raise e
       end, record_events (attempts l) w).
Proof.
  induction files as [|f files IH]; intros uploaded w l.
  - subst l. simpl. unfold ret. by rewrite Z.add_0_r, record_events_nil.
  - assert (Hstep : for_each (f :: files) (one root) uploaded w
                    = match one root uploaded f w with
                      | (Ret a, w') => for_each files (one root) a w'
                      | (Exit c, w') => (Exit c, w')
                      | (Raise e, w') => (Raise e, w')
                      end) by reflexivity.
    rewrite Hstep. clear Hstep. subst l. simpl List.filter.
    destruct (is_image f) eqn:Hf.
    + simpl map. simpl upload_failure. simpl upload_attempts.
      destruct (upload_file s3_client (Py.path_join root f) bucket
                  (upload_key prefix folder (Py.path_join root f))) as [[]|e] eqn:Hup.
      * rewrite (upload_one_ok _ _ _ _ _ _ _ _ Hf Hup), IH, record_events_app.
        simpl length. destruct (failure _); [done|]. f_equal. f_equal. lia.
      * unfold upload_one. rewrite Hf. cbv zeta. simpl negb. cbv iota.
        unfold bind at 1, remote, bind at 1. rewrite Hup. reflexivity.
    + rewrite (upload_one_skip _ _ _ _ _ _ _ _ Hf). apply IH.
Qed.

Lemma upload_walk_general (entries : list (string * list string * list string)) :
  forall (uploaded : Z) (w : world),
    let l := List.filter matching (flat_map files_of entries) in
    for_each entries (upload_dir s3_client folder bucket prefix) uploaded w
    = (match failure l with
       | None => Ret (uploaded + Z.of_nat (length l))
       | Some e => Raise e
       end, record_events (attempts l) w).
Proof.
  induction entries as [|[[root dirnames] files] entries IH]; intros uploaded w l.
  - subst l. simpl. unfold ret. by rewrite Z.add_0_r, record_events_nil.
  - assert (Hstep : for_each ((root, dirnames, files) :: entries)
                      (upload_dir s3_client folder bucket prefix) uploaded w
                    = match for_each files (one root) uploaded w with
                      | (Ret a, w') =>
                          for_each entries (upload_dir s3_client folder bucket prefix) a w'
                      | (Exit c, w') => (Exit c, w')
                      | (Raise e, w') => (Raise e, w')
                      end) by reflexivity.
    rewrite Hstep. clear Hstep. subst l.
    change (flat_map files_of ((root, dirnames, files) :: entries))
      with (files_of (root, dirnames, files) ++ flat_map files_of entries).
    rewrite List.filter_app, filter_files_of, upload_files_general.
    destruct (upload_attempts_app (map (pair root) (List.filter is_image files))
                (List.filter matching (flat_map files_of entries))) as [-> ->].
    destruct (failure (map (pair root) (List.filter is_image files))) as [e|].
    + by rewrite app_nil_r.
    + rewrite IH, record_events_app, length_app.
      destruct (failure _); [done|]. f_equal. f_equal. lia.
Qed.

End UploaderGeneral.

(** The uploader on any folder and any object store. *)
Lemma upload_folder_to_s3_general (os : OsEnv) (s3_client : S3Client)
    (folder bucket prefix : string) (w : world) :
  let top := abspath os folder in
  upload_folder_to_s3 os s3_client folder bucket prefix w
  = match dir_at os top with
    | None => (Exit 1, record_events [EPrint (MsgNotAFolder top)] w)
    | Some tree =>
        let m := matching_files top tree in
        match upload_failure s3_client prefix top bucket m with
        | Some e => (Raise e, record_events (upload_attempts s3_client prefix top bucket m) w)
        | None =>
            match m with
            | [] => (Exit 1, record_events [EPrint MsgNoImagesToUpload] w)
            | _ => (Ret PyNone,
                    record_events
                      (flat_map (upload_events prefix top bucket) m
                       ++ [EPrint (MsgUploadedCount (Z.of_nat (length m)))]) w)
            end
        end
    end.
Proof.
  intros top. unfold upload_folder_to_s3. cbv zeta. fold top.
  destruct (dir_at os top) as [tree|]; [|reflexivity].
  unfold bind at 1. rewrite upload_walk_general.
  fold (all_files top tree). fold (matching_files top tree).
  destruct (upload_failure _ _ _ _ _) as [e|] eqn:Hfail; [done|].
  rewrite (upload_attempts_all_ok _ _ _ _ _ Hfail), Z.add_0_l.
  destruct (matching_files top tree) as [|rf m]; [by rewrite record_events_nil|].
  destruct (Z.eqb_spec (Z.of_nat (length (rf :: m))) 0) as [H0|_]; [simpl in H0; lia|].
  unfold bind, print, emit, ret, record_events. cbn [dirs files trace].
  by rewrite <- app_assoc.
Qed.

Lemma upload_attempts_until_failure (s3_client : S3Client) (prefix folder bucket : string)
    (pre post : list (string * string)) (rf : string * string) (e : exn) :
  (forall rf', rf' ∈ pre ->
     upload_file s3_client (Py.path_join rf'.1 rf'.2) bucket
       (upload_key prefix folder (Py.path_join rf'.1 rf'.2)) = Ok tt) ->
  upload_file s3_client (Py.path_join rf.1 rf.2) bucket
    (upload_key prefix folder (Py.path_join rf.1 rf.2)) = Raises e ->
  upload_failure s3_client prefix folder bucket (pre ++ rf :: post) = Some e
  /\ upload_attempts s3_client prefix folder bucket (pre ++ rf :: post)
     = flat_map (upload_events prefix folder bucket) pre
       ++ [EUpload (Py.path_join rf.1 rf.2) bucket
             (upload_key prefix folder (Py.path_join rf.1 rf.2))].
Proof.
  intros Hpre Hrf. induction pre as [|rf' pre IH].
  - simpl. by rewrite Hrf.
  - destruct IH as [IH1 IH2]; [intros x Hx; apply Hpre; by right|].
    simpl. rewrite (Hpre rf') by by left. by rewrite IH1, IH2.
Qed.

(** ** Uploader: which files, under which keys *)

(** The uploads of the loops on the matching files [m]: those of the files
    up to and including the first whose upload raises, of all the files
    when none does. *)
Lemma uploads_of_attempts (s3_client : S3Client) (prefix folder bucket : string)
    (m : list (string * string)) :
  exists tried : list (string * string),
    omap upload_of (upload_attempts s3_client prefix folder bucket m)
    = map (fun rf => (Py.path_join rf.1 rf.2, bucket,
                      upload_key prefix folder (Py.path_join rf.1 rf.2))) tried
    /\ tried `prefix_of` m
    /\ (upload_failure s3_client prefix folder bucket m = None -> tried = m).
Proof.
  induction m as [|rf m (tried & Hup & Hpre & Hall)].
  - exists []. by split.
  - simpl. destruct (upload_file _ _ _ _) as [[]|e].
    + exists (rf :: tried).
      split; [simpl; f_equal; exact Hup|]. split; [by apply prefix_cons|].
      intros Hnone. by rewrite Hall.
    + exists [rf]. split; [done|]. split; [|done]. by exists m.
Qed.

Lemma upload_failure_none (s3_client : S3Client) (prefix folder bucket : string)
    (m : list (string * string)) :
  (forall rf, rf ∈ m ->
     upload_file s3_client (Py.path_join rf.1 rf.2) bucket
       (upload_key prefix folder (Py.path_join rf.1 rf.2)) = Ok tt) ->
  upload_failure s3_client prefix folder bucket m = None.
Proof.
  induction m as [|rf m IH]; [done|]. intros Hok.
  simpl. rewrite (Hok rf) by by left. apply IH. intros rf' Hrf'. apply Hok. by right.
Qed.

(** C6, as stated, fails: with the prefix [images] (no trailing slash) the
    file [a.jpg] is stored under [images/a.jpg], which is not the prefix
    followed by the relative path. *)
Lemma key_is_not_prefix_plus_relpath :
  let run := upload_folder_to_s3 os_abc s3_ok "/srv/images" "bucket" "images" w0 in
  let claimed := "images"
                 +:+ Py.replace "\" "/" (Py.relpath "/srv/images/a.jpg" "/srv/images") in
  omap upload_of (new_events w0 run.2)
  = [("/srv/images/a.jpg", "bucket", "images/a.jpg");
     ("/srv/images/b.png", "bucket", "images/b.png")]
  /\ claimed = "imagesa.jpg"
  /\ ("/srv/images/a.jpg", "bucket", claimed) ∉ omap upload_of (new_events w0 run.2).
Proof.
  split; [reflexivity|]. split; [reflexivity|].
  apply (bool_decide_unpack _). by vm_compute.
Qed.

(** C6, amended. On a folder that is a directory, every file the uploader
    uploads is a file of the tree whose lowercase extension is [.jpg],
    [.jpeg] or [.png], and the uploads are those files in traversal order,
    as far as the run goes: all of them unless an upload raises (which ends
    the run, so that the files after it are not uploaded).  Each is stored
    under the key [os.path.join(prefix, relative path)] with every backslash
    replaced by a slash: the prefix followed by the relative path when the
    prefix is empty or ends with a slash, and the prefix, a slash and the
    relative path otherwise. *)
Theorem uploads_are_the_image_files (os : OsEnv) (s3_client : S3Client)
    (folder bucket prefix : string) (w : world) (tree : dirtree) :
  dir_at os (abspath os folder) = Some tree ->
  let top := abspath os folder in
  let run := upload_folder_to_s3 os s3_client folder bucket prefix w in
  let uploads := omap upload_of (new_events w run.2) in
  let key_of := fun full =>
    Py.replace "\" "/" (Py.path_join prefix (Py.relpath full top)) in
  let wanted := fun f => Py.lower (Py.splitext f).2 ∈ [".jpg"; ".jpeg"; ".png"] in
  let images := List.filter (fun rf => bool_decide (wanted rf.2)) (all_files top tree) in
  let upload := fun rf : string * string =>
    (Py.path_join rf.1 rf.2, bucket, key_of (Py.path_join rf.1 rf.2)) in
  (exists tried : list (string * string),
     uploads = map upload tried
     /\ tried `prefix_of` images
     /\ ((forall e, run.1 <> Raise e) -> tried = images)
     /\ ((forall rf, rf ∈ images ->
            upload_file s3_client (Py.path_join rf.1 rf.2) bucket
              (key_of (Py.path_join rf.1 rf.2)) = Ok tt) -> tried = images))
  /\ ((forall e, run.1 <> Raise e) ->
      forall root f, (root, f) ∈ all_files top tree -> wanted f ->
                     upload (root, f) ∈ uploads)
  /\ (forall full b key, (full, b, key) ∈ uploads ->
        exists root f, (root, f) ∈ all_files top tree /\ wanted f
                       /\ full = Py.path_join root f /\ b = bucket /\ key = key_of full)
  /\ (forall full,
        key_of full
        = Py.replace "\" "/" prefix
          +:+ (if (String.eqb prefix "" || Py.endswith "/" prefix)%bool then "" else "/")
          +:+ Py.replace "\" "/" (Py.relpath full top)).
Proof.
  intros Hdir top run uploads key_of wanted images upload.
  assert (Hfilter : images = matching_files top tree).
  { unfold images, matching_files. apply List.filter_ext. intros [root f]. simpl.
    destruct (is_image f) eqn:Hf.
    - apply bool_decide_eq_true. by apply is_image_spec.
    - apply bool_decide_eq_false. intros Hw. apply is_image_spec in Hw. congruence. }
  destruct (uploads_of_attempts s3_client prefix top bucket (matching_files top tree))
    as (tried & Hup & Hpre & Hall).
  assert (Hrun : uploads = map upload tried
                 /\ ((forall e, run.1 <> Raise e) ->
                     upload_failure s3_client prefix top bucket (matching_files top tree)
                     = None)).
  { subst uploads run. rewrite upload_folder_to_s3_general. cbv zeta.
    rewrite Hdir. fold top.
    destruct (upload_failure s3_client prefix top bucket (matching_files top tree))
      as [e|] eqn:Hfail.
    - cbn [fst snd]. rewrite new_events_record. split; [exact Hup|].
      intros Hnever. by destruct (Hnever e).
    - rewrite (Hall eq_refl). split; [|done].
      destruct (matching_files top tree) as [|rf m]; cbn [fst snd];
        rewrite new_events_record; [done|].
      rewrite omap_app, uploads_of_events. simpl. by rewrite app_nil_r. }
  destruct Hrun as [Huploads Hnever].
  assert (Hin : forall rf, rf ∈ tried -> rf ∈ all_files top tree /\ wanted rf.2).
  { intros rf Hrf. destruct Hpre as [rest Hrest].
    assert (Him : rf ∈ images) by (rewrite Hfilter, Hrest; apply elem_of_app; by left).
    unfold images in Him. apply list_elem_of_In, filter_In in Him as [Hall' Hw].
    split; [by apply list_elem_of_In|]. by apply bool_decide_eq_true in Hw. }
  split; [|split; [|split]].
  - exists tried. split; [exact Huploads|]. split; [by rewrite Hfilter|].
    split; [intros H; rewrite Hfilter; by apply Hall, Hnever|].
    intros Hok. rewrite Hfilter. apply Hall, upload_failure_none.
    intros rf Hrf. apply Hok. by rewrite Hfilter.
  - intros Hrunning root f Hfile Hw. rewrite Huploads, (Hall (Hnever Hrunning)).
    apply list_elem_of_In, in_map_iff. exists (root, f). split; [done|].
    rewrite <- Hfilter. unfold images. apply filter_In.
    split; [by apply list_elem_of_In|]. by apply bool_decide_eq_true.
  - intros full b key Hup'. rewrite Huploads in Hup'.
    apply list_elem_of_In, in_map_iff in Hup' as ([root f] & [= <- <- <-] & Hrf).
    apply list_elem_of_In, Hin in Hrf as [Hfile Hw]. by exists root, f.
  - intros full. apply upload_key_spec.
Qed.

Lemma uploads_are_the_image_files_witness :
  let top := "/srv/images" in
  let tree := DirNode ["a.jpg"; "b.png"; "c.txt"] [] in
  let run := upload_folder_to_s3 os_abc s3_full "/srv/images" "bucket" "images" w0 in
  let uploads := omap upload_of (new_events w0 run.2) in
  let key_of := fun full =>
    Py.replace "\" "/" (Py.path_join "images" (Py.relpath full top)) in
  let wanted := fun f => Py.lower (Py.splitext f).2 ∈ [".jpg"; ".jpeg"; ".png"] in
  let images := List.filter (fun rf => bool_decide (wanted rf.2)) (all_files top tree) in
  let upload := fun rf : string * string =>
    (Py.path_join rf.1 rf.2, "bucket", key_of (Py.path_join rf.1 rf.2)) in
  (exists tried : list (string * string),
     uploads = map upload tried
     /\ tried `prefix_of` images
     /\ ((forall e, run.1 <> Raise e) -> tried = images)
     /\ ((forall rf, rf ∈ images ->
            upload_file s3_full (Py.path_join rf.1 rf.2) "bucket"
              (key_of (Py.path_join rf.1 rf.2)) = Ok tt) -> tried = images))
  /\ ((forall e, run.1 <> Raise e) ->
      forall root f, (root, f) ∈ all_files top tree -> wanted f ->
                     upload (root, f) ∈ uploads)
  /\ (forall full b key, (full, b, key) ∈ uploads ->
        exists root f, (root, f) ∈ all_files top tree /\ wanted f
                       /\ full = Py.path_join root f /\ b = "bucket" /\ key = key_of full)
  /\ (forall full,
        key_of full
        = Py.replace "\" "/" "images"
          +:+ (if (String.eqb "images" "" || Py.endswith "/" "images")%bool
               then "" else "/")
          +:+ Py.replace "\" "/" (Py.relpath full top)).
Proof.
  apply (uploads_are_the_image_files os_abc s3_full "/srv/images" "bucket" "images" w0
           (DirNode ["a.jpg"; "b.png"; "c.txt"] [])).
  reflexivity.
Defined.

(** With an object store that takes [a.jpg] and refuses [b.png], the upload
    of [b.png] is tried and ends the run; with one that takes every upload,
    both images are uploaded. *)
Example uploads_stop_at_refused_upload :
  omap upload_of
    (new_events w0
       (upload_folder_to_s3 os_abc s3_full "/srv/images" "bucket" "images" w0).2)
  = [("/srv/images/a.jpg", "bucket", "images/a.jpg");
     ("/srv/images/b.png", "bucket", "images/b.png")]
  /\ (upload_folder_to_s3 os_abc s3_full "/srv/images" "bucket" "images" w0).1
     = Raise (OtherException "S3UploadFailedError").
Proof. by vm_compute. Qed.

(** ** Uploader: failures and exits *)

(** X5. When the upload of a matching file raises, the uploader is left with
    that exception at once: the matching files before it were uploaded and
    reported, the failing upload was attempted, no later file was, and no
    count was printed. *)
Theorem failed_upload_stops_uploader (os : OsEnv) (s3_client : S3Client)
    (folder bucket prefix : string) (w : world) (tree : dirtree)
    (pre post : list (string * string)) (rf : string * string) (e : exn) :
  let top := abspath os folder in
  let key_of := fun rf : string * string =>
    upload_key prefix top (Py.path_join rf.1 rf.2) in
  dir_at os top = Some tree ->
  matching_files top tree = pre ++ rf :: post ->
  (forall rf', rf' ∈ pre ->
     upload_file s3_client (Py.path_join rf'.1 rf'.2) bucket (key_of rf') = Ok tt) ->
  upload_file s3_client (Py.path_join rf.1 rf.2) bucket (key_of rf) = Raises e ->
  let run := upload_folder_to_s3 os s3_client folder bucket prefix w in
  run.1 = Raise e
  /\ new_events w run.2
     = flat_map (fun rf' => [EUpload (Py.path_join rf'.1 rf'.2) bucket (key_of rf');
                             EPrint (MsgUploaded bucket (key_of rf'))]) pre
       ++ [EUpload (Py.path_join rf.1 rf.2) bucket (key_of rf)]
  /\ omap upload_of (new_events w run.2)
     = map (fun rf' => (Py.path_join rf'.1 rf'.2, bucket, key_of rf')) (pre ++ [rf]).
Proof.
  intros top key_of Hdir Hm Hpre Hrf run. subst run.
  rewrite upload_folder_to_s3_general. fold top. rewrite Hdir. cbv zeta. rewrite Hm.
  destruct (upload_attempts_until_failure s3_client prefix top bucket pre post rf e
              Hpre Hrf) as [-> ->].
  cbn [fst snd]. rewrite new_events_record. split; [done|]. split; [done|].
  rewrite omap_app, uploads_of_events, map_app. done.
Qed.

Lemma failed_upload_stops_uploader_witness :
  let run := upload_folder_to_s3 os_abc s3_full "/srv/images" "bucket" "images/" w0 in
  run.1 = Raise (OtherException "S3UploadFailedError")
  /\ new_events w0 run.2
     = [EUpload "/srv/images/a.jpg" "bucket" "images/a.jpg";
        EPrint (MsgUploaded "bucket" "images/a.jpg");
        EUpload "/srv/images/b.png" "bucket" "images/b.png"]
  /\ omap upload_of (new_events w0 run.2)
     = [("/srv/images/a.jpg", "bucket", "images/a.jpg");
        ("/srv/images/b.png", "bucket", "images/b.png")].
Proof.
  apply (failed_upload_stops_uploader os_abc s3_full "/srv/images" "bucket" "images/" w0
           (DirNode ["a.jpg"; "b.png"; "c.txt"] [])
           [("/srv/images", "a.jpg")] [] ("/srv/images", "b.png")
           (OtherException "S3UploadFailedError")).
  - reflexivity.
  - reflexivity.
  - intros rf' Hrf'. apply list_elem_of_singleton in Hrf' as ->. reflexivity.
  - reflexivity.
Defined.

(** X6. The uploader exits only with status 1 and only before any upload:
    either the folder is not a directory, and it said so, or the folder
    holds no matching file. *)
Theorem uploader_exits_before_any_upload (os : OsEnv) (s3_client : S3Client)
    (folder bucket prefix : string) (w : world) (code : Z) :
  let run := upload_folder_to_s3 os s3_client folder bucket prefix w in
  let top := abspath os folder in
  run.1 = Exit code ->
  code = 1
  /\ omap upload_of (new_events w run.2) = []
  /\ ((dir_at os top = None
       /\ new_events w run.2 = [EPrint (MsgNotAFolder top)])
      \/ (exists tree, dir_at os top = Some tree
                       /\ matching_files top tree = []
                       /\ new_events w run.2 = [EPrint MsgNoImagesToUpload])).
Proof.
  intros run top. subst run. rewrite upload_folder_to_s3_general. fold top.
  destruct (dir_at os top) as [tree|]; cbv zeta.
  - destruct (upload_failure _ _ _ _ _); [discriminate|].
    destruct (matching_files top tree) eqn:Hm; [|discriminate].
    cbn [fst snd]. rewrite new_events_record. intros [= <-].
    split; [done|]. split; [done|]. right. by exists tree.
  - cbn [fst snd]. rewrite new_events_record. intros [= <-].
    split; [done|]. split; [done|]. by left.
Qed.

Lemma uploader_exits_before_any_upload_witness :
  let run := upload_folder_to_s3 os_notes s3_ok "/srv/notes" "bucket" "images/" w0 in
  1 = 1
  /\ omap upload_of (new_events w0 run.2) = []
  /\ ((dir_at os_notes "/srv/notes" = None
       /\ new_events w0 run.2 = [EPrint (MsgNotAFolder "/srv/notes")])
      \/ (exists tree, dir_at os_notes "/srv/notes" = Some tree
                       /\ matching_files "/srv/notes" tree = []
                       /\ new_events w0 run.2 = [EPrint MsgNoImagesToUpload])).
Proof.
  apply (uploader_exits_before_any_upload os_notes s3_ok "/srv/notes" "bucket" "images/"
           w0 1).
  reflexivity.
Defined.

(** ** What the stages keep and emit *)

Lemma ensure_bucket_keeps_store (s3_client : S3Client) (bucket region : string) :
  keeps_store (ensure_bucket s3_client bucket region).
Proof.
  unfold ensure_bucket. apply keeps_store_try.
  - apply keeps_store_bind; [|intros _; apply keeps_store_emit].
    destruct (String.eqb region "us-east-1"); apply keeps_store_remote.
  - intros r. cbv zeta. case_bool_decide.
    + apply keeps_store_emit.
    + apply keeps_store_bind; [apply keeps_store_emit|intros _; apply keeps_store_exit].
Qed.

Lemma ensure_bucket_emits (s3_client : S3Client) (bucket region : string) :
  emits (fun e => is_create_bucket e || is_print e) (ensure_bucket s3_client bucket region).
Proof.
  unfold ensure_bucket. apply emits_try.
  - apply emits_bind; [|intros _; by apply emits_emit].
    destruct (String.eqb region "us-east-1"); by apply emits_remote.
  - intros r. cbv zeta. case_bool_decide.
    + by apply emits_emit.
    + apply emits_bind; [by apply emits_emit|intros _; apply emits_exit].
Qed.

Lemma upload_folder_keeps_store (os : OsEnv) (s3_client : S3Client)
    (folder bucket prefix : string) :
  keeps_store (upload_folder_to_s3 os s3_client folder bucket prefix).
Proof.
  intros w. rewrite upload_folder_to_s3_general. cbv zeta.
  destruct (dir_at os _); [|done].
  destruct (upload_failure _ _ _ _ _); [done|].
  by destruct (matching_files _ _).
Qed.

Lemma upload_attempts_kinds (s3_client : S3Client) (prefix folder bucket : string)
    (m : list (string * string)) :
  forallb (fun e => is_upload e || is_print e)
          (upload_attempts s3_client prefix folder bucket m) = true.
Proof.
  induction m as [|rf m IH]; [done|].
  simpl. by destruct (upload_file _ _ _ _).
Qed.

Lemma upload_folder_emits (os : OsEnv) (s3_client : S3Client)
    (folder bucket prefix : string) :
  emits (fun e => is_upload e || is_print e)
        (upload_folder_to_s3 os s3_client folder bucket prefix).
Proof.
  intros w. rewrite upload_folder_to_s3_general. cbv zeta.
  destruct (dir_at os _) as [tree|]; [|by eexists].
  destruct (upload_failure _ _ _ _ _) eqn:Hfail.
  - eexists. split; [done|]. apply upload_attempts_kinds.
  - destruct (matching_files _ _) as [|rf m] eqn:Hm; [by eexists|].
    eexists. split; [done|]. rewrite forallb_app.
    rewrite <- (upload_attempts_all_ok _ _ _ _ _ Hfail), upload_attempts_kinds. done.
Qed.

Lemma list_s3_images_keeps_store (s3_client : S3Client) (bucket prefix : string) :
  keeps_store (list_s3_images s3_client bucket prefix).
Proof.
  unfold list_s3_images. apply keeps_store_bind; [apply keeps_store_remote|].
  intros pages. apply keeps_store_bind.
  - apply keeps_store_for_each. intros keys page. unfold collect_page.
    apply keeps_store_for_each. intros keys' obj. unfold collect_object. cbv zeta.
    destruct (is_image _); apply keeps_store_ret.
  - intros [|key keys];
      (apply keeps_store_bind; [apply keeps_store_emit|intros _]);
      [apply keeps_store_exit|apply keeps_store_ret].
Qed.

Lemma list_s3_images_emits (s3_client : S3Client) (bucket prefix : string) :
  emits (fun e => is_list_objects e || is_print e)
        (list_s3_images s3_client bucket prefix).
Proof.
  unfold list_s3_images. apply emits_bind; [by apply emits_remote|].
  intros pages. apply emits_bind.
  - apply emits_for_each. intros keys page. unfold collect_page.
    apply emits_for_each. intros keys' obj. unfold collect_object. cbv zeta.
    destruct (is_image _); apply emits_ret.
  - intros [|key keys];
      (apply emits_bind; [by apply emits_emit|intros _]);
      [apply emits_exit|apply emits_ret].
Qed.

Lemma detect_labels_keeps_store (rekog_client : RekogClient) (bucket key : string)
    (max_labels : Z) (min_conf : Q) :
  keeps_store (detect_labels_for_s3_object rekog_client bucket key max_labels min_conf).
Proof.
  unfold detect_labels_for_s3_object.
  apply keeps_store_bind; [apply keeps_store_remote|intros resp; apply keeps_store_ret].
Qed.

Lemma loop_events_kinds (rekog_client : RekogClient) (bucket : string)
    (max_labels : Z) (min_conf : Q) (n : nat) (keys : list string) :
  forall i, forallb (fun e => is_detect e || is_sleep e || is_print e)
                    (loop_events rekog_client bucket max_labels min_conf n i keys) = true.
Proof.
  induction keys as [|key keys IH]; intros i; [done|].
  simpl. unfold key_events.
  destruct (detect_labels _ _ _ _ _) as [resp|[r|what]]; simpl; apply IH.
Qed.

Lemma bulk_detect_and_save_emits (rekog_client : RekogClient) (bucket : string)
    (keys : list string) (out_dir : string) (max_labels : Z) (min_conf : Q) :
  emits (fun e => is_detect e || is_sleep e || is_print e)
        (bulk_detect_and_save rekog_client bucket keys out_dir max_labels min_conf).
Proof.
  intros w.
  destruct (bulk_detect_and_save_trace rekog_client bucket max_labels min_conf
              keys out_dir w) as (called & tail & Ht & _ & Htail & _).
  eexists. split; [exact Ht|].
  rewrite forallb_app, loop_events_kinds. by destruct Htail as [->| ->].
Qed.

(** X7. The provisioner, the uploader, the lister and the detector write
    nothing to the local file system, whatever the services answer: the
    directories and files after a run are those before it. *)
Theorem remote_stages_write_no_file (os : OsEnv) (s3_client : S3Client)
    (rekog_client : RekogClient) (bucket region folder prefix key : string)
    (max_labels : Z) (min_conf : Q) (w : world) :
  let provisioned := ensure_bucket s3_client bucket region w in
  let uploaded := upload_folder_to_s3 os s3_client folder bucket prefix w in
  let listed := list_s3_images s3_client bucket prefix w in
  let detected := detect_labels_for_s3_object rekog_client bucket key
                    max_labels min_conf w in
  (dirs provisioned.2 = dirs w /\ files provisioned.2 = files w)
  /\ (dirs uploaded.2 = dirs w /\ files uploaded.2 = files w)
  /\ (dirs listed.2 = dirs w /\ files listed.2 = files w)
  /\ (dirs detected.2 = dirs w /\ files detected.2 = files w).
Proof.
  intros. split_and!.
  - apply ensure_bucket_keeps_store.
  - apply ensure_bucket_keeps_store.
  - apply upload_folder_keeps_store.
  - apply upload_folder_keeps_store.
  - apply list_s3_images_keeps_store.
  - apply list_s3_images_keeps_store.
  - apply detect_labels_keeps_store.
  - apply detect_labels_keeps_store.
Qed.

(** X8. Each stage makes the remote calls of its own kind only, whatever the
    services answer: besides printing, the provisioner only sends bucket
    creations, the uploader only uploads, the lister only listings, and the
    batch runner only label detections and sleeps. *)
Theorem stages_make_their_own_calls (os : OsEnv) (s3_client : S3Client)
    (rekog_client : RekogClient) (bucket region folder prefix out_dir : string)
    (keys : list string) (max_labels : Z) (min_conf : Q) (w : world) :
  let provisioned := ensure_bucket s3_client bucket region w in
  let uploaded := upload_folder_to_s3 os s3_client folder bucket prefix w in
  let listed := list_s3_images s3_client bucket prefix w in
  let labelled := bulk_detect_and_save rekog_client bucket keys out_dir
                    max_labels min_conf w in
  forallb (fun e => is_create_bucket e || is_print e) (new_events w provisioned.2) = true
  /\ forallb (fun e => is_upload e || is_print e) (new_events w uploaded.2) = true
  /\ forallb (fun e => is_list_objects e || is_print e) (new_events w listed.2) = true
  /\ forallb (fun e => is_detect e || is_sleep e || is_print e)
             (new_events w labelled.2) = true.
Proof.
  intros. split_and!.
  - apply emits_new_events, ensure_bucket_emits.
  - apply emits_new_events, upload_folder_emits.
  - apply emits_new_events, list_s3_images_emits.
  - apply emits_new_events, bulk_detect_and_save_emits.
Qed.

(** ** Provisioner and lister in general *)

(** X9. The provisioner sends exactly one creation request, before anything
    else, with no location constraint when the region is [us-east-1] and
    with the region as constraint otherwise; when the request succeeds it
    reports the creation and returns, and an exception that is not a
    remote-service error passes through it with nothing printed. *)
Theorem ensure_bucket_sends_one_request (s3_client : S3Client) (bucket region : string)
    (w : world) :
  let run := ensure_bucket s3_client bucket region w in
  let location := if decide (region = "us-east-1") then None else Some region in
  exists lines : list message,
    new_events w run.2 = ECreateBucket bucket location :: map EPrint lines
    /\ (length lines <= 1)%nat
    /\ (create_bucket s3_client bucket location = Ok tt ->
        run.1 = Ret tt /\ lines = [MsgCreatedBucket bucket])
    /\ (forall what,
          create_bucket s3_client bucket location = Raises (OtherException what) ->
          run.1 = Raise (OtherException what) /\ lines = []).
Proof.
  intros run location.
  assert (Hloc : location_constraint region = location).
  { unfold location_constraint. subst location.
    destruct (String.eqb_spec region "us-east-1"); by case_decide. }
  assert (Hrun : run = match create_bucket s3_client bucket location with
                       | Ok _ => (Ret tt,
                                  record_events [ECreateBucket bucket location;
                                                 EPrint (MsgCreatedBucket bucket)] w)
                       | Raises (ClientError e) =>
                           if bool_decide (error_code e
                                 ∈ ["BucketAlreadyOwnedByYou"; "BucketAlreadyExists"])
                           then (Ret tt,
                                 record_events [ECreateBucket bucket location;
                                                EPrint (MsgBucketExists bucket)] w)
                           else (Exit 1,
                                 record_events [ECreateBucket bucket location;
                                                EPrint (MsgCouldNotCreate e)] w)
                       | Raises (OtherException what) =>
                           (Raise (OtherException what),
                            record_events [ECreateBucket bucket location] w)
                       end).
  { subst run. rewrite <- Hloc. unfold ensure_bucket, location_constraint.
    unfold try_except_ClientError, bind at 1.
    destruct (String.eqb region "us-east-1");
      unfold remote, bind at 1, emit at 1;
      (destruct (create_bucket _ _ _) as [[]|[e|what]]);
      unfold raise, ret; cbv beta iota; try case_bool_decide;
      unfold bind, print, emit, sys_exit, record_events; cbn [dirs files trace];
      by rewrite <- ?app_assoc. }
  rewrite Hrun.
  destruct (create_bucket s3_client bucket location) as [[]|[e|what]].
  - exists [MsgCreatedBucket bucket]. cbn [fst snd]. rewrite new_events_record.
    split_and!; try done; simpl; lia.
  - case_bool_decide; eexists [_]; cbn [fst snd]; rewrite new_events_record;
      (split_and!; [done|simpl; lia|done|done]).
  - exists []. cbn [fst snd]. rewrite new_events_record.
    split_and!; try done; try (simpl; lia). by intros what' [= <-].
Qed.

Lemma list_s3_images_general (s3_client : S3Client) (bucket prefix : string) (w : world) :
  list_s3_images s3_client bucket prefix w
  = match paginate_list_objects_v2 s3_client bucket prefix with
    | Raises e => (Raise e, record_events [EListObjects bucket prefix] w)
    | Ok pages =>
        match page_keys pages with
        | [] => (Exit 1,
                 record_events [EListObjects bucket prefix; EPrint MsgNoImagesInS3] w)
        | keys => (Ret keys,
                   record_events [EListObjects bucket prefix;
                                  EPrint (MsgFound (length keys) bucket prefix)] w)
        end
    end.
Proof.
  destruct (paginate_list_objects_v2 s3_client bucket prefix) as [pages|e] eqn:Hpages.
  - by apply list_s3_images_run.
  - unfold list_s3_images, bind at 1, remote, bind at 1. by rewrite Hpages.
Qed.

Lemma filter_sublist {A} (f : A -> bool) (l : list A) : sublist (List.filter f l) l.
Proof.
  induction l as [|x l IH]; simpl; [constructor|].
  destruct (f x); by constructor.
Qed.

(** X10. When the lister returns, it returns the keys of the listed objects
    whose lowercase extension is [.jpg], [.jpeg] or [.png], in the order of
    the pages and of the objects in them: at least one key, each with such
    an extension and each a listed key; and it printed how many it found. *)
Theorem lister_returns_listed_images (s3_client : S3Client) (bucket prefix : string)
    (w : world) (keys : list string) :
  let run := list_s3_images s3_client bucket prefix w in
  run.1 = Ret keys ->
  exists pages,
    let listed := map Key (flat_map (fun page => default [] (Contents page)) pages) in
    paginate_list_objects_v2 s3_client bucket prefix = Ok pages
    /\ keys = List.filter is_image listed
    /\ keys <> []
    /\ sublist keys listed
    /\ (forall key, key ∈ keys <->
          key ∈ listed
          /\ Py.lower (Py.splitext key).2 ∈ [".jpg"; ".jpeg"; ".png"])
    /\ new_events w run.2
       = [EListObjects bucket prefix; EPrint (MsgFound (length keys) bucket prefix)].
Proof.
  intros run. subst run. rewrite list_s3_images_general.
  destruct (paginate_list_objects_v2 s3_client bucket prefix) as [pages|e];
    [|discriminate].
  unfold page_keys.
  destruct (List.filter _ _) as [|key0 keys0] eqn:Hkeys; [discriminate|].
  cbn [fst snd]. intros [= <-]. exists pages. cbv zeta.
  rewrite new_events_record, <- Hkeys.
  split_and!; try done.
  - by rewrite Hkeys.
  - apply filter_sublist.
  - intros key. rewrite <- is_image_spec, !list_elem_of_In, filter_In. tauto.
Qed.

Lemma lister_returns_listed_images_witness :
  let run := list_s3_images s3_listing "bucket" "images/" w0 in
  exists pages,
    let listed := map Key (flat_map (fun page => default [] (Contents page)) pages) in
    paginate_list_objects_v2 s3_listing "bucket" "images/" = Ok pages
    /\ ["images/a.jpg"; "images/sub/B.PNG"] = List.filter is_image listed
    /\ ["images/a.jpg"; "images/sub/B.PNG"] <> []
    /\ sublist ["images/a.jpg"; "images/sub/B.PNG"] listed
    /\ (forall key, key ∈ ["images/a.jpg"; "images/sub/B.PNG"] <->
          key ∈ listed
          /\ Py.lower (Py.splitext key).2 ∈ [".jpg"; ".jpeg"; ".png"])
    /\ new_events w0 run.2
       = [EListObjects "bucket" "images/";
          EPrint (MsgFound (length ["images/a.jpg"; "images/sub/B.PNG"])
                    "bucket" "images/")].
Proof.
  apply (lister_returns_listed_images s3_listing "bucket" "images/" w0
           ["images/a.jpg"; "images/sub/B.PNG"]).
  reflexivity.
Defined.

(** ** The extension filter and letter case *)

Lemma lower_ascii_eqb_slash (a : ascii) :
  Ascii.eqb (Py.lower_ascii a) "/" = Ascii.eqb a "/".
Proof. destruct a as [[] [] [] [] [] [] [] []]; reflexivity. Qed.

Lemma lower_ascii_eqb_dot (a : ascii) :
  Ascii.eqb (Py.lower_ascii a) "." = Ascii.eqb a ".".
Proof. destruct a as [[] [] [] [] [] [] [] []]; reflexivity. Qed.

Lemma lower_ascii_idemp (a : ascii) :
  Py.lower_ascii (Py.lower_ascii a) = Py.lower_ascii a.
Proof. destruct a as [[] [] [] [] [] [] [] []]; reflexivity. Qed.

Lemma lower_idemp (s : string) : Py.lower (Py.lower s) = Py.lower s.
Proof. induction s as [|a s IH]; simpl; [done|]. by rewrite lower_ascii_idemp, IH. Qed.

Lemma length_lower (s : string) : String.length (Py.lower s) = String.length s.
Proof. induction s as [|a s IH]; simpl; [done|]. by rewrite IH. Qed.

Lemma substring_lower (s : string) :
  forall n m, String.substring n m (Py.lower s) = Py.lower (String.substring n m s).
Proof.
  induction s as [|a s IH]; intros [|n] [|m]; simpl; try done.
  by rewrite IH.
Qed.

Lemma rfind_from_lower (c : ascii) (s : string) :
  (forall a, Ascii.eqb (Py.lower_ascii a) c = Ascii.eqb a c) ->
  forall i last, Py.rfind_from c (Py.lower s) i last = Py.rfind_from c s i last.
Proof.
  intros Hc. induction s as [|a s IH]; intros i last; simpl; [done|].
  by rewrite Hc, IH.
Qed.

Lemma existsb_not_dot_lower (s : string) :
  existsb (fun c => negb (Ascii.eqb c ".")) (list_ascii_of_string (Py.lower s))
  = existsb (fun c => negb (Ascii.eqb c ".")) (list_ascii_of_string s).
Proof. induction s as [|a s IH]; simpl; [done|]. by rewrite lower_ascii_eqb_dot, IH. Qed.

(** Splitting commutes with lowering. *)
Lemma splitext_lower (p : string) :
  Py.splitext (Py.lower p) = (Py.lower (Py.splitext p).1, Py.lower (Py.splitext p).2).
Proof.
  unfold Py.splitext, Py.rfind, Py.slice, Py.slice_to, Py.slice_from. cbv zeta.
  rewrite !rfind_from_lower
    by (apply lower_ascii_eqb_slash || apply lower_ascii_eqb_dot).
  rewrite !substring_lower, existsb_not_dot_lower, length_lower.
  by destruct (_ && _).
Qed.

(** X11. The extension filter of the uploader and of the lister does not
    look at letter case: two names that differ only in the case of their
    ASCII letters are both kept or both skipped. *)
Theorem extension_filter_ignores_case (f g : string) :
  Py.lower f = Py.lower g -> is_image f = is_image g.
Proof.
  intros Hfg.
  assert (Hlow : forall x, is_image (Py.lower x) = is_image x).
  { intros x. unfold is_image. rewrite splitext_lower. cbn [snd].
    by rewrite lower_idemp. }
  by rewrite <- (Hlow f), <- (Hlow g), Hfg.
Qed.

Lemma extension_filter_ignores_case_witness :
  is_image "Holiday.Jpeg" = is_image "HOLIDAY.JPEG".
Proof. apply (extension_filter_ignores_case "Holiday.Jpeg" "HOLIDAY.JPEG"). reflexivity. Defined.

(** ** Confidences *)

Lemma round2_range (x : Q) :
  (0 <= x)%Q -> (x <= 100)%Q -> (0 <= Py.round2 x)%Q /\ (Py.round2 x <= 100)%Q.
Proof.
  intros H0 H100.
  pose proof (round_half_even_near (x * 100)) as Hnear.
  unfold Py.round2. destruct x as [a d].
  cbn [Qmult Qnum Qden] in Hnear. cbv zeta in Hnear. rewrite Pos.mul_1_r in Hnear.
  set (n := Py.round_half_even _) in *.
  unfold Qle in *. cbn [Qnum Qden] in *.
  split; nia.
Qed.

Lemma round2_hundredths (n : Z) : Py.round2 (n # 100) = n # 100.
Proof.
  unfold Py.round2, Py.round_half_even. cbn [Qmult Qnum Qden].
  change (Z.pos (100 * 1)) with 100.
  rewrite Z_div_mult, Z_mod_mult by lia. reflexivity.
Qed.

(** X12. The detector keeps confidences in range and is stable on its own
    output: when every confidence of the service's response lies between 0
    and 100, so does every confidence of the record returned; and rounding a
    confidence that the detector has produced gives it back unchanged. *)
Theorem detector_confidences_in_range (rekog_client : RekogClient)
    (bucket key : string) (max_labels : Z) (min_conf : Q) (w : world)
    (resp : DetectResponse) :
  detect_labels rekog_client bucket key max_labels min_conf = Ok resp ->
  (forall lab, lab ∈ default [] (Labels resp) ->
     (0 <= Confidence lab)%Q /\ (Confidence lab <= 100)%Q) ->
  let run := detect_labels_for_s3_object rekog_client bucket key max_labels min_conf w in
  exists res : LabelResult,
    run.1 = Ret res
    /\ forall out, out ∈ labels res ->
         (0 <= confidence out)%Q /\ (confidence out <= 100)%Q
         /\ Py.round2 (confidence out) = confidence out.
Proof.
  intros Hans Hrange run. eexists. split.
  { subst run. unfold detect_labels_for_s3_object, bind at 1, remote, bind at 1.
    rewrite Hans. reflexivity. }
  cbn [labels]. intros out Hout.
  apply list_elem_of_In, in_map_iff in Hout as (lab & <- & Hlab).
  apply list_elem_of_In in Hlab. destruct (Hrange lab Hlab) as [H0 H100].
  cbn [normalize_label confidence].
  destruct (round2_range _ H0 H100) as [Hlo Hhi].
  split; [done|]. split; [done|].
  unfold Py.round2 at 2 3. apply round2_hundredths.
Qed.

Lemma detector_confidences_in_range_witness :
  let run := detect_labels_for_s3_object rekog_demo "bucket" "images/a.jpg" 10 70 w0 in
  exists res : LabelResult,
    run.1 = Ret res
    /\ forall out, out ∈ labels res ->
         (0 <= confidence out)%Q /\ (confidence out <= 100)%Q
         /\ Py.round2 (confidence out) = confidence out.
Proof.
  apply (detector_confidences_in_range rekog_demo "bucket" "images/a.jpg" 10 70 w0
           cat_response).
  - reflexivity.
  - intros lab Hlab.
    apply list_elem_of_In in Hlab. simpl in Hlab.
    destruct Hlab as [<-|[<-|[]]]; split; by vm_compute.
Defined.

(** ** Paths below the folder *)

Lemma dirtree_induction (P : dirtree -> Prop) :
  (forall files subdirs, Forall (fun entry => P entry.2) subdirs ->
                         P (DirNode files subdirs)) ->
  forall t, P t.
Proof.
  intros Hnode. fix IH 1. intros [files subdirs]. apply Hnode.
  induction subdirs as [|[d sub] subdirs IHs]; constructor; [apply IH|apply IHs].
Qed.


(** Joining a name to a path that ends with a name. *)
Lemma path_join_after_name (a d r : string) :
  entry_name d = true -> Py.startswith "/" r = false ->
  Py.path_join (a +:+ d) r = a +:+ d +:+ "/" +:+ r.
Proof.
  intros (Hne & Hsl & _)%entry_name_spec Hr. unfold Py.path_join.
  rewrite Hr, append_eqb_empty, endswith_append_r by done.
  destruct (Py.endswith "/" d) eqn:Hend.
  - apply endswith_has_char in Hend. congruence.
  - simpl. by rewrite append_assoc.
Qed.

Lemma path_join_relative (a r : string) :
  Py.startswith "/" r = false ->
  exists a', Py.path_join a r = a' +:+ r
             /\ forall r', Py.startswith "/" r' = false -> Py.path_join a r' = a' +:+ r'.
Proof.
  intros Hr. unfold Py.path_join. rewrite Hr.
  destruct (String.eqb a "" || Py.endswith "/" a)%bool.
  - exists a. split; [done|]. by intros r' ->.
  - exists (a +:+ "/"). rewrite append_assoc. split; [done|].
    intros r' ->. by rewrite append_assoc.
Qed.

Lemma relative_path_cons (d : string) (names : list string) (f : string) :
  relative_path (d :: names, f) = d +:+ "/" +:+ relative_path (names, f).
Proof. unfold relative_path, Py.join. simpl. by destruct (names ++ [f]) eqn:H; [destruct names|]. Qed.

Lemma relative_path_startswith (names : list string) (f : string) :
  forallb entry_name names = true -> entry_name f = true ->
  Py.startswith "/" (relative_path (names, f)) = false.
Proof.
  intros Hnames Hf. destruct names as [|d names].
  - by destruct (entry_name_spec f Hf) as (_ & _ & ?).
  - apply andb_true_iff in Hnames as [Hd _].
    destruct (entry_name_spec d Hd) as (Hne & _ & Hstart).
    by rewrite relative_path_cons, startswith_append.
Qed.

(** The full path of a file is the folder joined with its relative path. *)
Lemma full_path_of_file (names : list string) (f : string) :
  forall top, forallb entry_name names = true -> entry_name f = true ->
              Py.path_join (fold_left Py.path_join names top) f
              = Py.path_join top (relative_path (names, f)).
Proof.
  induction names as [|d names IH]; intros top Hnames Hf; [done|].
  apply andb_true_iff in Hnames as [Hd Hnames].
  simpl fold_left. rewrite IH, relative_path_cons by done.
  pose proof (relative_path_startswith names f Hnames Hf) as Hr.
  destruct (entry_name_spec d Hd) as (Hne & _ & Hstart).
  destruct (path_join_relative top d Hstart) as (a' & -> & Hrel).
  rewrite Hrel by by rewrite startswith_append.
  by rewrite path_join_after_name.
Qed.

(** The path of a file relative to the folder. *)
Lemma relpath_of_file (names : list string) (f top : string) :
  forallb entry_name names = true -> entry_name f = true ->
  Py.relpath (Py.path_join (fold_left Py.path_join names top) f) top
  = relative_path (names, f).
Proof.
  intros Hnames Hf. apply relpath_below.
  - by rewrite comps_path_join, comps_fold_path_join, <- app_assoc.
  - by destruct names.
Qed.

Lemma all_files_tree_files (tree : dirtree) :
  forall top,
    all_files top tree
    = map (fun nf : list string * string => (fold_left Py.path_join nf.1 top, nf.2))
          (tree_files tree).
Proof.
  induction tree as [files subdirs IH] using dirtree_induction. intros top.
  unfold all_files. simpl walk. simpl tree_files.
  change (flat_map files_of ((top, map fst subdirs, files) :: ?l))
    with (files_of (top, map fst subdirs, files) ++ flat_map files_of l).
  rewrite map_app. f_equal.
  - unfold files_of. by rewrite map_map.
  - induction IH as [|[d sub] subdirs Hsub _ IHs]; [done|].
    simpl. rewrite flat_map_app, map_app, IHs. f_equal.
    fold (all_files (Py.path_join top d) sub). rewrite Hsub, map_map. done.
Qed.

Lemma tree_files_named_well (tree : dirtree) :
  named_well tree = true ->
  Forall (fun nf : list string * string =>
            forallb entry_name nf.1 = true /\ entry_name nf.2 = true)
         (tree_files tree).
Proof.
  induction tree as [files subdirs IH] using dirtree_induction.
  simpl. intros [Hfiles Hsubs]%andb_true_iff. apply Forall_app. split.
  - apply Forall_forall. intros nf Hnf.
    apply list_elem_of_In, in_map_iff in Hnf as (f & <- & Hf).
    split; [done|]. by eapply forallb_forall in Hfiles.
  - induction IH as [|[d sub] subdirs Hsub _ IHs]; [constructor|].
    simpl in Hsubs. apply andb_true_iff in Hsubs as [[Hd Hwell]%andb_true_iff Hsubs].
    simpl. apply Forall_app. split; [|by apply IHs].
    apply Forall_forall. intros nf Hnf.
    apply list_elem_of_In, in_map_iff in Hnf as ([names f] & <- & Hnf).
    apply list_elem_of_In in Hnf.
    pose proof (Hsub Hwell) as Hall. rewrite Forall_forall in Hall.
    destruct (Hall _ Hnf) as [Hnames Hf]. simpl in *. by rewrite Hd, Hnames.
Qed.

Lemma upload_failure_all_ok (s3_client : S3Client) (prefix folder bucket : string)
    (m : list (string * string)) :
  (forall full key, upload_file s3_client full bucket key = Ok tt) ->
  upload_failure s3_client prefix folder bucket m = None.
Proof. intros Hok. induction m as [|rf m IH]; simpl; [done|]. by rewrite Hok. Qed.

Lemma filter_map_snd {A B} (g : A -> B) (P : string -> bool) (l : list (A * string)) :
  List.filter (fun rf : B * string => P rf.2) (map (fun nf => (g nf.1, nf.2)) l)
  = map (fun nf => (g nf.1, nf.2)) (List.filter (fun nf : A * string => P nf.2) l).
Proof.
  induction l as [|nf l IH]; [done|].
  simpl. destruct (P nf.2); simpl; by rewrite IH.
Qed.

(** The uploads of the matching files, told by the tree. *)
Lemma matching_files_by_tree (prefix top bucket : string) (tree : dirtree) :
  named_well tree = true ->
  map (fun rf : string * string =>
         (Py.path_join rf.1 rf.2, bucket, upload_key prefix top (Py.path_join rf.1 rf.2)))
      (matching_files top tree)
  = map (fun nf => (Py.path_join top (relative_path nf), bucket,
                    Py.replace "\" "/" (Py.path_join prefix (relative_path nf))))
        (List.filter (fun nf : list string * string => is_image nf.2) (tree_files tree)).
Proof.
  intros Hwell. unfold matching_files. rewrite all_files_tree_files.
  rewrite (filter_map_snd (fun names => fold_left Py.path_join names top) is_image).
  rewrite map_map. apply map_ext_in. intros [names f] Hin. cbn [fst snd].
  apply filter_In in Hin as [Hin _].
  pose proof (tree_files_named_well tree Hwell) as Hall.
  rewrite Forall_forall in Hall.
  destruct (Hall (names, f)) as [Hnames Hf]; [by apply list_elem_of_In|].
  cbn [fst snd] in *. unfold upload_key.
  by rewrite relpath_of_file, full_path_of_file.
Qed.

(** ** Uploader: keys and the directory tree *)

(** X13. On a folder that is a directory whose entries have proper names
    (not empty, no slash), when no upload raises, the uploader uploads the
    matching files in traversal order, each from the folder joined with its
    relative path [d1/.../dn/f] (the sub-directories that lead to it, then
    its name) to the key made of the prefix joined with that same relative
    path, backslashes replaced by slashes. *)
Theorem upload_keys_follow_the_tree (os : OsEnv) (s3_client : S3Client)
    (folder bucket prefix : string) (w : world) (tree : dirtree) :
  dir_at os (abspath os folder) = Some tree ->
  named_well tree = true ->
  (forall full key, upload_file s3_client full bucket key = Ok tt) ->
  let top := abspath os folder in
  let run := upload_folder_to_s3 os s3_client folder bucket prefix w in
  omap upload_of (new_events w run.2)
  = map (fun nf => (Py.path_join top (relative_path nf), bucket,
                    Py.replace "\" "/" (Py.path_join prefix (relative_path nf))))
        (List.filter (fun nf : list string * string => is_image nf.2) (tree_files tree)).
Proof.
  intros Hdir Hwell Hok top run. subst run.
  rewrite upload_folder_to_s3_general. cbv zeta. fold top in Hdir |- *. rewrite Hdir.
  rewrite (upload_failure_all_ok _ _ _ _ _ Hok).
  pose proof (matching_files_by_tree prefix top bucket tree Hwell) as Hm.
  destruct (matching_files top tree) as [|rf m] eqn:Hmatch.
  - cbn [snd]. rewrite new_events_record. by rewrite <- Hm.
  - cbn [snd]. rewrite new_events_record, omap_app, uploads_of_events. simpl omap.
    by rewrite app_nil_r, <- Hm.
Qed.

Lemma upload_keys_follow_the_tree_witness :
  let run := upload_folder_to_s3 os_holiday s3_ok "/srv/holiday" "bucket" "images/" w0 in
  omap upload_of (new_events w0 run.2)
  = map (fun nf => (Py.path_join "/srv/holiday" (relative_path nf), "bucket",
                    Py.replace "\" "/" (Py.path_join "images/" (relative_path nf))))
        (List.filter (fun nf : list string * string => is_image nf.2)
                     (tree_files holiday_tree)).
Proof.
  apply (upload_keys_follow_the_tree os_holiday s3_ok "/srv/holiday" "bucket" "images/" w0
           holiday_tree).
  - reflexivity.
  - reflexivity.
  - reflexivity.
Defined.

Example holiday_uploads :
  omap upload_of
       (new_events w0
          (upload_folder_to_s3 os_holiday s3_ok "/srv/holiday" "bucket" "images/" w0).2)
  = [("/srv/holiday/a.jpg", "bucket", "images/a.jpg");
     ("/srv/holiday/cats/tom.PNG", "bucket", "images/cats/tom.PNG");
     ("/srv/holiday/cats/old/kit.jpeg", "bucket", "images/cats/old/kit.jpeg")].
Proof. reflexivity. Qed.

(** ** Stages of a whole run *)

Lemma lift_run {A} (m : M A) (s : site) (o : outcome A) (w' : world) (evs : list event) :
  m (base s) = (o, w') ->
  trace w' = trace (base s) ++ evs ->
  lift m s = (o, {| base := w'; log := log s ++ map Core evs |}).
Proof.
  intros Hm Ht. unfold lift. rewrite Hm. cbn [fst snd].
  unfold new_events. by rewrite Ht, drop_app_length.
Qed.

Lemma new_steps_app (s : site) (b : world) (steps : list step) :
  new_steps s {| base := b; log := log s ++ steps |} = steps.
Proof. unfold new_steps. simpl. apply drop_app_length. Qed.

Section Quiet.
Context {A B : Type}.

Lemma logs_only_ret (Q : step -> bool) (a : A) : logs_only Q (pret a).
Proof. intros s. exists []. by rewrite app_nil_r. Qed.

Lemma logs_only_exit (Q : step -> bool) (c : Z) : logs_only Q (pexit (A := A) c).
Proof. intros s. exists []. by rewrite app_nil_r. Qed.

Lemma logs_only_raise (Q : step -> bool) (e : exn) : logs_only Q (praise (A := A) e).
Proof. intros s. exists []. by rewrite app_nil_r. Qed.

Lemma logs_only_bind (Q : step -> bool) (m : P A) (k : A -> P B) :
  logs_only Q m -> (forall a, logs_only Q (k a)) -> logs_only Q (pbind m k).
Proof.
  intros Hm Hk s. unfold pbind. destruct (Hm s) as (st & Hl & HQ).
  destruct (m s) as [[a|c|e] s1]; simpl in *; [|by exists st..].
  destruct (Hk a s1) as (st' & Hl' & HQ').
  exists (st ++ st'). by rewrite Hl', Hl, app_assoc, forallb_app, HQ, HQ'.
Qed.

Lemma logs_only_lift (P0 : event -> bool) (Q : step -> bool) (m : M A) :
  emits P0 m -> (forall e, P0 e = true -> Q (Core e) = true) -> logs_only Q (lift m).
Proof.
  intros Hm HPQ s. unfold lift. cbn [snd log].
  destruct (Hm (base s)) as (evs & Ht & HP).
  exists (map Core evs). unfold new_events. rewrite Ht, drop_app_length.
  split; [done|]. rewrite forallb_forall. intros st Hst.
  apply in_map_iff in Hst as (e & <- & He). apply HPQ.
  by eapply forallb_forall in HP.
Qed.

Lemma quiet_logs_only (Q : step -> bool) (m : P A) : quiet Q m -> logs_only Q m.
Proof. intros Hm s. by destruct (Hm s) as (_ & _ & H). Qed.

Lemma quiet_ret (Q : step -> bool) (a : A) : quiet Q (pret a).
Proof. intros s. split_and!; try done. exists []. by rewrite app_nil_r. Qed.

Lemma quiet_bind (Q : step -> bool) (m : P A) (k : A -> P B) :
  quiet Q m -> (forall a, quiet Q (k a)) -> quiet Q (pbind m k).
Proof.
  intros Hm Hk s. unfold pbind. destruct (Hm s) as (Hd & Hf & st & Hl & HQ).
  destruct (m s) as [[a|c|e] s1]; simpl in *; [|split_and!; try done; by exists st..].
  destruct (Hk a s1) as (Hd' & Hf' & st' & Hl' & HQ').
  split_and!; try congruence.
  exists (st ++ st'). by rewrite Hl', Hl, app_assoc, forallb_app, HQ, HQ'.
Qed.

(** A stage that never returns hides what would follow it. *)
Lemma quiet_bind_halt (Q : step -> bool) (m : P A) (k : A -> P B) :
  quiet Q m -> never_returns m -> quiet Q (pbind m k) /\ never_returns (pbind m k).
Proof.
  intros Hm Hnever. split.
  - intros s. unfold pbind. specialize (Hm s). specialize (Hnever s).
    destruct (m s) as [[a|c|e] s1]; simpl in *; [by destruct (Hnever a)|done..].
  - intros s b. unfold pbind. specialize (Hnever s).
    destruct (m s) as [[a|c|e] s1]; simpl in *; [by destruct (Hnever a)|done..].
Qed.

Lemma never_returns_bind (m : P A) (k : A -> P B) :
  (forall a, never_returns (k a)) -> never_returns (pbind m k).
Proof.
  intros Hk s b. unfold pbind. destruct (m s) as [[a|c|e] s1]; [apply Hk|done..].
Qed.

Lemma quiet_lift (P0 : event -> bool) (Q : step -> bool) (m : M A) :
  keeps_store m -> emits P0 m -> (forall e, P0 e = true -> Q (Core e) = true) ->
  quiet Q (lift m).
Proof.
  intros Hkeep Hm HPQ s. destruct (Hkeep (base s)) as [Hd Hf].
  split_and!; try done. by apply (logs_only_lift P0 Q m).
Qed.

End Quiet.

Lemma logs_only_step (Q : step -> bool) (st : step) :
  Q st = true -> logs_only Q (record_step st).
Proof. intros HQ s. exists [st]. simpl. by rewrite HQ. Qed.

(** The session provider. *)
Lemma make_session_general (boto3 : Boto3) (profile region : string) (s : site) :
  let asked := {| base := base s; log := log s ++ [ESession profile region] |} in
  make_session boto3 profile region s
  = match new_session boto3 profile region with
    | Ok sess => (Ret sess, asked)
    | Raises e =>
        if credentials_error e
        then (Exit 1, {| base := base s;
                         log := log s ++ [ESession profile region;
                                          ESay (MsgCredentialsError e)] |})
        else (Raise e, asked)
    end.
Proof.
  unfold make_session, try_except_credentials, pbind at 1, record_step at 1.
  destruct (new_session boto3 profile region) as [sess|e]; [done|].
  unfold praise. cbv beta iota. destruct (credentials_error e); [|done].
  unfold pbind, say, record_step, pexit. cbn [base log].
  by rewrite <- app_assoc.
Qed.

(** The provisioner on any answer. *)
Lemma ensure_bucket_general (s3_client : S3Client) (bucket region : string) (w : world) :
  let request := ECreateBucket bucket (location_constraint region) in
  ensure_bucket s3_client bucket region w
  = match create_bucket s3_client bucket (location_constraint region) with
    | Ok _ => (Ret tt, record_events [request; EPrint (MsgCreatedBucket bucket)] w)
    | Raises (ClientError e) =>
        if bool_decide (error_code e ∈ ["BucketAlreadyOwnedByYou"; "BucketAlreadyExists"])
        then (Ret tt, record_events [request; EPrint (MsgBucketExists bucket)] w)
        else (Exit 1, record_events [request; EPrint (MsgCouldNotCreate e)] w)
    | Raises (OtherException what) =>
        (Raise (OtherException what), record_events [request] w)
    end.
Proof.
  cbv zeta. unfold ensure_bucket, location_constraint.
  unfold try_except_ClientError, bind at 1.
  destruct (String.eqb region "us-east-1");
    unfold remote, bind at 1, emit at 1;
    (destruct (create_bucket _ _ _) as [[]|[e|what]]);
    unfold raise, ret; cbv beta iota; try case_bool_decide;
    unfold bind, print, emit, sys_exit, record_events; cbn [dirs files trace];
    idtac.
  all: by rewrite <- ?app_assoc.
Qed.

(** Reading a file changes nothing. *)
Lemma open_r_run (path : string) (w : world) :
  (open_r path w).2 = w
  /\ (forall doc, (open_r path w).1 = Ret doc ->
                  file_at w path = Some doc /\ Py.endswith "/" path = false).
Proof.
  unfold open_r, file_at.
  destruct (has_char "000" path); [done|]. destruct (String.eqb path ""); [done|].
  destruct (blocked w (Fs.leading_to path)); [done|].
  destruct (negb (Fs.ends_in_name path) || is_dir w (Fs.locate path)); [done|].
  destruct (files w !! Fs.locate path) as [doc|]; [|done].
  destruct (Py.endswith "/" path); [done|]. split; [done|]. by intros doc' [= <-].
Qed.

Lemma load_run (path : string) (w : world) :
  let r := (f <- open_r path ;; json_load f) w in
  r.2 = w
  /\ (forall c, r.1 <> Exit c)
  /\ (forall data, r.1 = Ret data ->
                  file_at w path = Some (JsonDoc data) /\ Py.endswith "/" path = false).
Proof.
  cbv zeta. unfold bind. destruct (open_r_run path w) as [Hw Hdoc].
  destruct (open_r path w) as [[doc|c|e] w1] eqn:Hopen; cbn [fst snd] in *; subst w1.
  - destruct (Hdoc doc eq_refl) as [Hfile Hend].
    destruct doc as [rows|data|text]; cbn [json_load]; unfold raise, ret; cbn [fst snd];
      (split; [done|]); (split; [done|]); try done.
    by intros data' [= <-].
  - exfalso. revert Hopen. unfold open_r.
    repeat match goal with
           | |- context [if ?b then _ else _] => destruct b
           | |- context [match ?o with Some _ => _ | None => _ end] => destruct o
           end; done.
  - done.
Qed.

Lemma write_report_run (out_html html : string) (w : world) :
  (f <- open_w out_html ;; write f html) w
  = match open_w_error w out_html with
    | Some e => (Raise e, w)
    | None => (Ret tt, {| dirs := dirs w;
                          files := <[Fs.locate out_html := HtmlDoc html]> (files w);
                          trace := trace w |})
    end.
Proof.
  unfold bind, open_w. destruct (open_w_error w out_html); [done|].
  unfold write. cbn [dirs files trace]. by rewrite insert_insert_eq.
Qed.

Lemma open_w_error_slash (w : world) (path : string) :
  Py.endswith "/" path = true -> open_w_error w path <> None.
Proof.
  intros Hend. unfold open_w_error.
  destruct (has_char "000" path); [done|]. destruct (String.eqb path ""); [done|].
  destruct (blocked w (Fs.leading_to path)); [done|].
  rewrite Hend, orb_true_r. done.
Qed.

Lemma lift_silent {A} (m : M A) (s : site) :
  trace (m (base s)).2 = trace (base s) ->
  lift m s = ((m (base s)).1, {| base := (m (base s)).2; log := log s |}).
Proof.
  intros Ht. unfold lift, new_events. by rewrite Ht, drop_all, app_nil_r.
Qed.

(** The report stage on any site. *)
Lemma generate_html_report_general (float_repr : Q -> string)
    (json_path out_html : string) (s : site) :
  let loaded := (f <- open_r json_path ;; json_load f) (base s) in
  let made := makedirs (dirname out_html) (base s) in
  let kept := {| base := made.2; log := log s |} in
  generate_html_report float_repr json_path out_html s
  = match loaded.1 with
    | Ret data =>
        match made.1 with
        | Ret _ =>
            match open_w_error made.2 out_html with
            | Some e => (Raise e, kept)
            | None =>
                (Ret out_html,
                 {| base := {| dirs := dirs made.2;
                               files := <[Fs.locate out_html :=
                                            HtmlDoc (report_page (basename json_path)
                                                       (report_rows float_repr data))]>
                                          (files (base s));
                               trace := trace (base s) |};
                    log := log s ++ [ESay (MsgSavedHtml out_html)] |})
            end
        | Exit c => (Exit c, kept)
        | Raise e => (Raise e, kept)
        end
    | Exit c => (Exit c, s)
    | Raise e => (Raise e, s)
    end.
Proof.
  cbv zeta. unfold generate_html_report, pbind at 1.
  destruct (load_run json_path (base s)) as (Hw & _ & _). cbv zeta in Hw.
  rewrite lift_silent by by rewrite Hw. rewrite Hw.
  assert (Hs : {| base := base s; log := log s |} = s) by by destruct s.
  rewrite Hs.
  destruct ((f <- open_r json_path ;; json_load f) (base s)).1 as [data|c|e]; [|done..].
  unfold pbind at 1.
  destruct (makedirs_frame (dirname out_html) (base s)) as (Hfiles & Htrace & _).
  rewrite lift_silent by done. cbn [base log].
  destruct (makedirs (dirname out_html) (base s)) as [[[]|c|e] w1]; cbn [fst snd] in *;
    [|done..].
  unfold pbind at 1. rewrite lift_silent; rewrite write_report_run; cbn [base log];
    destruct (open_w_error w1 out_html); cbn [fst snd trace]; try done.
  unfold pbind, say, record_step, pret. cbn [base log]. by rewrite Hfiles, Htrace.
Qed.

Lemma length_report_rows (float_repr : Q -> string) (data : list LabelResult) :
  length (report_rows float_repr data)
  = sum_list (map (fun res => length (labels res)) data).
Proof.
  unfold report_rows. induction data as [|res data IH]; [done|].
  simpl. by rewrite length_app, length_map, IH.
Qed.

(** What a report stage that returns has done. *)
Lemma generate_html_report_ret (float_repr : Q -> string)
    (json_path out_html : string) (s : site) (v : string) :
  let run := generate_html_report float_repr json_path out_html s in
  let made := makedirs (dirname out_html) (base s) in
  run.1 = Ret v ->
  exists data,
    v = out_html
    /\ file_at (base s) json_path = Some (JsonDoc data)
    /\ made.1 = Ret tt
    /\ open_w_error made.2 out_html = None
    /\ run.2 = {| base := {| dirs := dirs made.2;
                             files := <[Fs.locate out_html :=
                                          HtmlDoc (report_page (basename json_path)
                                                     (report_rows float_repr data))]>
                                        (files (base s));
                             trace := trace (base s) |};
                  log := log s ++ [ESay (MsgSavedHtml out_html)] |}.
Proof.
  cbv zeta. rewrite generate_html_report_general. cbv zeta.
  destruct (load_run json_path (base s)) as (_ & _ & Hdata). cbv zeta in Hdata.
  destruct ((f <- open_r json_path ;; json_load f) (base s)).1 as [data|c|e]; [|done..].
  destruct (Hdata data eq_refl) as [Hfile _].
  destruct (makedirs (dirname out_html) (base s)) as [[[]|c|e] w1]; cbn [fst snd];
    [|done..].
  destruct (open_w_error w1 out_html); [done|].
  intros [= <-]. by exists data.
Qed.

(** ** Report Generator *)



(** X15. The report generator writes the report last: unless it returns, it
    changes no file and prints nothing; it removes no directory, and the
    directories it makes are on the way of the report's directory.  It does
    not return when no file is at the path it reads, when the report's path
    has no directory part (the empty directory cannot be made), or when the
    report's path ends with a slash (a directory cannot be opened for
    writing). *)
Theorem report_all_or_nothing (float_repr : Q -> string)
    (json_path out_html : string) (s : site) :
  let run := generate_html_report float_repr json_path out_html s in
  ((forall v, run.1 <> Ret v) ->
   files (base run.2) = files (base s) /\ trace (base run.2) = trace (base s)
   /\ log run.2 = log s)
  /\ dirs (base s) ⊆ dirs (base run.2)
  /\ (forall d, d ∈ dirs (base run.2) ->
                d ∈ dirs (base s) \/ d ∈ Fs.on_the_way (dirname out_html))
  /\ (file_at (base s) json_path = None -> forall v, run.1 <> Ret v)
  /\ (dirname out_html = "" -> forall v, run.1 <> Ret v)
  /\ (Py.endswith "/" out_html = true -> forall v, run.1 <> Ret v).
Proof.
  intros run.
  assert (Hnot : (file_at (base s) json_path = None -> forall v, run.1 <> Ret v)
                 /\ (dirname out_html = "" -> forall v, run.1 <> Ret v)
                 /\ (Py.endswith "/" out_html = true -> forall v, run.1 <> Ret v)).
  { split; [|split]; intros Hcase v Hret;
      destruct (generate_html_report_ret float_repr json_path out_html s v Hret)
        as (data & _ & Hfile & Hmade & Hopen & _).
    - congruence.
    - rewrite Hcase in Hmade. discriminate Hmade.
    - by apply (open_w_error_slash _ _ Hcase) in Hopen. }
  destruct Hnot as (Hnone & Hdir & Hslash).
  split; [|split; [|split; [|by split_and!]]];
    subst run; rewrite generate_html_report_general; cbv zeta;
    destruct (makedirs_frame (dirname out_html) (base s))
      as (Hfiles & Htrace & Hsub & Hnew & _);
    destruct ((f <- open_r json_path ;; json_load f) (base s)).1 as [data|c|e];
    try (destruct (makedirs (dirname out_html) (base s)) as [[[]|c|e] w1];
         cbn [fst snd] in *;
         try destruct (open_w_error w1 out_html));
    cbn [fst snd base log dirs files trace]; try done.
  - intros Hnever. by destruct (Hnever out_html).
  - intros d Hd. by left.
  - intros d Hd. by left.
Qed.

(** The report cannot be written into a directory that is not named, nor to
    a path that names a directory. *)
Example report_needs_a_directory :
  let s := (main boto3_demo os_abc repr_demo demo_args site0).2 in
  (generate_html_report repr_demo "out/labels.json" "report.html" s).1
  = Raise FileNotFoundError
  /\ (generate_html_report repr_demo "out/labels.json" "site/" s).1
     = Raise IsADirectoryError
  /\ (generate_html_report repr_demo "out" "site/report.html" s).1
     = Raise IsADirectoryError
  /\ (generate_html_report repr_demo "out/labels.csv" "site/report.html" s).1
     = Raise JSONDecodeError.
Proof. by vm_compute. Qed.

(** ** The whole run *)

Lemma main_general (boto3 : Boto3) (os : OsEnv) (float_repr : Q -> string)
    (a : Args.t) (s : site) :
  let asked := {| base := base s;
                  log := log s ++ [ESession (Args.profile a) (Args.region a)] |} in
  main boto3 os float_repr a s
  = match new_session boto3 (Args.profile a) (Args.region a) with
    | Ok sess => run_pipeline os float_repr a sess asked
    | Raises e =>
        if credentials_error e
        then (Exit 1, {| base := base s;
                         log := log s ++ [ESession (Args.profile a) (Args.region a);
                                          ESay (MsgCredentialsError e)] |})
        else (Raise e, asked)
    end.
Proof.
  cbv zeta. unfold main, pbind. rewrite make_session_general. cbv zeta.
  destruct (new_session _ _ _) as [sess|e]; [done|].
  by destruct (credentials_error e).
Qed.

(** X16. When the session cannot be created, [main] stops before any remote
    call and writes nothing: a [NoCredentialsError] or a remote-service error
    is reported and the process exits with status 1, and any other exception
    (a profile that does not exist, say) leaves [main] as it is. *)
Theorem main_stops_without_session (boto3 : Boto3) (os : OsEnv)
    (float_repr : Q -> string) (a : Args.t) (s : site) (e : exn) :
  new_session boto3 (Args.profile a) (Args.region a) = Raises e ->
  let run := main boto3 os float_repr a s in
  run.1 = (if credentials_error e then Exit 1 else Raise e)
  /\ new_steps s run.2
     = ESession (Args.profile a) (Args.region a)
       :: (if credentials_error e then [ESay (MsgCredentialsError e)] else [])
  /\ remote_calls (new_steps s run.2) = []
  /\ base run.2 = base s.
Proof.
  intros He run. subst run. rewrite main_general, He. cbv zeta.
  destruct (credentials_error e); cbn [fst snd base];
    rewrite new_steps_app; done.
Qed.

Lemma main_stops_without_session_witness :
  let e := OtherException "ProfileNotFound" in
  let run := main boto3_no_profile os_abc repr_demo demo_args site0 in
  run.1 = (if credentials_error e then Exit 1 else Raise e)
  /\ new_steps site0 run.2
     = ESession (Args.profile demo_args) (Args.region demo_args)
       :: (if credentials_error e then [ESay (MsgCredentialsError e)] else [])
  /\ remote_calls (new_steps site0 run.2) = []
  /\ base run.2 = base site0.
Proof.
  apply (main_stops_without_session boto3_no_profile os_abc repr_demo demo_args site0
           (OtherException "ProfileNotFound")).
  reflexivity.
Defined.

Lemma upload_stage_quiet (Q : step -> bool) (os : OsEnv) (s3_client : S3Client)
    (folder bucket prefix : string) :
  (forall e, is_upload e || is_print e = true -> Q (Core e) = true) ->
  quiet Q (if String.eqb folder "" then pret tt
           else pbind (lift (upload_folder_to_s3 os s3_client folder bucket prefix))
                      (fun _ => pret tt)).
Proof.
  intros HQ. destruct (String.eqb folder ""); [apply quiet_ret|].
  apply quiet_bind; [|intros _; apply quiet_ret].
  eapply quiet_lift; [apply upload_folder_keeps_store|apply upload_folder_emits|done].
Qed.

(** X17. When the listing holds no image (or fails), [main] never returns,
    never calls the detector and writes nothing: no directory, no file, no
    report.  This holds whatever the other calls answer. *)
Theorem main_never_labels_an_empty_listing (boto3 : Boto3) (os : OsEnv)
    (float_repr : Q -> string) (a : Args.t) (s : site) :
  (forall sess pages,
     new_session boto3 (Args.profile a) (Args.region a) = Ok sess ->
     paginate_list_objects_v2 (client_s3 sess) (Args.bucket a) (Args.prefix a) = Ok pages ->
     page_keys pages = []) ->
  let run := main boto3 os float_repr a s in
  (forall v, run.1 <> Ret v)
  /\ forallb not_detect (new_steps s run.2) = true
  /\ dirs (base run.2) = dirs (base s)
  /\ files (base run.2) = files (base s).
Proof.
  intros Hlist run. subst run. rewrite main_general. cbv zeta.
  destruct (new_session boto3 (Args.profile a) (Args.region a)) as [sess|e] eqn:Hsess.
  - set (s1 := {| base := base s;
                  log := log s ++ [ESession (Args.profile a) (Args.region a)] |}).
    assert (Hpipe : quiet not_detect (run_pipeline os float_repr a sess)
                    /\ never_returns (run_pipeline os float_repr a sess)).
    { unfold run_pipeline. cbv zeta.
      assert (Hhalt : forall k : list string -> P unit,
                 let listing := lift (list_s3_images (client_s3 sess)
                                        (Args.bucket a) (Args.prefix a)) in
                 quiet not_detect (pbind listing k) /\ never_returns (pbind listing k)).
      { intros k listing. apply quiet_bind_halt.
        - eapply quiet_lift;
            [apply list_s3_images_keeps_store|apply list_s3_images_emits|].
          by intros [].
        - intros s' keys. subst listing. unfold lift. cbn [fst].
          rewrite list_s3_images_general.
          destruct (paginate_list_objects_v2 _ _ _) as [pages|e] eqn:Hpages; [|done].
          by rewrite (Hlist sess pages eq_refl Hpages). }
      split.
      - apply quiet_bind.
        { eapply quiet_lift;
            [apply ensure_bucket_keeps_store|apply ensure_bucket_emits|].
          by intros []. }
        intros _. apply quiet_bind; [apply upload_stage_quiet; by intros []|].
        intros _. apply Hhalt.
      - apply never_returns_bind. intros _. apply never_returns_bind. intros _.
        apply Hhalt. }
    destruct Hpipe as [Hquiet Hnever].
    destruct (Hquiet s1) as (Hd & Hf & steps & Hl & HQ).
    split; [apply Hnever|]. split; [|done].
    unfold new_steps. rewrite Hl. subst s1. cbn [log].
    by rewrite <- app_assoc, drop_app_length.
  - destruct (credentials_error e); cbn [fst snd base];
      rewrite new_steps_app; done.
Qed.

Lemma main_never_labels_an_empty_listing_witness :
  let run := main boto3_empty_bucket os_abc repr_demo demo_args site0 in
  (forall v, run.1 <> Ret v)
  /\ forallb not_detect (new_steps site0 run.2) = true
  /\ dirs (base run.2) = dirs (base site0)
  /\ files (base run.2) = files (base site0).
Proof.
  apply (main_never_labels_an_empty_listing boto3_empty_bucket os_abc repr_demo
           demo_args site0).
  intros sess pages Hsess Hpages. injection Hsess as <-. injection Hpages as <-.
  reflexivity.
Defined.

Lemma generate_html_report_logs (K : step -> bool) (float_repr : Q -> string)
    (json_path out_html : string) :
  (forall m, K (ESay m) = true) ->
  logs_only K (generate_html_report float_repr json_path out_html).
Proof.
  intros HQ s. rewrite generate_html_report_general. cbv zeta.
  assert (Hnone : exists steps, log s = log s ++ steps /\ forallb K steps = true).
  { exists []. by rewrite app_nil_r. }
  destruct ((f <- open_r json_path ;; json_load f) (base s)).1 as [data|c|e]; [|done..].
  destruct (makedirs (dirname out_html) (base s)).1 as [[]|c|e]; [|done..].
  destruct (open_w_error _ out_html); [done|].
  eexists [_]. split; [done|]. simpl. by rewrite HQ.
Qed.

(** X18. Without a local folder (an empty [--local-folder]), [main] uploads
    nothing, whatever the services answer and however the run ends. *)
Theorem main_skips_upload_without_folder (boto3 : Boto3) (os : OsEnv)
    (float_repr : Q -> string) (a : Args.t) (s : site) :
  Args.local_folder a = "" ->
  let run := main boto3 os float_repr a s in
  forallb not_upload (new_steps s run.2) = true
  /\ omap upload_of (omap core_event (new_steps s run.2)) = [].
Proof.
  intros Hfolder run.
  assert (Hlog : forallb not_upload (new_steps s run.2) = true).
  { subst run. rewrite main_general. cbv zeta.
    destruct (new_session boto3 (Args.profile a) (Args.region a)) as [sess|e].
    - set (s1 := {| base := base s;
                    log := log s ++ [ESession (Args.profile a) (Args.region a)] |}).
      assert (Hpipe : logs_only not_upload (run_pipeline os float_repr a sess)).
      { unfold run_pipeline. cbv zeta. rewrite Hfolder. simpl String.eqb. cbv iota.
        apply logs_only_bind.
        { eapply logs_only_lift; [apply ensure_bucket_emits|by intros []]. }
        intros _. apply logs_only_bind; [apply logs_only_ret|].
        intros _. apply logs_only_bind.
        { eapply logs_only_lift; [apply list_s3_images_emits|by intros []]. }
        intros keys. apply logs_only_bind.
        { eapply logs_only_lift; [apply bulk_detect_and_save_emits|by intros []]. }
        intros paths. apply logs_only_bind.
        { by apply generate_html_report_logs. }
        intros _. by apply logs_only_step. }
      destruct (Hpipe s1) as (steps & Hl & HQ).
      unfold new_steps. rewrite Hl. subst s1. cbn [log].
      by rewrite <- app_assoc, drop_app_length.
    - destruct (credentials_error e); cbn [snd]; by rewrite new_steps_app. }
  split; [done|].
  induction (new_steps s run.2) as [|[e| |] steps IH]; simpl in *; [done| |by auto..].
  apply andb_true_iff in Hlog as [He Hlog]. destruct e; try discriminate He; by auto.
Qed.

Lemma main_skips_upload_without_folder_witness :
  let a := {| Args.profile := "rekog-lab"; Args.region := "eu-west-1";
              Args.bucket := "bucket"; Args.local_folder := "";
              Args.prefix := "images/"; Args.max_labels := 10;
              Args.min_confidence := 70 |} in
  let run := main boto3_demo os_abc repr_demo a site0 in
  forallb not_upload (new_steps site0 run.2) = true
  /\ omap upload_of (omap core_event (new_steps site0 run.2)) = [].
Proof.
  apply (main_skips_upload_without_folder boto3_demo os_abc repr_demo
           {| Args.profile := "rekog-lab"; Args.region := "eu-west-1";
              Args.bucket := "bucket"; Args.local_folder := "";
              Args.prefix := "images/"; Args.max_labels := 10;
              Args.min_confidence := 70 |} site0).
  reflexivity.
Defined.

(** ** A run of [main] that returns *)

Lemma pbind_lift_ret {A B} (m : M A) (k : A -> P B) (s : site) (v : B) :
  (pbind (lift m) k s).1 = Ret v ->
  exists a w',
    m (base s) = (Ret a, w')
    /\ pbind (lift m) k s
       = k a {| base := w'; log := log s ++ map Core (new_events (base s) w') |}.
Proof.
  unfold pbind, lift. destruct (m (base s)) as [[a|c|e] w']; cbn [fst snd]; [|done..].
  intros _. by exists a, w'.
Qed.

Lemma pbind_assoc {A B C} (m : P A) (f : A -> P B) (k : B -> P C) (s : site) :
  pbind (pbind m f) k s = pbind m (fun x => pbind (f x) k) s.
Proof. unfold pbind. by destruct (m s) as [[a|c|e] s1]. Qed.

Lemma stage_world {A} (P0 : event -> bool) (m : M A) (w : world) :
  keeps_store m -> emits P0 m ->
  exists evs, (m w).2 = record_events evs w /\ forallb P0 evs = true.
Proof.
  intros Hkeep Hemit. destruct (Hkeep w) as [Hd Hf].
  destruct (Hemit w) as (evs & Ht & HP). exists evs. split; [|done].
  unfold record_events. destruct (m w).2; simpl in *. by subst.
Qed.

Lemma crash_none (rekog_client : RekogClient) (bucket : string) (max_labels : Z)
    (min_conf : Q) (keys : list string) :
  crash rekog_client bucket max_labels min_conf keys = None ->
  reached rekog_client bucket max_labels min_conf keys = keys
  /\ Forall (fun key => recoverable rekog_client bucket max_labels min_conf key = true) keys.
Proof.
  induction keys as [|key keys IH]; [done|].
  intros Hcrash.
  assert (Hkey : recoverable rekog_client bucket max_labels min_conf key = true
                 /\ crash rekog_client bucket max_labels min_conf keys = None).
  { simpl in Hcrash. unfold recoverable.
    by destruct (detect_labels _ _ _ _ _) as [resp|[r|what]]. }
  destruct Hkey as [Hkey Hrest]. destruct (IH Hrest) as [Hreach Hall].
  simpl. rewrite Hkey, Hreach. by split; [|constructor].
Qed.

Lemma loop_events_remote_calls (rekog_client : RekogClient) (bucket : string)
    (max_labels : Z) (min_conf : Q) (n : nat) (keys : list string) :
  forall i,
    List.filter is_remote_call
      (loop_events rekog_client bucket max_labels min_conf n i keys)
    = map (fun key => EDetect bucket key max_labels min_conf) keys.
Proof.
  induction keys as [|key keys IH]; intros i; [done|].
  simpl. unfold key_events.
  destruct (detect_labels _ _ _ _ _) as [resp|[r|what]]; simpl; by rewrite IH.
Qed.

Lemma uploads_remote_calls (evs : list event) :
  forallb (fun e => is_upload e || is_print e) evs = true ->
  forallb is_upload (List.filter is_remote_call evs) = true.
Proof.
  induction evs as [|e evs IH]; [done|].
  simpl. intros [He Hevs]%andb_true_iff. destruct e; try discriminate He; simpl; auto.
Qed.

Lemma omap_core_events (evs : list event) : omap core_event (map Core evs) = evs.
Proof. induction evs as [|e evs IH]; simpl; [done|]. f_equal. exact IH. Qed.

Lemma new_events_of (w w' : world) (evs : list event) :
  trace w' = trace w ++ evs -> new_events w w' = evs.
Proof. unfold new_events. intros ->. apply drop_app_length. Qed.

Lemma pbind_ret {A B} (m : P A) (k : A -> P B) (s : site) (v : B) :
  (pbind m k s).1 = Ret v ->
  exists a s', m s = (Ret a, s') /\ pbind m k s = k a s'.
Proof.
  unfold pbind. destruct (m s) as [[a|c|e] s']; [|done..]. intros _. by exists a, s'.
Qed.

(** What a run of the pipeline that returns has done. *)
Lemma run_pipeline_returns (os : OsEnv) (float_repr : Q -> string) (a : Args.t)
    (sess : Session) (s : site) (v : unit) :
  let bucket := Args.bucket a in
  let rekog := client_rekognition sess in
  let run := run_pipeline os float_repr a sess s in
  run.1 = Ret v ->
  exists (line : message) (uploaded : list event) (pages : list Page),
    let keys := page_keys pages in
    let done := successes rekog bucket (Args.max_labels a) (Args.min_confidence a) keys in
    let evs :=
      [ECreateBucket bucket (location_constraint (Args.region a)); EPrint line]
      ++ uploaded
      ++ [EListObjects bucket (Args.prefix a);
          EPrint (MsgFound (length keys) bucket (Args.prefix a))]
      ++ loop_events rekog bucket (Args.max_labels a) (Args.min_confidence a)
           (length keys) 1%nat keys
      ++ [EPrint (MsgSavedJson "out/labels.json"); EPrint (MsgSavedCsv "out/labels.csv")] in
    paginate_list_objects_v2 (client_s3 sess) bucket (Args.prefix a) = Ok pages
    /\ keys <> []
    /\ crash rekog bucket (Args.max_labels a) (Args.min_confidence a) keys = None
    /\ forallb (fun e => is_upload e || is_print e) uploaded = true
    /\ (Args.local_folder a = "" -> uploaded = [])
    /\ files (base run.2)
       = <[Fs.locate "out/report.html" :=
             HtmlDoc (report_page "labels.json" (report_rows float_repr done))]>
           (<[Fs.locate "out/labels.json" := JsonDoc done]>
              (<[Fs.locate "out/labels.csv" :=
                   CsvDoc (csv_header :: flat_map result_rows done)]>
                 (files (base s))))
    /\ trace (base run.2) = trace (base s) ++ evs
    /\ log run.2
       = log s ++ map Core evs ++ [ESay (MsgSavedHtml "out/report.html"); ESay MsgDone].
Proof.
  intros bucket rekog run Hret. subst run. unfold run_pipeline in *. cbv zeta in *.
  fold bucket rekog in Hret |- *.
  (* the provisioner *)
  destruct (pbind_lift_ret _ _ _ _ Hret) as (? & wA & HA & Hrun).
  rewrite Hrun in Hret |- *. clear Hrun.
  assert (exists line, wA = record_events
                              [ECreateBucket bucket (location_constraint (Args.region a));
                               EPrint line] (base s)) as [line ->].
  { rewrite ensure_bucket_general in HA. cbv zeta in HA.
    destruct (create_bucket _ _ _) as [[]|[e|what]];
      [|case_bool_decide|]; try discriminate HA; injection HA as <-; by eexists. }
  rewrite new_events_record in Hret |- *. clear HA.
  set (evsA := [ECreateBucket bucket (location_constraint (Args.region a)); EPrint line])
    in *.
  (* the uploader *)
  match type of Hret with
  | (pbind ?m ?k ?s1).1 = _ =>
      assert (exists uploaded,
                 forallb (fun e => is_upload e || is_print e) uploaded = true
                 /\ (Args.local_folder a = "" -> uploaded = [])
                 /\ pbind m k s1
                    = k tt {| base := record_events uploaded (base s1);
                              log := log s1 ++ map Core uploaded |})
        as (uploaded & Hup & Hnone & Hrun)
  end.
  { destruct (String.eqb_spec (Args.local_folder a) "") as [Hfolder|Hfolder].
    - exists []. split; [done|]. split; [done|].
      unfold pbind at 1, pret. cbn [base log map].
      by rewrite record_events_nil, app_nil_r.
    - rewrite pbind_assoc in Hret |- *.
      destruct (pbind_lift_ret _ _ _ _ Hret) as (? & wU & HU & Hrun).
      rewrite Hrun. clear Hrun.
      match type of HU with
      | ?m ?w = _ =>
          destruct (stage_world (fun e => is_upload e || is_print e) m w)
            as (uploaded & Hw & Hup);
            [apply upload_folder_keeps_store|apply upload_folder_emits|]
      end.
      rewrite HU in Hw. cbn [snd] in Hw. subst wU.
      exists uploaded. split; [done|]. split; [done|].
      by rewrite new_events_record. }
  rewrite Hrun in Hret |- *. clear Hrun. cbn [base log] in Hret |- *.
  (* the lister *)
  destruct (pbind_lift_ret _ _ _ _ Hret) as (keys & wL & HL & Hrun).
  rewrite Hrun in Hret |- *. clear Hrun. cbn [base log] in Hret, HL |- *.
  rewrite list_s3_images_general in HL.
  destruct (paginate_list_objects_v2 (client_s3 sess) bucket (Args.prefix a))
    as [pages|e] eqn:Hpages; [|discriminate HL].
  destruct (page_keys pages) as [|key0 keys0] eqn:Hkeys; [discriminate HL|].
  injection HL as <- <-. rewrite new_events_record in Hret |- *.
  assert (Hne : page_keys pages <> []) by by rewrite Hkeys.
  change (S (length keys0)) with (length (key0 :: keys0)) in *.
  rewrite <- Hkeys in *. clear Hkeys key0 keys0.
  (* the batch runner *)
  destruct (pbind_lift_ret _ _ _ _ Hret) as (paths & wB & HB & Hrun).
  rewrite Hrun in Hret |- *. clear Hrun. cbn [base log] in Hret, HB |- *.
  assert (HB1 : (bulk_detect_and_save rekog bucket (page_keys pages) "out"
                   (Args.max_labels a) (Args.min_confidence a)
                   (record_events
                      [EListObjects bucket (Args.prefix a);
                       EPrint (MsgFound (length (page_keys pages)) bucket (Args.prefix a))]
                      (record_events uploaded (record_events evsA (base s))))).1
                = Ret paths) by by rewrite HB.
  apply bulk_detect_and_save_ret in HB1 as (Hsave & Hrec & ->).
  rewrite (bulk_detect_and_save_saved _ _ _ _ _ _ _ Hsave Hrec) in HB.
  injection HB as <-.
  assert (Hcrash : crash rekog bucket (Args.max_labels a) (Args.min_confidence a)
                     (page_keys pages) = None) by by apply crash_recoverable.
  exists line, uploaded, pages. cbv zeta.
  split; [done|]. split; [done|].
  split; [done|]. split; [done|]. split; [done|].
  (* the report and the last line *)
  erewrite new_events_of in Hret |- *; [|reflexivity..].
  destruct (pbind_ret _ _ _ _ Hret) as (out & sR & HR & Hrun).
  rewrite Hrun. clear Hrun Hret.
  match type of HR with
  | generate_html_report ?fr ?j ?h ?s4 = _ =>
      pose proof (generate_html_report_ret fr j h s4 out) as HR1
  end.
  cbv zeta in HR1. rewrite HR in HR1.
  destruct (HR1 eq_refl) as (data & _ & Hdata & _ & _ & HsR). clear HR1 HR.
  cbn [snd] in HsR. subst sR.
  change (Py.path_join "out" "labels.json") with "out/labels.json" in *.
  change (Py.path_join "out" "labels.csv") with "out/labels.csv" in *.
  change (basename ("out/labels.json", "out/labels.csv").1) with "labels.json".
  unfold file_at in Hdata. cbn [base files fst] in Hdata.
  rewrite lookup_insert_eq in Hdata. injection Hdata as <-.
  unfold say, record_step. cbn [snd base log files trace fst].
  split; [done|]. split.
  - by rewrite <- !app_assoc.
  - rewrite !map_app, <- !app_assoc. done.
Qed.

(** X19. When [main] returns, every stage has run, in order: the session
    was created, the bucket request sent, then the uploads (if any), then
    one listing, then one label detection per listed image key, in listing
    order, and no other remote call.  The JSON document holds the records of
    the keys whose detection succeeded, the CSV document the header and
    their rows, and the report the page made from those records, with as
    many table rows as the CSV document has data rows; the last line printed
    is the closing one.  Detections that failed with a remote-service error
    do not keep [main] from returning. *)
Theorem main_returns_after_all_stages (boto3 : Boto3) (os : OsEnv)
    (float_repr : Q -> string) (a : Args.t) (s : site) (v : unit) :
  let run := main boto3 os float_repr a s in
  run.1 = Ret v ->
  exists (sess : Session) (pages : list Page) (uploads : list event),
    let bucket := Args.bucket a in
    let keys := page_keys pages in
    let done := successes (client_rekognition sess) bucket
                  (Args.max_labels a) (Args.min_confidence a) keys in
    new_session boto3 (Args.profile a) (Args.region a) = Ok sess
    /\ paginate_list_objects_v2 (client_s3 sess) bucket (Args.prefix a) = Ok pages
    /\ keys <> []
    /\ remote_calls (new_steps s run.2)
       = ECreateBucket bucket (location_constraint (Args.region a))
         :: uploads
         ++ EListObjects bucket (Args.prefix a)
         :: map (fun key => EDetect bucket key (Args.max_labels a) (Args.min_confidence a))
                keys
    /\ forallb is_upload uploads = true
    /\ file_at (base run.2) "out/labels.json" = Some (JsonDoc done)
    /\ file_at (base run.2) "out/labels.csv"
       = Some (CsvDoc (csv_header :: flat_map result_rows done))
    /\ file_at (base run.2) "out/report.html"
       = Some (HtmlDoc (report_page "labels.json" (report_rows float_repr done)))
    /\ length (report_rows float_repr done) = length (flat_map result_rows done)
    /\ last (new_steps s run.2) = Some (ESay MsgDone).
Proof.
  intros run. subst run. rewrite main_general. cbv zeta.
  destruct (new_session boto3 (Args.profile a) (Args.region a)) as [sess|e];
    [|destruct (credentials_error e); discriminate].
  intros Hret.
  destruct (run_pipeline_returns os float_repr a sess _ v Hret)
    as (line & uploaded & pages & Hpages & Hne & Hcrash & Hup & _ & Hfiles & _ & Hlog).
  clear Hret. cbv zeta in Hfiles, Hlog |- *. cbn [base log] in Hfiles, Hlog.
  exists sess, pages, (List.filter is_remote_call uploaded).
  split; [done|]. split; [done|]. split; [done|]. split.
  { unfold new_steps, remote_calls. rewrite Hlog.
    rewrite <- !app_assoc, drop_app_length.
    change ([ESession (Args.profile a) (Args.region a)] ++ ?l)
      with (ESession (Args.profile a) (Args.region a) :: l).
    cbn [omap list_omap core_event]. rewrite omap_app, omap_core_events.
    cbn [omap list_omap core_event]. rewrite app_nil_r.
    rewrite !List.filter_app, loop_events_remote_calls. cbn [List.filter is_remote_call app].
    by rewrite app_nil_r. }
  split; [by apply uploads_remote_calls|].
  unfold file_at. rewrite Hfiles.
  split.
  { rewrite lookup_insert_ne by done. apply lookup_insert_eq. }
  split.
  { rewrite !lookup_insert_ne by done. apply lookup_insert_eq. }
  split; [apply lookup_insert_eq|].
  split.
  { by rewrite length_report_rows, length_result_rows. }
  unfold new_steps. rewrite Hlog. rewrite <- !app_assoc, drop_app_length.
  change [ESay (MsgSavedHtml "out/report.html"); ESay MsgDone]
    with ([ESay (MsgSavedHtml "out/report.html")] ++ [ESay MsgDone]).
  rewrite !app_assoc. apply last_snoc.
Qed.

Lemma main_returns_after_all_stages_witness :
  let run := main boto3_demo os_abc repr_demo demo_args site0 in
  exists (sess : Session) (pages : list Page) (uploads : list event),
    let bucket := Args.bucket demo_args in
    let keys := page_keys pages in
    let done := successes (client_rekognition sess) bucket
                  (Args.max_labels demo_args) (Args.min_confidence demo_args) keys in
    new_session boto3_demo (Args.profile demo_args) (Args.region demo_args) = Ok sess
    /\ paginate_list_objects_v2 (client_s3 sess) bucket (Args.prefix demo_args) = Ok pages
    /\ keys <> []
    /\ remote_calls (new_steps site0 run.2)
       = ECreateBucket bucket (location_constraint (Args.region demo_args))
         :: uploads
         ++ EListObjects bucket (Args.prefix demo_args)
         :: map (fun key => EDetect bucket key (Args.max_labels demo_args)
                              (Args.min_confidence demo_args))
                keys
    /\ forallb is_upload uploads = true
    /\ file_at (base run.2) "out/labels.json" = Some (JsonDoc done)
    /\ file_at (base run.2) "out/labels.csv"
       = Some (CsvDoc (csv_header :: flat_map result_rows done))
    /\ file_at (base run.2) "out/report.html"
       = Some (HtmlDoc (report_page "labels.json" (report_rows repr_demo done)))
    /\ length (report_rows repr_demo done) = length (flat_map result_rows done)
    /\ last (new_steps site0 run.2) = Some (ESay MsgDone).
Proof.
  apply (main_returns_after_all_stages boto3_demo os_abc repr_demo demo_args site0 tt).
  reflexivity.
Defined.

Example main_demo_calls :
  remote_calls (new_steps site0 (main boto3_demo os_abc repr_demo demo_args site0).2)
  = [ECreateBucket "bucket" None;
     EUpload "/srv/images/a.jpg" "bucket" "images/a.jpg";
     EUpload "/srv/images/b.png" "bucket" "images/b.png";
     EListObjects "bucket" "images/";
     EDetect "bucket" "images/a.jpg" 10 70;
     EDetect "bucket" "images/b.jpg" 10 70;
     EDetect "bucket" "images/c.jpg" 10 70].
Proof. reflexivity. Qed.

Lemma pbind_lift_exit {A B} (m : M A) (k : A -> P B) (s : site) (c : Z) (w' : world)
    (evs : list event) :
  m (base s) = (Exit c, w') ->
  trace w' = trace (base s) ++ evs ->
  pbind (lift m) k s
  = (Exit c, {| base := w'; log := log s ++ map Core evs |}).
Proof. intros Hm Ht. unfold pbind. by rewrite (lift_run m s _ w' evs Hm Ht). Qed.

(** X20. When the bucket cannot be provisioned (the creation fails with a
    remote-service error whose code is neither [BucketAlreadyOwnedByYou] nor
    [BucketAlreadyExists]), [main] exits with status 1 after that one remote
    call: nothing is uploaded, listed or labelled, and nothing is written. *)
Theorem main_stops_at_failed_provisioning (boto3 : Boto3) (os : OsEnv)
    (float_repr : Q -> string) (a : Args.t) (s : site) (sess : Session)
    (e : ErrorResponse) :
  new_session boto3 (Args.profile a) (Args.region a) = Ok sess ->
  create_bucket (client_s3 sess) (Args.bucket a) (location_constraint (Args.region a))
    = Raises (ClientError e) ->
  error_code e <> "BucketAlreadyOwnedByYou" ->
  error_code e <> "BucketAlreadyExists" ->
  let run := main boto3 os float_repr a s in
  run.1 = Exit 1
  /\ new_steps s run.2
     = [ESession (Args.profile a) (Args.region a);
        Core (ECreateBucket (Args.bucket a) (location_constraint (Args.region a)));
        Core (EPrint (MsgCouldNotCreate e))]
  /\ dirs (base run.2) = dirs (base s)
  /\ files (base run.2) = files (base s).
Proof.
  intros Hsess Hcreate Hne1 Hne2 run. subst run.
  rewrite main_general, Hsess. cbv zeta. unfold run_pipeline. cbv zeta.
  erewrite pbind_lift_exit; cycle 1.
  { rewrite ensure_bucket_general, Hcreate. cbv zeta.
    rewrite bool_decide_eq_false_2; [reflexivity|].
    rewrite !elem_of_cons, elem_of_nil. tauto. }
  { reflexivity. }
  cbn [fst snd base log dirs files record_events].
  unfold new_steps. cbn [log]. rewrite <- app_assoc, drop_app_length. done.
Qed.

Lemma main_stops_at_failed_provisioning_witness :
  let e := {| Error := Some {| Code := Some "AccessDenied" |} |} in
  let run := main (boto3_refused "AccessDenied") os_abc repr_demo demo_args site0 in
  run.1 = Exit 1
  /\ new_steps site0 run.2
     = [ESession (Args.profile demo_args) (Args.region demo_args);
        Core (ECreateBucket (Args.bucket demo_args)
                (location_constraint (Args.region demo_args)));
        Core (EPrint (MsgCouldNotCreate e))]
  /\ dirs (base run.2) = dirs (base site0)
  /\ files (base run.2) = files (base site0).
Proof.
  apply (main_stops_at_failed_provisioning (boto3_refused "AccessDenied") os_abc
           repr_demo demo_args site0
           {| client_s3 := s3_refusing "AccessDenied"; client_rekognition := rekog_demo |}
           {| Error := Some {| Code := Some "AccessDenied" |} |});
    by vm_compute.
Defined.

(** ** Extensions of keys *)

Lemma rfind_from_append (c : ascii) (a b : string) :
  forall i last,
    Py.rfind_from c (a +:+ b) i last
    = Py.rfind_from c b (i + Z.of_nat (String.length a)) (Py.rfind_from c a i last).
Proof.
  induction a as [|x a IH]; intros i last.
  - simpl. by rewrite Z.add_0_r.
  - change (Py.rfind_from c (String x (a +:+ b)) i last
            = Py.rfind_from c b (i + Z.of_nat (S (String.length a)))
                (Py.rfind_from c (String x a) i last)).
    simpl Py.rfind_from. rewrite IH. f_equal. lia.
Qed.

Lemma rfind_from_spec (c : ascii) (b : string) :
  -1 <= Py.rfind c b < Z.of_nat (String.length b)
  /\ forall i last,
       Py.rfind_from c b i last
       = if Py.rfind c b <? 0 then last else i + Py.rfind c b.
Proof.
  unfold Py.rfind. induction b as [|a b [IHb IH]].
  - simpl. split; [lia|done].
  - simpl Py.rfind_from. simpl String.length.
    rewrite (IH (0 + 1)). split.
    + destruct (Z.ltb_spec (Py.rfind_from c b 0 (-1)) 0);
        [destruct (Ascii.eqb a c)|]; lia.
    + intros i last. rewrite (IH (i + 1)).
      destruct (Z.ltb_spec (Py.rfind_from c b 0 (-1)) 0) as [Hneg|Hpos].
      * destruct (Ascii.eqb a c); simpl; [f_equal; lia|done].
      * destruct (Z.ltb_spec (0 + 1 + Py.rfind_from c b 0 (-1)) 0); lia.
Qed.

Lemma rfind_append (c : ascii) (a b : string) :
  Py.rfind c (a +:+ b)
  = if Py.rfind c b <? 0 then Py.rfind c a
    else Z.of_nat (String.length a) + Py.rfind c b.
Proof.
  unfold Py.rfind at 1. rewrite rfind_from_append.
  destruct (rfind_from_spec c b) as [_ ->]. by rewrite Z.add_0_l.
Qed.

Lemma rfind_without_char (c : ascii) (b : string) :
  has_char c b = false -> Py.rfind c b = -1.
Proof.
  unfold has_char, Py.rfind. generalize 0. induction b as [|a b IH]; intros i; [done|].
  simpl. rewrite (Ascii.eqb_sym c a). destruct (Ascii.eqb a c); [done|].
  simpl. apply IH.
Qed.

Lemma substring_append_skip (a b : string) (k m : nat) :
  String.substring (String.length a + k) m (a +:+ b) = String.substring k m b.
Proof.
  induction a as [|x a IH]; [done|].
  change (String.substring (S (String.length a + k)) m (String x (a +:+ b))
          = String.substring k m b).
  simpl. exact IH.
Qed.

(** The extension of a path is that of its last component. *)
Lemma splitext_after_sep (z f : string) :
  has_char "/" f = false ->
  (Py.splitext (z +:+ String "/" f)).2 = (Py.splitext f).2.
Proof.
  intros Hf.
  change (String "/" f) with (String "/" "" +:+ f). rewrite <- append_assoc.
  set (z' := z +:+ String "/" "").
  assert (Hlen : String.length z' = S (String.length z)).
  { subst z'. rewrite length_append. simpl. lia. }
  assert (Hsep : Py.rfind "/" (z' +:+ f) = Z.of_nat (String.length z)).
  { rewrite rfind_append, (rfind_without_char "/" f Hf). simpl Z.ltb. cbv iota.
    subst z'. rewrite rfind_append. simpl.
    change (Py.rfind "/" "/") with 0. lia. }
  assert (Hdotz : Py.rfind "." z' < Z.of_nat (String.length z)).
  { subst z'. rewrite rfind_append.
    change (Py.rfind "." (String "/" "")) with (-1).
    change (-1 <? 0) with true. cbv iota.
    destruct (rfind_from_spec "." z) as [? _]. lia. }
  destruct (rfind_from_spec "." f) as [Hdotf _].
  unfold Py.splitext. cbv zeta. rewrite Hsep, rfind_append.
  rewrite (rfind_without_char "/" f Hf).
  destruct (Z.ltb_spec (Py.rfind "." f) 0) as [Hneg|Hpos].
  - destruct (Z.ltb_spec (Z.of_nat (String.length z)) (Py.rfind "." z')); [lia|].
    destruct (Z.ltb_spec (-1) (Py.rfind "." f)); [lia|]. done.
  - set (j := Py.rfind "." f) in *.
    destruct (Z.ltb_spec (Z.of_nat (String.length z))
                (Z.of_nat (String.length z') + j)); [|lia].
    destruct (Z.ltb_spec (-1) j); [|lia].
    unfold Py.slice, Py.slice_to, Py.slice_from.
    replace (Z.to_nat (Z.of_nat (String.length z) + 1)) with (String.length z' + 0)%nat
      by lia.
    replace (Z.to_nat (Z.of_nat (String.length z') + j) - (String.length z' + 0))%nat
      with (Z.to_nat j - Z.to_nat (-1 + 1))%nat by lia.
    rewrite substring_append_skip.
    change (Z.to_nat (-1 + 1)) with 0%nat.
    destruct (existsb _ _); simpl andb; cbv iota; [|done]. cbn [snd].
    replace (Z.to_nat (Z.of_nat (String.length z') + j))
      with (String.length z' + Z.to_nat j)%nat by lia.
    rewrite length_append.
    replace (String.length z' + String.length f - (String.length z' + Z.to_nat j))%nat
      with (String.length f - Z.to_nat j)%nat by lia.
    by rewrite substring_append_skip.
Qed.

Lemma replace_without_char (a b : ascii) (s : string) :
  has_char a s = false -> Py.replace a b s = s.
Proof.
  unfold has_char. induction s as [|x s IH]; [done|].
  simpl. rewrite (Ascii.eqb_sym a x). destruct (Ascii.eqb x a); [done|].
  simpl. intros Hs. by rewrite IH.
Qed.

Lemma relative_path_last (names : list string) (f : string) :
  relative_path (names, f) = f
  \/ exists z, relative_path (names, f) = z +:+ String "/" f.
Proof.
  induction names as [|d names IH]; [by left|].
  right. rewrite relative_path_cons. destruct IH as [->|[z ->]].
  - by exists d.
  - exists (d +:+ "/" +:+ z). by rewrite !append_assoc.
Qed.

(** The key of a file has the extension of the file, when no name on the
    way holds a backslash. *)
Lemma upload_key_extension (prefix : string) (names : list string) (f : string) :
  forallb entry_name names = true -> entry_name f = true ->
  has_char "\" (relative_path (names, f)) = false ->
  (Py.splitext (Py.replace "\" "/" (Py.path_join prefix (relative_path (names, f))))).2
  = (Py.splitext f).2.
Proof.
  intros Hnames Hf Hback.
  destruct (entry_name_spec f Hf) as (_ & Hslash & _).
  pose proof (relative_path_startswith names f Hnames Hf) as Hstart.
  set (rel := relative_path (names, f)) in *.
  assert (Hjoin : exists a', Py.path_join prefix rel = a' +:+ rel
                             /\ (a' = "" \/ exists r, a' = r +:+ String "/" "")).
  { unfold Py.path_join. rewrite Hstart.
    destruct (String.eqb_spec prefix "") as [->|Hne]; simpl orb; cbv iota.
    - exists "". split; [done|]. by left.
    - destruct (Py.endswith "/" prefix) eqn:Hend.
      + exists prefix. split; [done|]. right. by apply endswith_append.
      + exists (prefix +:+ "/"). rewrite append_assoc. split; [done|].
        right. by exists prefix. }
  destruct Hjoin as (a' & -> & Ha').
  rewrite replace_append, (replace_without_char _ _ rel Hback).
  destruct (relative_path_last names f) as [Hrel|[z Hrel]]; fold rel in Hrel;
    rewrite Hrel.
  - destruct Ha' as [->|[r ->]]; [done|].
    rewrite replace_append. change (Py.replace "\" "/" (String "/" "")) with (String "/" "").
    rewrite append_assoc. by apply splitext_after_sep.
  - rewrite <- append_assoc. by apply splitext_after_sep.
Qed.

(** ** Uploader and lister together *)

(** X21. What the uploader stores, the lister keeps: on a folder that is a
    directory whose entries have proper names without a backslash, when no
    upload raises, every key the uploader stores has one of the extensions
    the lister accepts. *)
Theorem uploaded_keys_pass_the_lister (os : OsEnv) (s3_client : S3Client)
    (folder bucket prefix : string) (w : world) (tree : dirtree) :
  dir_at os (abspath os folder) = Some tree ->
  named_well tree = true ->
  (forall nf, nf ∈ tree_files tree -> has_char "\" (relative_path nf) = false) ->
  (forall full key, upload_file s3_client full bucket key = Ok tt) ->
  let run := upload_folder_to_s3 os s3_client folder bucket prefix w in
  forall full b key,
    (full, b, key) ∈ omap upload_of (new_events w run.2) ->
    is_image key = true
    /\ Py.lower (Py.splitext key).2 ∈ [".jpg"; ".jpeg"; ".png"].
Proof.
  intros Hdir Hwell Hback Hok run full b key Hin.
  assert (Himg : is_image key = true); [|split; [done|by apply is_image_spec]].
  assert (Huploads : omap upload_of (new_events w run.2)
            = map (fun nf => (Py.path_join (abspath os folder) (relative_path nf), bucket,
                              Py.replace "\" "/" (Py.path_join prefix (relative_path nf))))
                  (List.filter (fun nf : list string * string => is_image nf.2)
                               (tree_files tree))).
  { subst run. rewrite upload_folder_to_s3_general. cbv zeta. rewrite Hdir.
    rewrite (upload_failure_all_ok _ _ _ _ _ Hok).
    rewrite <- (matching_files_by_tree prefix (abspath os folder) bucket tree Hwell).
    destruct (matching_files (abspath os folder) tree) as [|rf m];
      cbn [snd]; rewrite new_events_record; [done|].
    rewrite omap_app, uploads_of_events. simpl omap. by rewrite app_nil_r. }
  rewrite Huploads in Hin.
  apply list_elem_of_In, in_map_iff in Hin as ([names f] & [= <- <- <-] & Hin).
  apply filter_In in Hin as [Hin Hf]. apply list_elem_of_In in Hin. cbn [snd] in Hf.
  pose proof (tree_files_named_well tree Hwell) as Hall. rewrite Forall_forall in Hall.
  destruct (Hall _ Hin) as [Hnames Hname]. cbn [fst snd] in *.
  unfold is_image in *.
  by rewrite (upload_key_extension prefix names f Hnames Hname (Hback _ Hin)).
Qed.

Lemma uploaded_keys_pass_the_lister_witness :
  dir_at os_holiday (abspath os_holiday "/srv/holiday") = Some holiday_tree
  /\ named_well holiday_tree = true
  /\ ("/srv/holiday/cats/tom.PNG", "bucket", "images/cats/tom.PNG")
     ∈ omap upload_of
         (new_events w0
            (upload_folder_to_s3 os_holiday s3_ok "/srv/holiday" "bucket" "images" w0).2)
  /\ is_image "images/cats/tom.PNG" = true
  /\ Py.lower (Py.splitext "images/cats/tom.PNG").2 ∈ [".jpg"; ".jpeg"; ".png"].
Proof.
  assert (Hin : ("/srv/holiday/cats/tom.PNG", "bucket", "images/cats/tom.PNG")
                ∈ omap upload_of
                    (new_events w0
                       (upload_folder_to_s3 os_holiday s3_ok "/srv/holiday" "bucket"
                          "images" w0).2)).
  { apply list_elem_of_In. right. left. reflexivity. }
  split; [reflexivity|]. split; [reflexivity|]. split; [exact Hin|].
  apply (uploaded_keys_pass_the_lister os_holiday s3_ok "/srv/holiday" "bucket" "images"
           w0 holiday_tree) with (full := "/srv/holiday/cats/tom.PNG") (b := "bucket").
  - reflexivity.
  - reflexivity.
  - intros nf Hnf. apply list_elem_of_In in Hnf. simpl in Hnf.
    destruct Hnf as [<-|[<-|[<-|[<-|[<-|[]]]]]]; reflexivity.
  - reflexivity.
  - exact Hin.
Defined.

(** A file named with a backslash before its extension is uploaded, but its
    key is not one the lister keeps. *)
Example backslash_key_not_listed :
  is_image "a\.jpg" = true
  /\ upload_key "images/" "/srv/images" (Py.path_join "/srv/images" "a\.jpg")
     = "images/a/.jpg"
  /\ is_image "images/a/.jpg" = false.
Proof. by vm_compute. Qed.

